(** * github_exporter: the billing and runner collectors

    A shallow embedding of the collectors of [pkg/exporter]: the legacy
    billing collector with its usage normalizer ([parseUsageResponse],
    [extractOSFromSKU]), the redesigned (v5) billing collector, and the
    runner collector with its paginated fetchers.

    Go values are modelled as follows.
    - [string] is a byte string ([String.string], one [ascii] per byte).
    - [float64] is Rocq's primitive binary64 float ([PrimFloat.float]),
      with the same IEEE 754 round-to-nearest-even arithmetic.
    - [int] and [int64] are [Z] with the 64-bit wrap-around written out.
    - a Go [map] is a [gmap]; a slice is a [list]; the order in which a
      [range] statement visits a map is left to the runtime.
    - a pointer field that may be [nil] is an [option].
    - everything a collector does to the outside world (metrics sent on the
      channel, failure counter increments, histogram observations, log
      records) is an [Event] of the trace it produces, in program order.
    - a descriptor is a [Desc] record, and the descriptor fields of a
      collector struct are a record of the module [Fields] of its
      collector; the other fields of the struct hold the arguments of the
      constructor, which the methods below take as parameters. *)

From Stdlib Require Import ZArith String Ascii Floats Lia DecimalString.
From stdpp Require Import base option list gmap strings.

Local Open Scope string_scope.
Local Open Scope list_scope.
Local Open Scope Z_scope.

(** ** The Go runtime *)

(** Three things the Go code relies on are outside the repository and are
    not fixed by the language: the Unicode case tables that
    [strings.ToLower] consults for a string holding a byte at or above
    [utf8.RuneSelf]; the result of [int(f)] for a float whose truncation
    does not fit an [int] (implementation-specific in the Go
    specification); and the order in which a [range] statement visits the
    entries of a map, which is unspecified and need not be the same from
    one [range] statement to the next.  They are fields of the runtime the
    model is parameterised by.  [mapRange n m] is the order in which the
    [range] statement numbered [n] visits the map [m]: some arrangement of
    the entries of [m], chosen freely for every [n]. *)
Class GoRuntime := {
  unicodeToLower : string -> string;
  intOfFloatOverflow : float -> Z;
  mapRange : nat -> gmap string Z -> list (string * Z);
  mapRange_entries : ∀ (n : nat) (m : gmap string Z), mapRange n m ≡ₚ map_to_list m;
}.

(** The runtime used to evaluate the model on concrete inputs: it leaves a
    non-ASCII string as it is, converts an out-of-range float to the
    smallest [int], as the amd64 conversion instruction does, and visits
    the entries of a map in the order of [map_to_list]. *)
Definition plainRuntime : GoRuntime :=
  {| unicodeToLower := fun s => s;
     intOfFloatOverflow := fun _ => - 2 ^ 63;
     mapRange := fun _ m => map_to_list m;
     mapRange_entries := fun _ m => Permutation_refl (map_to_list m) |}.

(** A runtime that differs from it in the order of the entries of a map,
    which it visits the other way round. *)
Definition backwardRuntime : GoRuntime :=
  {| unicodeToLower := fun s => s;
     intOfFloatOverflow := fun _ => - 2 ^ 63;
     mapRange := fun _ m => reverse (map_to_list m);
     mapRange_entries := fun _ m => reverse_Permutation (map_to_list m) |}.

(** ** Package [strings] *)

Module strings.

(** [c < utf8.RuneSelf] *)
Definition isASCIIByte (c : ascii) : bool :=
  match c with Ascii _ _ _ _ _ _ _ b7 => negb b7 end.

(** ['A' <= c && c <= 'Z'] *)
Definition isUpperByte (c : ascii) : bool :=
  (65 <=? N_of_ascii c)%N && (N_of_ascii c <=? 90)%N.

(** [c += 'a' - 'A'] for an upper-case byte. *)
Definition lowerByte (c : ascii) : ascii :=
  if isUpperByte c then ascii_of_N (N_of_ascii c + 32) else c.

Fixpoint allBytes (p : ascii -> bool) (s : string) : bool :=
  match s with
  | EmptyString => true
  | String c s' => p c && allBytes p s'
  end.

Fixpoint mapBytes (f : ascii -> ascii) (s : string) : string :=
  match s with
  | EmptyString => EmptyString
  | String c s' => String (f c) (mapBytes f s')
  end.

(** [strings.ToLower]: the ASCII fast path maps ['A'..'Z'] to ['a'..'z']
    byte by byte; any other string goes through the Unicode tables. *)
Definition ToLower `{GoRuntime} (s : string) : string :=
  if allBytes isASCIIByte s then mapBytes lowerByte s else unicodeToLower s.

(** [strings.HasPrefix] *)
Fixpoint HasPrefix (s prefix : string) : bool :=
  match prefix, s with
  | EmptyString, _ => true
  | String p prefix', String c s' => Ascii.eqb c p && HasPrefix s' prefix'
  | String _ _, EmptyString => false
  end.

(** [strings.Contains]: [substr] occurs in [s] at some byte offset. *)
Fixpoint Contains (s substr : string) : bool :=
  HasPrefix s substr ||
  match s with
  | EmptyString => false
  | String _ s' => Contains s' substr
  end.

(** [strings.Index]: the offset of the first occurrence, or [-1]. *)
Fixpoint Index (s substr : string) : Z :=
  if HasPrefix s substr then 0
  else match s with
       | EmptyString => -1
       | String _ s' => let i := Index s' substr in
                        if i <? 0 then -1 else i + 1
       end.

(** [s[n:]] for [0 <= n <= len(s)]. *)
Fixpoint sliceFrom (n : nat) (s : string) : string :=
  match n, s with
  | O, _ => s
  | S n', String _ s' => sliceFrom n' s'
  | S _, EmptyString => EmptyString
  end.

(** [strings.HasSuffix] *)
Definition HasSuffix (s suffix : string) : bool :=
  (String.length suffix <=? String.length s)%nat &&
  String.eqb (sliceFrom (String.length s - String.length suffix) s) suffix.

(** [strings.Split(s, sep)] for a one-byte separator: the pieces between
    the occurrences of [sep], one more than there are occurrences. *)
Fixpoint Split (s : string) (sep : ascii) : list string :=
  match s with
  | EmptyString => [EmptyString]
  | String c s' =>
      if Ascii.eqb c sep then EmptyString :: Split s' sep
      else match Split s' sep with
           | piece :: pieces => String c piece :: pieces
           | [] => [String c EmptyString]
           end
  end.

(** [strings.Count(s, substr)] for a one-byte [substr]: the number of
    occurrences of the byte.  The collectors do not call it; it words what
    they test through the length of a [Split]. *)
Fixpoint Count (s : string) (sep : ascii) : nat :=
  match s with
  | EmptyString => 0
  | String c s' => (if Ascii.eqb c sep then 1 else 0) + Count s' sep
  end.

End strings.

(** ** Numeric conversions *)

(** 64-bit two's complement wrap-around of [int] arithmetic. *)
Definition wrapInt (z : Z) : Z := (z + 2 ^ 63) mod 2 ^ 64 - 2 ^ 63.

(** The integer part of a finite float, rounded toward zero; [None] for an
    infinity or a NaN. *)
Definition truncFloat (f : float) : option Z :=
  match Prim2SF f with
  | S754_zero _ => Some 0
  | S754_finite s m e =>
      let mag := if 0 <=? e then Z.pos m * 2 ^ e else Z.pos m / 2 ^ (- e) in
      Some (if s then - mag else mag)
  | S754_infinity _ | S754_nan => None
  end.

(** The conversion [int(f)]: the fractional part is discarded (truncation
    toward zero); a value that does not fit is left to the runtime. *)
Definition intOfFloat `{GoRuntime} (f : float) : Z :=
  match truncFloat f with
  | Some z => if (- 2 ^ 63 <=? z) && (z <? 2 ^ 63) then z
              else wrapInt (intOfFloatOverflow f)
  | None => wrapInt (intOfFloatOverflow f)
  end.

(** The conversion [float64(n)] of an [int]: the nearest binary64 value. *)
Definition floatOfInt (n : Z) : float :=
  SF2Prim (binary_normalize prec emax n 0 false).

(** ** Effects of a collector *)

(** A Go [error] value, identified by its message. *)
Definition GoError : Type := string.

(** The two-valued result [(v, err)] of a client call. *)
Inductive result (A : Type) : Type :=
| Ok (a : A)
| Err (e : GoError).
Arguments Ok {A} a.
Arguments Err {A} e.

Inductive Level : Type := LevelDebug | LevelError.

#[global] Instance Level_eq_dec : EqDecision Level.
Proof. solve_decision. Defined.

(** The value of a log attribute.  A duration is wall-clock time and is not
    modelled beyond its presence. *)
Inductive LogValue : Type :=
| VString (s : string)
| VInt (n : Z)
| VFloat (f : float)
| VError (e : GoError)
| VDuration.

Record LogRecord : Type := {
  logLevel : Level;
  logMsg : string;
  logAttrs : list (string * LogValue);
}.

(** A constant gauge sample made by [prometheus.MustNewConstMetric]: the
    fully-qualified name of its descriptor, its value and its label values.
    [MustNewConstMetric] panics when the number of label values differs
    from that of the descriptor or a label value is not valid UTF-8; every
    call below passes as many values as the descriptor of
    [NewBillingCollector] or [NewRunnerCollector] has labels, and label
    values are taken to be valid UTF-8. *)
Record Metric : Type := {
  metricName : string;
  metricValue : float;
  metricLabels : list string;
}.

Inductive Event : Type :=
| EvSend (m : Metric)            (* ch <- metric *)
| EvFailure (label : string)     (* c.failures.WithLabelValues(label).Inc() *)
| EvObserve (label : string)     (* c.duration.WithLabelValues(label).Observe(...) *)
| EvLog (r : LogRecord).         (* c.logger.Debug / c.logger.Error *)

(** How a call ends: it returns, it panics, or it is still running when the
    bound on the iterations of an unbounded [for] loop is reached. *)
Inductive Outcome (A : Type) : Type :=
| Returned (a : A)
| Panicked
| Unfinished.
Arguments Returned {A} a.
Arguments Panicked {A}.
Arguments Unfinished {A}.

(** A computation: the events it produced, in order, and how it ended. *)
Definition Go (A : Type) : Type := list Event * Outcome A.

#[global] Instance Go_ret : MRet Go := fun A a => ([], Returned a).

#[global] Instance Go_bind : MBind Go := fun A B k m =>
  match m with
  | (t, Returned a) => let '(t', o) := k a in (t ++ t', o)
  | (t, Panicked) => (t, Panicked)
  | (t, Unfinished) => (t, Unfinished)
  end.

Definition emit (e : Event) : Go unit := ([e], Returned tt).

Definition panic {A : Type} : Go A := ([], Panicked).

Definition trace {A : Type} (m : Go A) : list Event := m.1.

Definition outcome {A : Type} (m : Go A) : Outcome A := m.2.

(** [for _, x := range xs { s = body(s, x) }], where [s] gathers the
    variables the body updates; [continue] is the body returning early. *)
Fixpoint forRange {A St : Type} (body : St -> A -> Go St) (xs : list A) (s : St) : Go St :=
  match xs with
  | [] => mret s
  | x :: xs' => s' ← body s x; forRange body xs' s'
  end.

Definition logDebug (msg : string) (attrs : list (string * LogValue)) : Go unit :=
  emit (EvLog {| logLevel := LevelDebug; logMsg := msg; logAttrs := attrs |}).

Definition logError (msg : string) (attrs : list (string * LogValue)) : Go unit :=
  emit (EvLog {| logLevel := LevelError; logMsg := msg; logAttrs := attrs |}).

Definition failuresInc (label : string) : Go unit := emit (EvFailure label).

Definition durationObserve (label : string) : Go unit := emit (EvObserve label).

Definition MustNewConstMetric (name : string) (value : float) (labels : list string) : Metric :=
  {| metricName := name; metricValue := value; metricLabels := labels |}.

Definition send (m : Metric) : Go unit := emit (EvSend m).

(** A descriptor made by [prometheus.NewDesc]: its fully-qualified name,
    its help text, the names of its variable labels and its constant
    labels. *)
Record Desc : Type := {
  fqName : string;
  help : string;
  variableLabels : list string;
  constLabels : list (string * string);
}.

Definition NewDesc (fqName help : string) (variableLabels : list string)
    (constLabels : list (string * string)) : Desc :=
  {| fqName := fqName; help := help; variableLabels := variableLabels;
     constLabels := constLabels |}.

(** A sample is consistent with a descriptor when it carries the
    descriptor's name and one label value for each variable label; this is
    the condition under which [MustNewConstMetric] does not panic on the
    number of label values. *)
Definition describedBy (d : Desc) (m : Metric) : Prop :=
  fqName d = metricName m ∧ length (variableLabels d) = length (metricLabels m).

(** The label names of a descriptor paired with the label values of a
    sample, position by position. *)
Definition labelled (d : Desc) (m : Metric) : list (string * string) :=
  zip (variableLabels d) (metricLabels m).

(** A [prometheus.CounterVec] with one label: the children created so far,
    by label value, and their counts. *)
Definition CounterVec : Type := gmap string float.

(** [vec.WithLabelValues(label).Add(v)]: the child is created at zero when
    it does not exist yet. *)
Definition counterAdd (vec : CounterVec) (label : string) (v : float) : CounterVec :=
  <[label := (default 0%float (vec !! label) + v)%float]> vec.

(** The samples a trace sent on the channel, the labels of its failure
    counter increments, the labels of its histogram observations, and its
    log records, each in order. *)
Definition sent (t : list Event) : list Metric :=
  omap (fun e => match e with EvSend m => Some m | _ => None end) t.

Definition failureLabels (t : list Event) : list string :=
  omap (fun e => match e with EvFailure l => Some l | _ => None end) t.

Definition observedLabels (t : list Event) : list string :=
  omap (fun e => match e with EvObserve l => Some l | _ => None end) t.

(** The counter vector after the increments of a trace. *)
Definition countFailures (vec : CounterVec) (t : list Event) : CounterVec :=
  foldl (fun vec label => counterAdd vec label 1) vec (failureLabels t).

Definition logged (t : list Event) : list LogRecord :=
  omap (fun e => match e with EvLog r => Some r | _ => None end) t.

(** The error-level records of a trace. *)
Definition errorsLogged (t : list Event) : list LogRecord :=
  filter (fun r => logLevel r = LevelError) (logged t).

(** The scope a log record names: its "type" and "name" attributes. *)
Definition logScope (r : LogRecord) : option LogValue * option LogValue :=
  ((fun found => found.2.2) <$> list_find (fun kv => kv.1 = "type") (logAttrs r),
   (fun found => found.2.2) <$> list_find (fun kv => kv.1 = "name") (logAttrs r)).

(** The value a computation returns, or [d] when it does not return. *)
Definition returned {A : Type} (d : A) (m : Go A) : A :=
  match outcome m with
  | Returned a => a
  | _ => d
  end.

(** The class of traces that send no sample. *)
Definition sendsNothing (t : list Event) : Prop := sent t = [].

(** The class of traces that only send samples and log at debug level. *)
Definition quiet (t : list Event) : Prop :=
  failureLabels t = [] ∧ observedLabels t = [] ∧ errorsLogged t = [].

(** ** The upstream API client, as the billing collectors use it *)

(** A client is a black box that answers a request with a value or an
    error.  It is modelled as a function of the request: a timeout, a
    cancelled context, a transport or a decoding failure are all an [Err]
    answer, and within one [Collect] the same request gets the same
    answer. *)

Record Request : Type := {
  reqMethod : string;
  reqURL : string;
}.

(** The configured targets ([config.Target]); the timeout only bounds the
    client calls, whose failure is part of the client's answer. *)
Record Target : Type := {
  Enterprises : list string;
  Orgs : list string;
  Repos : list string;
}.

(** ** The legacy billing collector ([pkg/exporter/billing.go]) *)

Module Legacy.

Record UsageItem : Type := {
  Date : string;
  Product : string;
  SKU : string;
  Quantity : float;
  UnitType : string;
  PricePerUnit : float;
  GrossAmount : float;
  DiscountAmount : float;
  NetAmount : float;
  OrganizationName : string;
  RepositoryName : string;
}.

Record UsageResponse : Type := {
  UsageItems : list UsageItem;
}.

Record actionBilling : Type := {
  aType : string;
  aName : string;
  TotalMinutesUsed : float;
  TotalPaidMinutesUsed : float;
  IncludedMinutes : float;
  MinutesUsedBreakdown : gmap string Z;
}.

Record packageBilling : Type := {
  pType : string;
  pName : string;
  TotalGigabytesBandwidthUsed : float;
  TotalPaidGigabytesBandwidthUsed : float;
  IncludedGigabytesBandwidth : float;
}.

Record storageBilling : Type := {
  sType : string;
  sName : string;
  DaysLeftInBillingCycle : Z;
  EstimatedPaidStorageForMonth : float;
  EstimatedStorageForMonth : float;
}.

(** [c.client.NewRequest] and [c.client.Do] decoding into a
    [UsageResponse]. *)
Record Client : Type := {
  NewRequest : string -> string -> result Request;
  Do : Request -> result UsageResponse;
}.

(** [extractOSFromSKU] *)
Definition extractOSFromSKU `{GoRuntime} (sku : string) : string :=
  let skuLower := strings.ToLower sku in
  if strings.Contains skuLower "linux" then "UBUNTU"
  else if strings.Contains skuLower "windows" then "WINDOWS"
  else if strings.Contains skuLower "macos" || strings.Contains skuLower "mac" then "MACOS"
  else "".

(** The constant [1024 * 1024 * 1024] as a [float64]. *)
Definition bytesPerGigabyte : float := (1024 * 1024 * 1024)%float.

(** [m[os] += n] on a [map[string]int]: an absent key reads as [0]. *)
Definition addTo (m : gmap string Z) (os : string) (n : Z) : gmap string Z :=
  <[os := wrapInt (default 0 (m !! os) + n)]> m.

(** The body of the loop of [parseUsageResponse] over the usage items. *)
Definition parseItem `{GoRuntime}
    (bills : actionBilling * packageBilling * storageBilling) (item : UsageItem)
    : actionBilling * packageBilling * storageBilling :=
  let '(actionBill, packageBill, storageBill) := bills in
  let product := strings.ToLower (Product item) in
  if String.eqb product "actions" then
    if String.eqb (strings.ToLower (UnitType item)) "minutes" then
      let os := extractOSFromSKU (SKU item) in
      ({| aType := aType actionBill;
          aName := aName actionBill;
          TotalMinutesUsed := (TotalMinutesUsed actionBill + Quantity item)%float;
          TotalPaidMinutesUsed := (TotalPaidMinutesUsed actionBill + NetAmount item)%float;
          IncludedMinutes := (IncludedMinutes actionBill + DiscountAmount item)%float;
          MinutesUsedBreakdown :=
            if String.eqb os "" then MinutesUsedBreakdown actionBill
            else addTo (MinutesUsedBreakdown actionBill) os (intOfFloat (Quantity item)) |},
       packageBill, storageBill)
    else bills
  else if String.eqb product "packages" then
    let unitType := strings.ToLower (UnitType item) in
    if String.eqb unitType "bytes" || String.eqb unitType "gigabytes" then
      let quantity :=
        if String.eqb unitType "bytes" then (Quantity item / bytesPerGigabyte)%float
        else Quantity item in
      (actionBill,
       {| pType := pType packageBill;
          pName := pName packageBill;
          TotalGigabytesBandwidthUsed := (TotalGigabytesBandwidthUsed packageBill + quantity)%float;
          TotalPaidGigabytesBandwidthUsed :=
            (TotalPaidGigabytesBandwidthUsed packageBill + NetAmount item)%float;
          IncludedGigabytesBandwidth :=
            (IncludedGigabytesBandwidth packageBill + DiscountAmount item)%float |},
       storageBill)
    else bills
  else if String.eqb product "git_lfs" then
    let unitType := strings.ToLower (UnitType item) in
    if String.eqb unitType "bytes" || String.eqb unitType "gigabytes"
       || String.eqb unitType "gigabytehours" then
      let quantity :=
        if String.eqb unitType "bytes" then (Quantity item / bytesPerGigabyte)%float
        else Quantity item in
      (actionBill, packageBill,
       {| sType := sType storageBill;
          sName := sName storageBill;
          DaysLeftInBillingCycle := DaysLeftInBillingCycle storageBill;
          EstimatedPaidStorageForMonth :=
            (EstimatedPaidStorageForMonth storageBill + NetAmount item)%float;
          EstimatedStorageForMonth := (EstimatedStorageForMonth storageBill + quantity)%float |})
    else bills
  else bills.

(** The zero-valued bills [parseUsageResponse] starts from. *)
Definition emptyBills (billingType name : string)
    : actionBilling * packageBilling * storageBilling :=
  ({| aType := billingType; aName := name;
      TotalMinutesUsed := 0; TotalPaidMinutesUsed := 0; IncludedMinutes := 0;
      MinutesUsedBreakdown := ∅ |},
   {| pType := billingType; pName := name;
      TotalGigabytesBandwidthUsed := 0; TotalPaidGigabytesBandwidthUsed := 0;
      IncludedGigabytesBandwidth := 0 |},
   {| sType := billingType; sName := name;
      DaysLeftInBillingCycle := 0;
      EstimatedPaidStorageForMonth := 0; EstimatedStorageForMonth := 0 |}).

(** [parseUsageResponse]; a [nil] response is [None]. *)
Definition parseUsageResponse `{GoRuntime}
    (response : option UsageResponse) (billingType name : string)
    : actionBilling * packageBilling * storageBilling :=
  match response with
  | None => emptyBills billingType name
  | Some r =>
      if (length (UsageItems r) =? 0)%nat then emptyBills billingType name
      else foldl parseItem (emptyBills billingType name) (UsageItems r)
  end.

(** The fetch of an entity fails when the client returns an error, either
    for the request or for the call. *)
Definition fetchFails (c : Client) (endpoint : string -> string) (name : string) : bool :=
  match NewRequest c "GET" (endpoint name) with
  | Err _ => true
  | Ok req => match Do c req with Err _ => true | Ok _ => false end
  end.

(** One iteration of the loops of [getActionBilling], [getPackageBilling]
    and [getStorageBilling], which differ in the endpoint, the scope type,
    the two log messages and the bill they keep. *)
Definition fetchBill `{GoRuntime} {B : Type} (c : Client)
    (billingType : string) (endpoint : string -> string)
    (prepareMsg fetchMsg : string)
    (keep : actionBilling * packageBilling * storageBilling -> B)
    (result : list B) (name : string) : Go (list B) :=
  match NewRequest c "GET" (endpoint name) with
  | Err err =>
      logError prepareMsg
        [("type", VString billingType); ("name", VString name); ("err", VError err)];;
      failuresInc "action";;
      mret result
  | Ok req =>
      match Do c req with
      | Err err =>
          logError fetchMsg
            [("type", VString billingType); ("name", VString name); ("err", VError err)];;
          failuresInc "action";;
          mret result
      | Ok record =>
          mret (result ++ [keep (parseUsageResponse (Some record) billingType name)])
      end
  end.

Definition enterpriseEndpoint (name : string) : string :=
  "/enterprises/" +:+ name +:+ "/settings/billing/usage".

Definition orgEndpoint (name : string) : string :=
  "/organizations/" +:+ name +:+ "/settings/billing/usage".

(** The two loops of a fetcher, over the enterprises and then over the
    organizations, both appending to [result]. *)
Definition fetchBoth `{GoRuntime} {B : Type} (c : Client) (prepareMsg fetchMsg : string)
    (keep : actionBilling * packageBilling * storageBilling -> B) (cfg : Target)
    : Go (list B) :=
  result ← forRange
    (fetchBill c "enterprise" enterpriseEndpoint prepareMsg fetchMsg keep)
    (Enterprises cfg) [];
  forRange (fetchBill c "org" orgEndpoint prepareMsg fetchMsg keep) (Orgs cfg) result.

(** [getActionBilling] *)
Definition getActionBilling `{GoRuntime} (c : Client) (cfg : Target) : Go (list actionBilling) :=
  fetchBoth c "Failed to prepare action request" "Failed to fetch action billing"
    (fun bills => bills.1.1) cfg.

(** [getPackageBilling] *)
Definition getPackageBilling `{GoRuntime} (c : Client) (cfg : Target) : Go (list packageBilling) :=
  fetchBoth c "Failed to prepare package request" "Failed to fetch package billing"
    (fun bills => bills.1.2) cfg.

(** [getStorageBilling] *)
Definition getStorageBilling `{GoRuntime} (c : Client) (cfg : Target) : Go (list storageBilling) :=
  fetchBoth c "Failed to prepare storage request" "Failed to fetch storage billing"
    (fun bills => bills.2) cfg.

(** Modelled from the spec: the helper [alreadyCollected] is declared in a
    file of the package that is not among the sources; the specification
    describes it as a linear scan of the list of names collected so far. *)
Fixpoint alreadyCollected (collected : list string) (needle : string) : bool :=
  match collected with
  | [] => false
  | val :: rest => if String.eqb needle val then true else alreadyCollected rest needle
  end.

(** The fully-qualified names of the descriptors of [NewBillingCollector]. *)
Definition MinutesUsed : string := "github_action_billing_minutes_used".
Definition MinutesUsedBreakdownDesc : string := "github_action_billing_minutes_used_breakdown".
Definition PaidMinutesUsed : string := "github_action_billing_paid_minutes".
Definition IncludedMinutesDesc : string := "github_action_billing_included_minutes".
Definition BandwidthUsed : string := "github_package_billing_gigabytes_bandwidth_used".
Definition BandwidthPaid : string := "github_package_billing_paid_gigabytes_bandwidth_used".
Definition BandwidthIncluded : string := "github_package_billing_included_gigabytes_bandwidth".
Definition DaysLeft : string := "github_storage_billing_days_left_in_cycle".
Definition EastimatedPaidStorage : string := "github_storage_billing_estimated_paid_storage_for_month".
Definition EastimatedStorage : string := "github_storage_billing_estimated_storage_for_month".

(** The body of the first loop of [Collect].  Go ranges over the breakdown
    map in an unspecified order, which the runtime gives.  The loop runs
    the [range] statement once for every record it collects, so the
    statement of this record is numbered by the names collected before
    it. *)
Definition collectAction `{GoRuntime} (collected : list string) (record : actionBilling)
    : Go (list string) :=
  if alreadyCollected collected (aName record) then
    logDebug "Already collected action billing"
      [("type", VString (aType record)); ("name", VString (aName record))];;
    mret collected
  else
    let nth := length collected in
    let collected := collected ++ [aName record] in
    logDebug "Collecting action billing"
      [("type", VString (aType record)); ("name", VString (aName record))];;
    let labels := [aType record; aName record] in
    send (MustNewConstMetric MinutesUsed (TotalMinutesUsed record) labels);;
    send (MustNewConstMetric PaidMinutesUsed (TotalPaidMinutesUsed record) labels);;
    send (MustNewConstMetric IncludedMinutesDesc (IncludedMinutes record) labels);;
    forRange
      (fun (_ : unit) (kv : string * Z) =>
         send (MustNewConstMetric MinutesUsedBreakdownDesc (floatOfInt kv.2) (labels ++ [kv.1])))
      (mapRange nth (MinutesUsedBreakdown record)) tt;;
    mret collected.

(** The body of the second loop of [Collect]. *)
Definition collectPackage (collected : list string) (record : packageBilling) : Go (list string) :=
  if alreadyCollected collected (pName record) then
    logDebug "Already collected package billing"
      [("type", VString (pType record)); ("name", VString (pName record))];;
    mret collected
  else
    let collected := collected ++ [pName record] in
    logDebug "Collecting package billing"
      [("type", VString (pType record)); ("name", VString (pName record))];;
    let labels := [pType record; pName record] in
    send (MustNewConstMetric BandwidthUsed (TotalGigabytesBandwidthUsed record) labels);;
    send (MustNewConstMetric BandwidthPaid (TotalPaidGigabytesBandwidthUsed record) labels);;
    send (MustNewConstMetric BandwidthIncluded (IncludedGigabytesBandwidth record) labels);;
    mret collected.

(** The body of the third loop of [Collect]. *)
Definition collectStorage (collected : list string) (record : storageBilling) : Go (list string) :=
  if alreadyCollected collected (sName record) then
    logDebug "Already collected storage billing"
      [("type", VString (sType record)); ("name", VString (sName record))];;
    mret collected
  else
    let collected := collected ++ [sName record] in
    logDebug "Collecting storage billing"
      [("type", VString (sType record)); ("name", VString (sName record))];;
    let labels := [sType record; sName record] in
    send (MustNewConstMetric DaysLeft (floatOfInt (DaysLeftInBillingCycle record)) labels);;
    send (MustNewConstMetric EastimatedPaidStorage (EstimatedPaidStorageForMonth record) labels);;
    send (MustNewConstMetric EastimatedStorage (EstimatedStorageForMonth record) labels);;
    mret collected.

(** The three blocks of [Collect]. *)
Definition collectActionBlock `{GoRuntime} (c : Client) (cfg : Target) : Go unit :=
  billing ← getActionBilling c cfg;
  durationObserve "action";;
  logDebug "Fetched action billing"
    [("count", VInt (Z.of_nat (length billing))); ("duration", VDuration)];;
  forRange collectAction billing [];;
  mret tt.

Definition collectPackageBlock `{GoRuntime} (c : Client) (cfg : Target) : Go unit :=
  billing ← getPackageBilling c cfg;
  durationObserve "action";;
  logDebug "Fetched package billing"
    [("count", VInt (Z.of_nat (length billing))); ("duration", VDuration)];;
  forRange collectPackage billing [];;
  mret tt.

Definition collectStorageBlock `{GoRuntime} (c : Client) (cfg : Target) : Go unit :=
  billing ← getStorageBilling c cfg;
  durationObserve "action";;
  logDebug "Fetched storage billing"
    [("count", VInt (Z.of_nat (length billing))); ("duration", VDuration)];;
  forRange collectStorage billing [];;
  mret tt.

(** [BillingCollector.Collect] *)
Definition Collect `{GoRuntime} (c : Client) (cfg : Target) : Go unit :=
  collectActionBlock c cfg;;
  collectPackageBlock c cfg;;
  collectStorageBlock c cfg.

(** The configured entities whose fetch fails, with their scope type, in
    the order the fetchers visit them. *)
Definition failingEntities (c : Client) (cfg : Target) : list (string * string) :=
  ((fun n => ("enterprise", n))
     <$> filter (fun n => fetchFails c enterpriseEndpoint n = true) (Enterprises cfg))
  ++ ((fun n => ("org", n))
        <$> filter (fun n => fetchFails c orgEndpoint n = true) (Orgs cfg)).

(** The configuration without the entities whose fetch fails. *)
Definition withoutFailing (c : Client) (cfg : Target) : Target :=
  {| Enterprises :=
       filter (fun n => fetchFails c enterpriseEndpoint n = false) (Enterprises cfg);
     Orgs := filter (fun n => fetchFails c orgEndpoint n = false) (Orgs cfg);
     Repos := Repos cfg |}.

(** The test [parseUsageResponse] makes before it adds an item to the
    action bill: both the product and the unit type are compared after
    lower-casing. *)
Definition actionsBucket `{GoRuntime} (item : UsageItem) : Prop :=
  strings.ToLower (Product item) = "actions" ∧ strings.ToLower (UnitType item) = "minutes".

#[global] Instance actionsBucket_dec `{GoRuntime} (item : UsageItem)
  : Decision (actionsBucket item).
Proof. unfold actionsBucket. apply _. Defined.

(** What the loop does to the breakdown map for an item of the bucket. *)
Definition accumulateBreakdown `{GoRuntime} (m : gmap string Z) (item : UsageItem)
    : gmap string Z :=
  let os := extractOSFromSKU (SKU item) in
  if String.eqb os "" then m else addTo m os (intOfFloat (Quantity item)).

(** Left-to-right accumulation [acc += x] over a list, from [acc]. *)
Definition accumulate (acc : float) (xs : list float) : float :=
  foldl PrimFloat.add acc xs.

(** The sum of the values of a breakdown map. *)
Definition breakdownTotal (m : gmap string Z) : Z :=
  map_fold (fun _ v acc => v + acc) 0 m.

(** The actions bucket as the specification words it: the product equals
    "actions" ignoring case, and the unit type equals "minutes". *)
Definition specActionsBucket `{GoRuntime} (item : UsageItem) : Prop :=
  strings.ToLower (Product item) = "actions" ∧ UnitType item = "minutes".

(** The operating system as the specification words it: a substring match
    on the SKU itself. *)
Definition specOSFromSKU (sku : string) : string :=
  if strings.Contains sku "linux" then "UBUNTU"
  else if strings.Contains sku "windows" then "WINDOWS"
  else if strings.Contains sku "macos" || strings.Contains sku "mac" then "MACOS"
  else "".

(** The test [parseUsageResponse] makes before it adds an item to the
    package bill. *)
Definition packagesBucket `{GoRuntime} (item : UsageItem) : Prop :=
  strings.ToLower (Product item) = "packages" ∧
  (strings.ToLower (UnitType item) = "bytes"
   ∨ strings.ToLower (UnitType item) = "gigabytes").

#[global] Instance packagesBucket_dec `{GoRuntime} (item : UsageItem)
  : Decision (packagesBucket item).
Proof. unfold packagesBucket. apply _. Defined.

(** The test it makes before it adds an item to the storage bill. *)
Definition storageBucket `{GoRuntime} (item : UsageItem) : Prop :=
  strings.ToLower (Product item) = "git_lfs" ∧
  (strings.ToLower (UnitType item) = "bytes"
   ∨ strings.ToLower (UnitType item) = "gigabytes"
   ∨ strings.ToLower (UnitType item) = "gigabytehours").

#[global] Instance storageBucket_dec `{GoRuntime} (item : UsageItem)
  : Decision (storageBucket item).
Proof. unfold storageBucket. apply _. Defined.

(** The local [quantity] of the package and storage cases: the quantity of
    the item, divided by [1024 * 1024 * 1024] when the unit type is
    "bytes". *)
Definition quantityInGigabytes `{GoRuntime} (item : UsageItem) : float :=
  if String.eqb (strings.ToLower (UnitType item)) "bytes"
  then (Quantity item / bytesPerGigabyte)%float
  else Quantity item.

(** An item [parseUsageResponse] adds to one of the three bills. *)
Definition billed `{GoRuntime} (item : UsageItem) : Prop :=
  actionsBucket item ∨ packagesBucket item ∨ storageBucket item.

#[global] Instance billed_dec `{GoRuntime} (item : UsageItem) : Decision (billed item).
Proof. unfold billed. apply _. Defined.

(** The items of a batch that [parseUsageResponse] files under the
    operating system [os] in the breakdown. *)
Definition itemsOfOS `{GoRuntime} (os : string) (items : list UsageItem) : list UsageItem :=
  filter (fun item => actionsBucket item ∧ extractOSFromSKU (SKU item) = os) items.

(** The sum of the truncated quantities [int(item.Quantity)] of a list of
    items, as an integer. *)
Definition truncatedMinutes `{GoRuntime} (items : list UsageItem) : Z :=
  foldr (fun item acc => intOfFloat (Quantity item) + acc) 0 items.

(** The configured entities whose fetch succeeds, with their scope type, in
    the order the fetchers visit them. *)
Definition fetchedEntities (c : Client) (cfg : Target) : list (string * string) :=
  ((fun n => ("enterprise", n))
     <$> filter (fun n => fetchFails c enterpriseEndpoint n = false) (Enterprises cfg))
  ++ ((fun n => ("org", n))
        <$> filter (fun n => fetchFails c orgEndpoint n = false) (Orgs cfg)).

(** The usage response the client answers for a name, none when the
    request or the call fails. *)
Definition responseOf (c : Client) (endpoint : string -> string) (name : string)
    : option UsageResponse :=
  match NewRequest c "GET" (endpoint name) with
  | Err _ => None
  | Ok req => match Do c req with Err _ => None | Ok response => Some response end
  end.

(** The endpoint the fetchers request for an entity of a scope type. *)
Definition endpointOf (billingType : string) : string -> string :=
  if String.eqb billingType "enterprise" then enterpriseEndpoint else orgEndpoint.

(** The three bills of the configured entities whose fetch succeeds, each
    parsed from the response the client answers for the entity, in the
    order the fetchers visit them. *)
Definition fetchedBills `{GoRuntime} (c : Client) (cfg : Target)
    : list (actionBilling * packageBilling * storageBilling) :=
  (fun scope =>
     parseUsageResponse (responseOf c (endpointOf scope.1) scope.2) scope.1 scope.2)
    <$> fetchedEntities c cfg.

(** The samples [Collect] sends for a record it has not collected yet:
    the three totals, then the entries of the breakdown in the order the
    runtime gives for the [range] statement numbered [nth]. *)
Definition actionSamples `{GoRuntime} (nth : nat) (record : actionBilling) : list Metric :=
  let labels := [aType record; aName record] in
  [MustNewConstMetric MinutesUsed (TotalMinutesUsed record) labels;
   MustNewConstMetric PaidMinutesUsed (TotalPaidMinutesUsed record) labels;
   MustNewConstMetric IncludedMinutesDesc (IncludedMinutes record) labels]
  ++ ((fun kv : string * Z =>
         MustNewConstMetric MinutesUsedBreakdownDesc (floatOfInt kv.2) (labels ++ [kv.1]))
        <$> mapRange nth (MinutesUsedBreakdown record)).

Definition packageSamples (record : packageBilling) : list Metric :=
  let labels := [pType record; pName record] in
  [MustNewConstMetric BandwidthUsed (TotalGigabytesBandwidthUsed record) labels;
   MustNewConstMetric BandwidthPaid (TotalPaidGigabytesBandwidthUsed record) labels;
   MustNewConstMetric BandwidthIncluded (IncludedGigabytesBandwidth record) labels].

Definition storageSamples (record : storageBilling) : list Metric :=
  let labels := [sType record; sName record] in
  [MustNewConstMetric DaysLeft (floatOfInt (DaysLeftInBillingCycle record)) labels;
   MustNewConstMetric EastimatedPaidStorage (EstimatedPaidStorageForMonth record) labels;
   MustNewConstMetric EastimatedStorage (EstimatedStorageForMonth record) labels].

(** The records of [records] that are the first of their name, [before]
    being the names met earlier. *)
Fixpoint firstOfName {B : Type} (nameOf : B -> string) (before : list string)
    (records : list B) : list B :=
  match records with
  | [] => []
  | record :: rest =>
      (if bool_decide (nameOf record ∈ before) then [] else [record])
      ++ firstOfName nameOf (before ++ [nameOf record]) rest
  end.

(** The descriptor fields of the [BillingCollector] struct. *)
Module Fields.

Record BillingCollector : Type := {
  MinutesUsed : Desc;
  MinutesUsedBreakdown : Desc;
  PaidMinutesUsed : Desc;
  IncludedMinutes : Desc;
  BandwidthUsed : Desc;
  BandwidthPaid : Desc;
  BandwidthIncluded : Desc;
  DaysLeft : Desc;
  EastimatedPaidStorage : Desc;
  EastimatedStorage : Desc;
}.

End Fields.

(** [NewBillingCollector]: when a failure counter is given, its child for
    the label "billing" is touched with [Add(0)]; the descriptors are built
    over the labels "type" and "name", the breakdown over these and "os".
    The result is the counter as the constructor leaves it and the
    descriptor fields of the struct. *)
Definition NewBillingCollector (failures : option CounterVec)
    : option CounterVec * Fields.BillingCollector :=
  let failures := (fun vec => counterAdd vec "billing" 0) <$> failures in
  let labels := ["type"; "name"] in
  (failures,
   {| Fields.MinutesUsed :=
        NewDesc "github_action_billing_minutes_used"
          "Total action minutes used for this type" labels [];
      Fields.MinutesUsedBreakdown :=
        NewDesc "github_action_billing_minutes_used_breakdown"
          "Total action minutes used for this type broken down by operating system"
          (labels ++ ["os"]) [];
      Fields.PaidMinutesUsed :=
        NewDesc "github_action_billing_paid_minutes"
          "Total paid minutes used for this type" labels [];
      Fields.IncludedMinutes :=
        NewDesc "github_action_billing_included_minutes"
          "Included minutes for this type" labels [];
      Fields.BandwidthUsed :=
        NewDesc "github_package_billing_gigabytes_bandwidth_used"
          "Total bandwidth used by this type in Gigabytes" labels [];
      Fields.BandwidthPaid :=
        NewDesc "github_package_billing_paid_gigabytes_bandwidth_used"
          "Total paid bandwidth used by this type in Gigabytes" labels [];
      Fields.BandwidthIncluded :=
        NewDesc "github_package_billing_included_gigabytes_bandwidth"
          "Included bandwidth for this type in Gigabytes" labels [];
      Fields.DaysLeft :=
        NewDesc "github_storage_billing_days_left_in_cycle"
          "Days left within this billing cycle for this type" labels [];
      Fields.EastimatedPaidStorage :=
        NewDesc "github_storage_billing_estimated_paid_storage_for_month"
          "Estimated paid storage for this month for this type" labels [];
      Fields.EastimatedStorage :=
        NewDesc "github_storage_billing_estimated_storage_for_month"
          "Estimated total storage for this month for this type" labels [] |}).

(** [Metrics] *)
Definition Metrics (c : Fields.BillingCollector) : list Desc :=
  [Fields.MinutesUsed c; Fields.MinutesUsedBreakdown c; Fields.PaidMinutesUsed c;
   Fields.IncludedMinutes c; Fields.BandwidthUsed c; Fields.BandwidthPaid c;
   Fields.BandwidthIncluded c; Fields.DaysLeft c; Fields.EastimatedPaidStorage c;
   Fields.EastimatedStorage c].

(** [Describe]: the descriptors sent on the channel, in order. *)
Definition Describe (c : Fields.BillingCollector) : list Desc :=
  [Fields.MinutesUsed c; Fields.MinutesUsedBreakdown c; Fields.PaidMinutesUsed c;
   Fields.IncludedMinutes c; Fields.BandwidthUsed c; Fields.BandwidthPaid c;
   Fields.BandwidthIncluded c; Fields.DaysLeft c; Fields.EastimatedPaidStorage c;
   Fields.EastimatedStorage c].

(** A sample of the entity [scope] under one of the descriptors of the
    collector: its label values are the scope type and the name, followed,
    for the breakdown, by one of the three operating systems. *)
Definition sampleOf (collector : Fields.BillingCollector) (scope : string * string)
    (m : Metric) : Prop :=
  ∃ d : Desc,
    d ∈ Describe collector ∧ describedBy d m ∧
    (labelled d m = [("type", scope.1); ("name", scope.2)]
     ∨ ∃ os : string,
         os ∈ ["UBUNTU"; "WINDOWS"; "MACOS"]
         ∧ labelled d m = [("type", scope.1); ("name", scope.2); ("os", os)]).

End Legacy.

(** ** The redesigned (v5) billing collector *)

Module V5.

(** A usage item of the enhanced billing platform, with the two fields the
    collector adds for labelling. *)
Record UsageItem : Type := {
  Date : string;
  Product : string;
  SKU : string;
  Quantity : float;
  UnitType : string;
  PricePerUnit : float;
  GrossAmount : float;
  DiscountAmount : float;
  NetAmount : float;
  OrganizationName : string;
  RepositoryName : string;
  Type_ : string;   (* "org" or "enterprise" *)
  Name : string;    (* organization or enterprise name *)
}.

Record UsageResponse : Type := {
  UsageItems : list UsageItem;
}.

Record Client : Type := {
  NewRequest : string -> string -> result Request;
  Do : Request -> result UsageResponse;
}.

(** [item.Type = entityType; item.Name = name] on a copy of the item. *)
Definition withEntity (entityType name : string) (item : UsageItem) : UsageItem :=
  {| Date := Date item; Product := Product item; SKU := SKU item;
     Quantity := Quantity item; UnitType := UnitType item;
     PricePerUnit := PricePerUnit item; GrossAmount := GrossAmount item;
     DiscountAmount := DiscountAmount item; NetAmount := NetAmount item;
     OrganizationName := OrganizationName item; RepositoryName := RepositoryName item;
     Type_ := entityType; Name := name |}.

(** The [endpoint] of [fetchBillingUsageForEntity]. *)
Definition billingEndpoint (entityType name : string) : string :=
  if String.eqb entityType "enterprise"
  then "/enterprises/" +:+ name +:+ "/settings/billing/usage"
  else "/organizations/" +:+ name +:+ "/settings/billing/usage".

(** The fetch of an entity fails when the client returns an error, either
    for the request or for the call. *)
Definition fetchFails (c : Client) (entityType name : string) : bool :=
  match NewRequest c "GET" (billingEndpoint entityType name) with
  | Err _ => true
  | Ok req => match Do c req with Err _ => true | Ok _ => false end
  end.

(** [fetchBillingUsageForEntity] *)
Definition fetchBillingUsageForEntity (c : Client) (entityType name : string)
    : Go (list UsageItem) :=
  let endpoint := billingEndpoint entityType name in
  match NewRequest c "GET" endpoint with
  | Err err =>
      logError "Failed to prepare billing request"
        [("type", VString entityType); ("name", VString name); ("err", VError err)];;
      failuresInc "billing";;
      mret []
  | Ok req =>
      match Do c req with
      | Err err =>
          logError "Failed to fetch billing usage"
            [("type", VString entityType); ("name", VString name); ("err", VError err)];;
          failuresInc "billing";;
          mret []
      | Ok response =>
          mret (foldl (fun result item => result ++ [withEntity entityType name item])
                  [] (UsageItems response))
      end
  end.

(** [getBillingUsage] *)
Definition getBillingUsage (c : Client) (cfg : Target) : Go (list UsageItem) :=
  result ← forRange
    (fun result name =>
       items ← fetchBillingUsageForEntity c "enterprise" name;
       mret (result ++ items))
    (Enterprises cfg) [];
  forRange
    (fun result name =>
       items ← fetchBillingUsageForEntity c "org" name;
       mret (result ++ items))
    (Orgs cfg) result.

(** The fully-qualified names of the descriptors of [NewBillingCollector]. *)
Definition BillingUsage : string := "github_billing_usage".
Definition BillingGrossAmount : string := "github_billing_usage_gross_amount".
Definition BillingDiscountAmount : string := "github_billing_usage_discount_amount".
Definition BillingNetAmount : string := "github_billing_usage_net_amount".
Definition BillingPricePerUnit : string := "github_billing_usage_price_per_unit".

(** [fmt.Sprintf("%s-%s-%s-%s-%s", item.Type, item.Name, item.Product,
    item.SKU, item.Date)] *)
Definition dedupKey (item : UsageItem) : string :=
  Type_ item +:+ "-" +:+ Name item +:+ "-" +:+ Product item +:+ "-" +:+ SKU item
  +:+ "-" +:+ Date item.

(** The label values of the five samples of an item. *)
Definition itemLabels (item : UsageItem) : list string :=
  [Type_ item; Name item; Product item; SKU item; UnitType item; Date item;
   OrganizationName item; RepositoryName item].

(** The five samples sent for an item that is not a duplicate. *)
Definition sampleSet (item : UsageItem) : list Metric :=
  [MustNewConstMetric BillingUsage (Quantity item) (itemLabels item);
   MustNewConstMetric BillingGrossAmount (GrossAmount item) (itemLabels item);
   MustNewConstMetric BillingDiscountAmount (DiscountAmount item) (itemLabels item);
   MustNewConstMetric BillingNetAmount (NetAmount item) (itemLabels item);
   MustNewConstMetric BillingPricePerUnit (PricePerUnit item) (itemLabels item)].

(** The body of the loop of [Collect]; [collected] is the
    [map[string]bool] of the keys seen so far. *)
Definition collectItem (collected : gmap string bool) (item : UsageItem)
    : Go (gmap string bool) :=
  let key := dedupKey item in
  if default false (collected !! key) then
    logDebug "Already collected billing usage"
      [("type", VString (Type_ item)); ("name", VString (Name item));
       ("product", VString (Product item)); ("sku", VString (SKU item));
       ("date", VString (Date item))];;
    mret collected
  else
    let collected := <[key := true]> collected in
    logDebug "Collecting billing usage"
      [("type", VString (Type_ item)); ("name", VString (Name item));
       ("product", VString (Product item)); ("sku", VString (SKU item));
       ("unit_type", VString (UnitType item)); ("quantity", VFloat (Quantity item))];;
    let labels := itemLabels item in
    send (MustNewConstMetric BillingUsage (Quantity item) labels);;
    send (MustNewConstMetric BillingGrossAmount (GrossAmount item) labels);;
    send (MustNewConstMetric BillingDiscountAmount (DiscountAmount item) labels);;
    send (MustNewConstMetric BillingNetAmount (NetAmount item) labels);;
    send (MustNewConstMetric BillingPricePerUnit (PricePerUnit item) labels);;
    mret collected.

(** [BillingCollector.Collect] *)
Definition Collect (c : Client) (cfg : Target) : Go unit :=
  usageItems ← getBillingUsage c cfg;
  durationObserve "billing";;
  logDebug "Fetched billing usage"
    [("count", VInt (Z.of_nat (length usageItems))); ("duration", VDuration)];;
  forRange collectItem usageItems ∅;;
  mret tt.

(** The items [Collect] works on. *)
Definition usageItemsOf (c : Client) (cfg : Target) : list UsageItem :=
  returned [] (getBillingUsage c cfg).

(** The configured entities whose fetch fails, with their scope type, in
    the order [getBillingUsage] visits them. *)
Definition failingEntities (c : Client) (cfg : Target) : list (string * string) :=
  ((fun n => ("enterprise", n))
     <$> filter (fun n => fetchFails c "enterprise" n = true) (Enterprises cfg))
  ++ ((fun n => ("org", n))
        <$> filter (fun n => fetchFails c "org" n = true) (Orgs cfg)).

(** The configuration without the entities whose fetch fails. *)
Definition withoutFailing (c : Client) (cfg : Target) : Target :=
  {| Enterprises := filter (fun n => fetchFails c "enterprise" n = false) (Enterprises cfg);
     Orgs := filter (fun n => fetchFails c "org" n = false) (Orgs cfg);
     Repos := Repos cfg |}.

(** The composite of the five fields the specification lists for the
    deduplication key. *)
Definition keyFields (item : UsageItem) : string * string * string * string * string :=
  (Type_ item, Name item, Product item, SKU item, Date item).

(** The key of a composite of five fields. *)
Definition joinFields (fields : string * string * string * string * string) : string :=
  let '(type, name, product, sku, date) := fields in
  type +:+ "-" +:+ name +:+ "-" +:+ product +:+ "-" +:+ sku +:+ "-" +:+ date.

(** The items of [items] that are the first of their key, [before] being
    the items met earlier: an item is kept when no earlier item has its
    key. *)
Fixpoint firstOfKey (before items : list UsageItem) : list UsageItem :=
  match items with
  | [] => []
  | item :: rest =>
      (if bool_decide (dedupKey item ∈ dedupKey <$> before) then [] else [item])
      ++ firstOfKey (before ++ [item]) rest
  end.

(** Two items that agree on every key field but the date. *)
Definition sameButDate (x y : UsageItem) : Prop :=
  Type_ x = Type_ y ∧ Name x = Name y ∧ Product x = Product y ∧ SKU x = SKU y.

(** The usage items the client answers for an entity, none when the
    request or the call fails. *)
Definition responseItems (c : Client) (entityType name : string) : list UsageItem :=
  match NewRequest c "GET" (billingEndpoint entityType name) with
  | Err _ => []
  | Ok req => match Do c req with Err _ => [] | Ok response => UsageItems response end
  end.

(** The configured entities with their scope type, in the order
    [getBillingUsage] visits them. *)
Definition configuredEntities (cfg : Target) : list (string * string) :=
  ((fun n => ("enterprise", n)) <$> Enterprises cfg)
  ++ ((fun n => ("org", n)) <$> Orgs cfg).

(** The descriptor fields of the [BillingCollector] struct. *)
Module Fields.

Record BillingCollector : Type := {
  BillingUsage : Desc;
  BillingGrossAmount : Desc;
  BillingDiscountAmount : Desc;
  BillingNetAmount : Desc;
  BillingPricePerUnit : Desc;
}.

End Fields.

(** [NewBillingCollector]: when a failure counter is given, its child for
    the label "billing" is touched with [Add(0)]; the five descriptors share
    their eight labels.  The result is the counter as the constructor
    leaves it and the descriptor fields of the struct. *)
Definition NewBillingCollector (failures : option CounterVec)
    : option CounterVec * Fields.BillingCollector :=
  let failures := (fun vec => counterAdd vec "billing" 0) <$> failures in
  let labels := ["type"; "name"; "product"; "sku"; "unit_type"; "date";
                 "organization_name"; "repository_name"] in
  (failures,
   {| Fields.BillingUsage :=
        NewDesc "github_billing_usage"
          "Usage quantity from GitHub Enhanced Billing Platform" labels [];
      Fields.BillingGrossAmount :=
        NewDesc "github_billing_usage_gross_amount"
          "Gross amount charged for this usage item" labels [];
      Fields.BillingDiscountAmount :=
        NewDesc "github_billing_usage_discount_amount"
          "Discount amount applied to this usage item" labels [];
      Fields.BillingNetAmount :=
        NewDesc "github_billing_usage_net_amount"
          "Net amount charged for this usage item after discounts" labels [];
      Fields.BillingPricePerUnit :=
        NewDesc "github_billing_usage_price_per_unit"
          "Price per unit for this usage item" labels [] |}).

(** [Metrics] *)
Definition Metrics (c : Fields.BillingCollector) : list Desc :=
  [Fields.BillingUsage c; Fields.BillingGrossAmount c; Fields.BillingDiscountAmount c;
   Fields.BillingNetAmount c; Fields.BillingPricePerUnit c].

(** [Describe]: the descriptors sent on the channel, in order. *)
Definition Describe (c : Fields.BillingCollector) : list Desc :=
  [Fields.BillingUsage c; Fields.BillingGrossAmount c; Fields.BillingDiscountAmount c;
   Fields.BillingNetAmount c; Fields.BillingPricePerUnit c].

(** The label names of the descriptors with the fields of an item they
    stand for. *)
Definition itemLabelling (item : UsageItem) : list (string * string) :=
  [("type", Type_ item); ("name", Name item); ("product", Product item);
   ("sku", SKU item); ("unit_type", UnitType item); ("date", Date item);
   ("organization_name", OrganizationName item);
   ("repository_name", RepositoryName item)].

End V5.

(** ** Package [glob] *)

(** The runner collector filters repositories with [glob.Glob] of the
    imported package [github.com/ryanuber/go-glob], which is not part of
    the repository; the definitions below follow that package's [Glob]. *)
Module glob.

(** The character which is treated like a glob. *)
Definition GLOB : string := "*".

(** The loop of [Glob] over the parts but the last, then the last part.
    [first] tells the first iteration ([i == 0]) from the others. *)
Fixpoint globParts (first leadingGlob trailingGlob : bool)
    (parts : list string) (subj : string) : bool :=
  match parts with
  | [] => false
  | [last] => trailingGlob || strings.HasSuffix subj last
  | part :: rest =>
      let idx := strings.Index subj part in
      if (if first then negb leadingGlob && negb (idx =? 0) else idx <? 0)
      then false
      else globParts false leadingGlob trailingGlob rest
             (strings.sliceFrom (Z.to_nat (idx + Z.of_nat (String.length part))) subj)
  end.

(** [glob.Glob] *)
Definition Glob (pattern subj : string) : bool :=
  if String.eqb pattern "" then String.eqb subj pattern
  else if String.eqb pattern GLOB then true
  else
    let parts := strings.Split pattern "*" in
    if (length parts =? 1)%nat then String.eqb subj pattern
    else
      let leadingGlob := strings.HasPrefix pattern GLOB in
      let trailingGlob := strings.HasSuffix pattern GLOB in
      globParts true leadingGlob trailingGlob parts subj.

(** Anchored, case-sensitive wildcard matching, given declaratively: [*]
    stands for any run of bytes and, when [qmark] is set, [?] stands for
    any single byte.  With [qmark] set this is the glob semantics the
    specification words; without it, [*] is the only wildcard. *)
Fixpoint wildcardMatch (qmark : bool) (pattern subj : string) : bool :=
  match pattern with
  | EmptyString => match subj with EmptyString => true | String _ _ => false end
  | String p pattern' =>
      if Ascii.eqb p "*" then
        (fix anySuffix (s : string) : bool :=
           wildcardMatch qmark pattern' s ||
           match s with
           | EmptyString => false
           | String _ s' => anySuffix s'
           end) subj
      else
        match subj with
        | EmptyString => false
        | String c subj' =>
            ((qmark && Ascii.eqb p "?") || Ascii.eqb p c)
            && wildcardMatch qmark pattern' subj'
        end
  end.

(** A part holds no glob character. *)
Definition starFree (part : string) : Prop :=
  strings.allBytes (fun c => negb (Ascii.eqb c "*")) part = true.

(** The parts put back together with a glob character between them. *)
Fixpoint join (parts : list string) : string :=
  match parts with
  | [] => ""
  | part :: rest =>
      match rest with
      | [] => part
      | _ :: _ => part +:+ "*" +:+ join rest
      end
  end.

End glob.

(** ** The runner collector *)

Module Runner.

(** [github.Runner]; every field is a pointer. *)
Record Runner : Type := {
  ID : option Z;
  Name : option string;
  OS : option string;
  Status : option string;
  Busy : option bool;
}.

(** The getters of [github.Runner] return the zero value for [nil]. *)
Definition GetID (r : Runner) : Z := default 0 (ID r).
Definition GetName (r : Runner) : string := default "" (Name r).
Definition GetOS (r : Runner) : string := default "" (OS r).
Definition GetStatus (r : Runner) : string := default "" (Status r).

Record User : Type := {
  Login : option string;
}.

(** The fields of [github.Repository] the collector reads. *)
Record Repository : Type := {
  FullName : option string;
  Owner : option User;
  RepoName : option string;
}.

Record ListOptions : Type := {
  Page : Z;
  PerPage : Z;
}.

(** [github.Response], of which the fetchers read [NextPage]. *)
Record Response : Type := {
  NextPage : Z;
}.

(** The calls the collector makes.  [reposByOwnerAndName] is a helper of
    the package that is not among the sources; it lists the repositories of
    an owner through the API and is taken as part of the client. *)
Record Client : Type := {
  reposByOwnerAndName : string -> string -> result (list Repository);
  ListRunners : string -> string -> ListOptions -> result (list Runner * Response);
  EnterpriseListRunners : string -> ListOptions -> result (list Runner * Response);
  ListOrganizationRunners : string -> ListOptions -> result (list Runner * Response);
}.

(** The [for] loop shared by [pagedRepoRunners], [pagedEnterpriseRunners]
    and [pagedOrgRunners]: [call] is the bound API call, [fuel] bounds the
    number of pages requested.  The result is the Go pair
    [(runners, err)]. *)
Fixpoint pagedLoop (fuel : nat)
    (call : ListOptions -> result (list Runner * Response))
    (opts : ListOptions) (runners : list Runner)
    : Outcome (list Runner * option GoError) :=
  match fuel with
  | O => Unfinished
  | S fuel' =>
      match call opts with
      | Err err => Returned ([], Some err)
      | Ok (result, resp) =>
          let runners := runners ++ result in
          if NextPage resp =? 0 then Returned (runners, None)
          else pagedLoop fuel' call
                 {| Page := NextPage resp; PerPage := PerPage opts |} runners
      end
  end.

Definition pagedRepoRunners (fuel : nat) (c : Client) (owner name : string)
    : Go (list Runner * option GoError) :=
  ([], pagedLoop fuel (ListRunners c owner name) {| Page := 0; PerPage := 200 |} []).

Definition pagedEnterpriseRunners (fuel : nat) (c : Client) (name : string)
    : Go (list Runner * option GoError) :=
  ([], pagedLoop fuel (EnterpriseListRunners c name) {| Page := 0; PerPage := 50 |} []).

Definition pagedOrgRunners (fuel : nat) (c : Client) (name : string)
    : Go (list Runner * option GoError) :=
  ([], pagedLoop fuel (ListOrganizationRunners c name) {| Page := 0; PerPage := 50 |} []).

(** [*p]: dereferencing [nil] panics. *)
Definition deref {A : Type} (p : option A) : Go A :=
  match p with
  | Some a => mret a
  | None => panic
  end.

(** The body of the inner loop of [repoRunners], over the repositories of
    one configured name. *)
Definition repoRunnersRepo (fuel : nat) (c : Client) (name : string)
    (result : list Runner) (repo : Repository) : Go (list Runner) :=
  fullName ← deref (FullName repo);
  if negb (glob.Glob name fullName) then mret result
  else
    owner ← deref (Owner repo);
    login ← deref (Login owner);
    repoName ← deref (RepoName repo);
    r ← pagedRepoRunners fuel c login repoName;
    match r.2 with
    | Some err =>
        logError "Failed to fetch repo runners"
          [("name", VString name); ("err", VError err)];;
        failuresInc "runner";;
        mret result
    | None => mret (result ++ r.1)
    end.

(** The body of the outer loop of [repoRunners], over the configured
    names. *)
Definition repoRunnersName (fuel : nat) (c : Client)
    (result : list Runner) (name : string) : Go (list Runner) :=
  let n := strings.Split name "/" in
  match n with
  | [splitOwner; splitName] =>
      match reposByOwnerAndName c splitOwner splitName with
      | Err err =>
          logError "Failed to fetch repos"
            [("name", VString name); ("err", VError err)];;
          failuresInc "runner";;
          mret result
      | Ok repos => forRange (repoRunnersRepo fuel c name) repos result
      end
  | _ =>
      logError "Invalid repo name" [("name", VString name)];;
      failuresInc "runner";;
      mret result
  end.

(** [repoRunners] *)
Definition repoRunners (fuel : nat) (c : Client) (cfg : Target) : Go (list Runner) :=
  forRange (repoRunnersName fuel c) (Repos cfg) [].

(** [enterpriseRunners] *)
Definition enterpriseRunners (fuel : nat) (c : Client) (cfg : Target) : Go (list Runner) :=
  forRange
    (fun result name =>
       r ← pagedEnterpriseRunners fuel c name;
       match r.2 with
       | Some err =>
           logError "Failed to fetch enterprise runners"
             [("name", VString name); ("err", VError err)];;
           failuresInc "runner";;
           mret result
       | None => mret (result ++ r.1)
       end)
    (Enterprises cfg) [].

(** [orgRunners] *)
Definition orgRunners (fuel : nat) (c : Client) (cfg : Target) : Go (list Runner) :=
  forRange
    (fun result name =>
       r ← pagedOrgRunners fuel c name;
       match r.2 with
       | Some err =>
           logError "Failed to fetch org runners"
             [("name", VString name); ("err", VError err)];;
           failuresInc "runner";;
           mret result
       | None => mret (result ++ r.1)
       end)
    (Orgs cfg) [].

(** Modelled from the spec: the helper [boolToFloat64] is declared in a
    file of the package that is not among the sources; the busy gauge is
    described as 1 if the runner is busy and 0 otherwise. *)
Definition boolToFloat64 (b : bool) : float := if b then 1%float else 0%float.

(** [strconv.FormatInt(n, 10)] *)
Definition FormatInt (n : Z) : string :=
  DecimalString.NilZero.string_of_int (Z.to_int n).

Definition RepoOnline : string := "github_runner_repo_online".
Definition RepoBusy : string := "github_runner_repo_busy".
Definition EnterpriseOnline : string := "github_runner_enterprise_online".
Definition EnterpriseBusy : string := "github_runner_enterprise_busy".
Definition OrgOnline : string := "github_runner_org_online".
Definition OrgBusy : string := "github_runner_org_busy".

(** The body of each of the three loops of [Collect] over the records of a
    scope, which differ in the owner label and the two descriptors. *)
Definition collectRecord (owner onlineDesc busyDesc : string)
    (_ : unit) (record : Runner) : Go unit :=
  let labels :=
    [owner; FormatInt (GetID record); GetName record; GetOS record; GetStatus record] in
  let online := if String.eqb (GetStatus record) "online" then 1%float else 0%float in
  send (MustNewConstMetric onlineDesc online labels);;
  busy ← deref (Busy record);
  send (MustNewConstMetric busyDesc (boolToFloat64 busy) labels).

(** One of the three blocks of [Collect]: fetch the records of a scope,
    observe the duration, send the two samples of every record. *)
Definition collectBlock (get : Go (list Runner)) (owner onlineDesc busyDesc : string)
    : Go unit :=
  records ← get;
  durationObserve "runner";;
  forRange (collectRecord owner onlineDesc busyDesc) records tt.

(** [RunnerCollector.Collect] *)
Definition Collect (fuel : nat) (c : Client) (cfg : Target) : Go unit :=
  collectBlock (repoRunners fuel c cfg) "TODO: repo" RepoOnline RepoBusy;;
  collectBlock (enterpriseRunners fuel c cfg) "TODO: enterprise" EnterpriseOnline EnterpriseBusy;;
  collectBlock (orgRunners fuel c cfg) "TODO: org" OrgOnline OrgBusy.

(** The label values of the samples of a record. *)
Definition recordLabels (owner : string) (record : Runner) : list string :=
  [owner; FormatInt (GetID record); GetName record; GetOS record; GetStatus record].

(** The samples sent for a record: the online gauge, then the busy gauge
    when the record has a busy flag. *)
Definition recordSamples (owner onlineDesc busyDesc : string) (record : Runner)
    : list Metric :=
  MustNewConstMetric onlineDesc
    (if String.eqb (GetStatus record) "online" then 1%float else 0%float)
    (recordLabels owner record)
  :: match Busy record with
     | Some busy => [MustNewConstMetric busyDesc (boolToFloat64 busy) (recordLabels owner record)]
     | None => []
     end.

(** A repository whose full name matches the configured name with [*] as
    the only wildcard. *)
Definition matchesName (name : string) (repo : Repository) : bool :=
  match FullName repo with
  | Some fullName => glob.wildcardMatch false name fullName
  | None => false
  end.

(** A repository whose full name starts with [prefix]. *)
Definition startsWith (prefix : string) (repo : Repository) : bool :=
  match FullName repo with
  | Some fullName => strings.HasPrefix fullName prefix
  | None => false
  end.

(** The deduplication key the specification names for runners, read off a
    sample: the scope (its owner label) and the runner id. *)
Definition runnerKey (m : Metric) : string * string :=
  (default "" (metricLabels m !! 0%nat), default "" (metricLabels m !! 1%nat)).

(** At most one sample per metric family and runner key. *)
Definition onePerKey (ms : list Metric) : Prop :=
  NoDup ((fun m => (metricName m, runnerKey m)) <$> ms).

(** [call] serves the pages [pages] from page [page] on: every page but the
    last announces a next page, the last one announces none. *)
Inductive servesPages (call : ListOptions -> result (list Runner * Response))
    (perPage : Z) : Z -> list (list Runner) -> Prop :=
| serves_last (page : Z) (records : list Runner) :
    call {| Page := page; PerPage := perPage |} = Ok (records, {| NextPage := 0 |}) ->
    servesPages call perPage page [records]
| serves_next (page next : Z) (records : list Runner) (pages : list (list Runner)) :
    next ≠ 0 ->
    call {| Page := page; PerPage := perPage |} = Ok (records, {| NextPage := next |}) ->
    servesPages call perPage next pages ->
    servesPages call perPage page (records :: pages).

(** [call] serves the pages [pages] from page [page] on, each announcing a
    next page, and answers the request after them with the error [err]. *)
Inductive failsAfter (call : ListOptions -> result (list Runner * Response))
    (perPage : Z) : Z -> list (list Runner) -> GoError -> Prop :=
| fails_here (page : Z) (err : GoError) :
    call {| Page := page; PerPage := perPage |} = Err err ->
    failsAfter call perPage page [] err
| fails_later (page next : Z) (records : list Runner) (pages : list (list Runner))
    (err : GoError) :
    next ≠ 0 ->
    call {| Page := page; PerPage := perPage |} = Ok (records, {| NextPage := next |}) ->
    failsAfter call perPage next pages err ->
    failsAfter call perPage page (records :: pages) err.

(** What the pair a paged fetcher returned says of the server, when the
    fetcher was allowed [bound] requests: without error, the server served
    the pages whose records were returned; with an error, it served some
    pages and failed the next request, and no record was returned. *)
Definition explains (call : ListOptions -> result (list Runner * Response))
    (perPage : Z) (bound : nat) (r : list Runner * option GoError) : Prop :=
  match r.2 with
  | None =>
      ∃ pages, servesPages call perPage 0 pages ∧ r.1 = concat pages
               ∧ (length pages <= bound)%nat
  | Some err =>
      r.1 = [] ∧ ∃ pages, failsAfter call perPage 0 pages err ∧ (length pages < bound)%nat
  end.

(** A paged fetch that ended with an error. *)
Definition pagedFails (m : Go (list Runner * option GoError)) : bool :=
  match outcome m with
  | Returned (_, Some _) => true
  | _ => false
  end.

(** A paged fetch that is over within the bound on its requests. *)
Definition finishes (m : Go (list Runner * option GoError)) : Prop :=
  ∃ r, outcome m = Returned r.

(** A listed repository all of whose pointers the collector dereferences
    are set. *)
Definition wellFormed (repo : Repository) : Prop :=
  is_Some (FullName repo)
  ∧ (∃ owner, Owner repo = Some owner ∧ is_Some (Login owner))
  ∧ is_Some (RepoName repo).

(** The paged fetch [repoRunners] makes for a listed repository that
    matches the configured name, by the login of its owner and its name. *)
Definition repoFetch (fuel : nat) (c : Client) (repo : Repository)
    : Go (list Runner * option GoError) :=
  pagedRepoRunners fuel c (default "" (Owner repo ≫= Login)) (default "" (RepoName repo)).

(** The repositories the client lists for a configured name: those of the
    owner and name the name splits into; none for an invalid name or when
    the listing fails. *)
Definition listedRepos (c : Client) (name : string) : list Repository :=
  match strings.Split name "/" with
  | [splitOwner; splitName] =>
      match reposByOwnerAndName c splitOwner splitName with
      | Ok repos => repos
      | Err _ => []
      end
  | _ => []
  end.

(** The repositories whose runners [repoRunners] fetches for a configured
    name: those the client lists for the two parts of the name that match
    the name; none for an invalid name or when the listing fails. *)
Definition selectedRepos (c : Client) (name : string) : list Repository :=
  match strings.Split name "/" with
  | [splitOwner; splitName] =>
      match reposByOwnerAndName c splitOwner splitName with
      | Ok repos => filter (fun repo => matchesName name repo = true) repos
      | Err _ => []
      end
  | _ => []
  end.

(** A configured name that is invalid, or whose repositories the client
    fails to list. *)
Definition nameFails (c : Client) (name : string) : bool :=
  match strings.Split name "/" with
  | [splitOwner; splitName] =>
      match reposByOwnerAndName c splitOwner splitName with
      | Ok _ => false
      | Err _ => true
      end
  | _ => true
  end.

(** The failures [repoRunners] counts for a configured name: one for the
    name itself, or one for each selected repository whose paged fetch ends
    with an error. *)
Definition repoFailures (fuel : nat) (c : Client) (name : string) : nat :=
  if nameFails c name then 1%nat
  else length (filter (fun repo => pagedFails (repoFetch fuel c repo) = true)
                 (selectedRepos c name)).

(** The runners it gathers for a configured name: those of the selected
    repositories whose paged fetch ends without error. *)
Definition repoGathered (fuel : nat) (c : Client) (name : string) : list Runner :=
  concat ((fun repo => (returned ([], None) (repoFetch fuel c repo)).1)
            <$> filter (fun repo => pagedFails (repoFetch fuel c repo) = false)
                  (selectedRepos c name)).

(** The descriptor fields of the [RunnerCollector] struct. *)
Module Fields.

Record RunnerCollector : Type := {
  RepoOnline : Desc;
  RepoBusy : Desc;
  EnterpriseOnline : Desc;
  EnterpriseBusy : Desc;
  OrgOnline : Desc;
  OrgBusy : Desc;
}.

End Fields.

(** [NewRunnerCollector]: when a failure counter is given, its child for
    the label "runner" is touched with [Add(0)]; the six descriptors share
    their five labels.  The result is the counter as the constructor
    leaves it and the descriptor fields of the struct. *)
Definition NewRunnerCollector (failures : option CounterVec)
    : option CounterVec * Fields.RunnerCollector :=
  let failures := (fun vec => counterAdd vec "runner" 0) <$> failures in
  let labels := ["owner"; "id"; "name"; "os"; "status"] in
  (failures,
   {| Fields.RepoOnline :=
        NewDesc "github_runner_repo_online"
          "Static metrics of runner is online or not" labels [];
      Fields.RepoBusy :=
        NewDesc "github_runner_repo_busy"
          "1 if the runner is busy, 0 otherwise" labels [];
      Fields.EnterpriseOnline :=
        NewDesc "github_runner_enterprise_online"
          "Static metrics of runner is online or not" labels [];
      Fields.EnterpriseBusy :=
        NewDesc "github_runner_enterprise_busy"
          "1 if the runner is busy, 0 otherwise" labels [];
      Fields.OrgOnline :=
        NewDesc "github_runner_org_online"
          "Static metrics of runner is online or not" labels [];
      Fields.OrgBusy :=
        NewDesc "github_runner_org_busy"
          "1 if the runner is busy, 0 otherwise" labels [] |}).

(** [Metrics] *)
Definition Metrics (c : Fields.RunnerCollector) : list Desc :=
  [Fields.RepoOnline c; Fields.RepoBusy c; Fields.EnterpriseOnline c;
   Fields.EnterpriseBusy c; Fields.OrgOnline c; Fields.OrgBusy c].

(** [Describe]: the descriptors sent on the channel, in order. *)
Definition Describe (c : Fields.RunnerCollector) : list Desc :=
  [Fields.RepoOnline c; Fields.RepoBusy c; Fields.EnterpriseOnline c;
   Fields.EnterpriseBusy c; Fields.OrgOnline c; Fields.OrgBusy c].

(** The label names of the descriptors with what [Collect] puts under
    them for a record. *)
Definition recordLabelling (owner : string) (record : Runner) : list (string * string) :=
  [("owner", owner); ("id", FormatInt (GetID record)); ("name", GetName record);
   ("os", GetOS record); ("status", GetStatus record)].

(** The scope of a descriptor, as its name tells it. *)
Definition scopeOwner (d : Desc) : string :=
  if String.eqb (fqName d) RepoOnline || String.eqb (fqName d) RepoBusy
  then "TODO: repo"
  else if String.eqb (fqName d) EnterpriseOnline || String.eqb (fqName d) EnterpriseBusy
  then "TODO: enterprise"
  else "TODO: org".

(** The descriptors of the online gauges. *)
Definition isOnlineDesc (d : Desc) : bool :=
  String.eqb (fqName d) RepoOnline || String.eqb (fqName d) EnterpriseOnline
  || String.eqb (fqName d) OrgOnline.

(** The records [Collect] works on under a descriptor: those the fetcher
    of the scope of the descriptor returns. *)
Definition scopeRecords (fuel : nat) (c : Client) (cfg : Target) (d : Desc) : list Runner :=
  if String.eqb (fqName d) RepoOnline || String.eqb (fqName d) RepoBusy
  then returned [] (repoRunners fuel c cfg)
  else if String.eqb (fqName d) EnterpriseOnline || String.eqb (fqName d) EnterpriseBusy
  then returned [] (enterpriseRunners fuel c cfg)
  else returned [] (orgRunners fuel c cfg).

(** A sample of a runner record under one of the descriptors of the
    collector, [records] giving the records of a descriptor: the record is
    one of those of the descriptor; the labels hold, in this order, the
    owner text of the scope and the id, name, operating system and status
    of the record; the value of an online gauge is 1 for the status
    "online" and 0 for any other, and the value of a busy gauge is that of
    the busy flag, which the record has. *)
Definition sampleOf (collector : Fields.RunnerCollector) (records : Desc -> list Runner)
    (m : Metric) : Prop :=
  ∃ (d : Desc) (record : Runner),
    d ∈ Describe collector ∧ describedBy d m
    ∧ record ∈ records d
    ∧ labelled d m = recordLabelling (scopeOwner d) record
    ∧ (if isOnlineDesc d
       then metricValue m
            = (if String.eqb (GetStatus record) "online" then 1%float else 0%float)
       else ∃ busy : bool, Busy record = Some busy ∧ metricValue m = boolToFloat64 busy).

End Runner.

(** ** Concrete inputs *)

(** The record of the unit-type comparison: its product is "actions" and
    its unit type is "Minutes". *)
Definition capitalMinutesItem : Legacy.UsageItem :=
  {| Legacy.Date := "2024-01-01"; Legacy.Product := "actions";
     Legacy.SKU := "Actions Linux"; Legacy.Quantity := 10;
     Legacy.UnitType := "Minutes"; Legacy.PricePerUnit := 0;
     Legacy.GrossAmount := 10; Legacy.DiscountAmount := 2; Legacy.NetAmount := 8;
     Legacy.OrganizationName := "acme"; Legacy.RepositoryName := "repo" |}.

(** The packages record of the specification's byte conversion example. *)
Definition oneGigabyteItem : Legacy.UsageItem :=
  {| Legacy.Date := "2024-01-01"; Legacy.Product := "packages";
     Legacy.SKU := "packages_bandwidth"; Legacy.Quantity := 1073741824;
     Legacy.UnitType := "bytes"; Legacy.PricePerUnit := 0;
     Legacy.GrossAmount := 0; Legacy.DiscountAmount := 0; Legacy.NetAmount := 0;
     Legacy.OrganizationName := "acme"; Legacy.RepositoryName := "repo" |}.

(** Two usage items of one organization whose five key fields differ
    (product and SKU) while the hyphen-joined keys coincide. *)
Definition hyphenItemA : V5.UsageItem :=
  {| V5.Date := "2024-01-01"; V5.Product := "actions"; V5.SKU := "linux-arm";
     V5.Quantity := 10; V5.UnitType := "minutes"; V5.PricePerUnit := 1;
     V5.GrossAmount := 10; V5.DiscountAmount := 0; V5.NetAmount := 10;
     V5.OrganizationName := "acme"; V5.RepositoryName := "one";
     V5.Type_ := ""; V5.Name := "" |}.

Definition hyphenItemB : V5.UsageItem :=
  {| V5.Date := "2024-01-01"; V5.Product := "actions-linux"; V5.SKU := "arm";
     V5.Quantity := 20; V5.UnitType := "minutes"; V5.PricePerUnit := 2;
     V5.GrossAmount := 40; V5.DiscountAmount := 0; V5.NetAmount := 40;
     V5.OrganizationName := "acme"; V5.RepositoryName := "two";
     V5.Type_ := ""; V5.Name := "" |}.

(** A client whose usage endpoint answers with those two items. *)
Definition hyphenClient : V5.Client :=
  {| V5.NewRequest := fun method url => Ok {| reqMethod := method; reqURL := url |};
     V5.Do := fun _ => Ok {| V5.UsageItems := [hyphenItemA; hyphenItemB] |} |}.

Definition oneOrg : Target :=
  {| Enterprises := []; Orgs := ["acme"]; Repos := [] |}.

(** An enterprise and an organization of the same name, and a client that
    answers every usage request with ten Linux minutes. *)
Definition sameName : Target :=
  {| Enterprises := ["acme"]; Orgs := ["acme"]; Repos := [] |}.

Definition tenLinuxMinutes : Legacy.UsageItem :=
  {| Legacy.Date := "2024-01-01"; Legacy.Product := "actions";
     Legacy.SKU := "actions_linux"; Legacy.Quantity := 10;
     Legacy.UnitType := "minutes"; Legacy.PricePerUnit := 0;
     Legacy.GrossAmount := 10; Legacy.DiscountAmount := 2; Legacy.NetAmount := 8;
     Legacy.OrganizationName := "acme"; Legacy.RepositoryName := "repo" |}.

Definition answeringClient : Legacy.Client :=
  {| Legacy.NewRequest := fun method url => Ok {| reqMethod := method; reqURL := url |};
     Legacy.Do := fun _ => Ok {| Legacy.UsageItems := [tenLinuxMinutes] |} |}.

(** A client that answers every usage request with ten Linux minutes and
    five Windows minutes, so that the breakdown of a bill has two entries. *)
Definition fiveWindowsMinutes : Legacy.UsageItem :=
  {| Legacy.Date := "2024-01-01"; Legacy.Product := "actions";
     Legacy.SKU := "actions_windows"; Legacy.Quantity := 5;
     Legacy.UnitType := "minutes"; Legacy.PricePerUnit := 0;
     Legacy.GrossAmount := 5; Legacy.DiscountAmount := 1; Legacy.NetAmount := 4;
     Legacy.OrganizationName := "acme"; Legacy.RepositoryName := "repo" |}.

Definition mixedClient : Legacy.Client :=
  {| Legacy.NewRequest := fun method url => Ok {| reqMethod := method; reqURL := url |};
     Legacy.Do := fun _ => Ok {| Legacy.UsageItems := [tenLinuxMinutes; fiveWindowsMinutes] |} |}.

(** A client that fails the usage request of the organization "broken" and
    answers every other one with ten Linux minutes, and a configuration
    with that organization and another one. *)
Definition brokenOrgClient : Legacy.Client :=
  {| Legacy.NewRequest := fun method url => Ok {| reqMethod := method; reqURL := url |};
     Legacy.Do := fun req =>
       if String.eqb (reqURL req) (Legacy.orgEndpoint "broken") then Err "boom"
       else Ok {| Legacy.UsageItems := [tenLinuxMinutes] |} |}.

Definition brokenAndAcme : Target :=
  {| Enterprises := []; Orgs := ["broken"; "acme"]; Repos := [] |}.

(** Runners numbered [first], [first + 1], ... : a page of [n] records. *)
Definition runnersFrom (first : Z) (n : nat) : list Runner.Runner :=
  (fun i => {| Runner.ID := Some i; Runner.Name := Some "runner";
               Runner.OS := Some "linux"; Runner.Status := Some "online";
               Runner.Busy := Some false |}) <$> seqZ first (Z.of_nat n).

(** The mock of the specification: three pages of 200, 200 and 50 records,
    announcing the pages 2, 3 and none. *)
Definition threePages (opts : Runner.ListOptions)
    : result (list Runner.Runner * Runner.Response) :=
  if Runner.Page opts =? 0 then Ok (runnersFrom 1 200, {| Runner.NextPage := 2 |})
  else if Runner.Page opts =? 2 then Ok (runnersFrom 201 200, {| Runner.NextPage := 3 |})
  else if Runner.Page opts =? 3 then Ok (runnersFrom 401 50, {| Runner.NextPage := 0 |})
  else Err "no such page".

(** The same mock with an error for page 2. *)
Definition secondPageFails (opts : Runner.ListOptions)
    : result (list Runner.Runner * Runner.Response) :=
  if Runner.Page opts =? 2 then Err "page 2 failed" else threePages opts.

Definition noRunners (opts : Runner.ListOptions)
    : result (list Runner.Runner * Runner.Response) :=
  Ok ([], {| Runner.NextPage := 0 |}).

Definition pagedClient (call : Runner.ListOptions -> result (list Runner.Runner * Runner.Response))
    : Runner.Client :=
  {| Runner.reposByOwnerAndName := fun _ _ => Ok [];
     Runner.ListRunners := fun _ _ => call;
     Runner.EnterpriseListRunners := fun _ => call;
     Runner.ListOrganizationRunners := fun _ => call |}.

(** The repository acme/web with one self-hosted runner, configured both
    by its name and by a pattern that matches it. *)
Definition webRepo : Runner.Repository :=
  {| Runner.FullName := Some "acme/web";
     Runner.Owner := Some {| Runner.Login := Some "acme" |};
     Runner.RepoName := Some "web" |}.

Definition webRunner : Runner.Runner :=
  {| Runner.ID := Some 7; Runner.Name := Some "builder"; Runner.OS := Some "linux";
     Runner.Status := Some "online"; Runner.Busy := Some true |}.

Definition webClient : Runner.Client :=
  {| Runner.reposByOwnerAndName := fun _ _ => Ok [webRepo];
     Runner.ListRunners := fun _ _ _ => Ok ([webRunner], {| Runner.NextPage := 0 |});
     Runner.EnterpriseListRunners := fun _ => noRunners;
     Runner.ListOrganizationRunners := fun _ => noRunners |}.

Definition webTwice : Target :=
  {| Enterprises := []; Orgs := []; Repos := ["acme/web"; "acme/*"] |}.

(** An organization whose only runner has no busy flag. *)
Definition idleRunner : Runner.Runner :=
  {| Runner.ID := Some 9; Runner.Name := Some "spare"; Runner.OS := Some "linux";
     Runner.Status := Some "offline"; Runner.Busy := None |}.

Definition idleClient : Runner.Client :=
  {| Runner.reposByOwnerAndName := fun _ _ => Ok [];
     Runner.ListRunners := fun _ _ => noRunners;
     Runner.EnterpriseListRunners := fun _ => noRunners;
     Runner.ListOrganizationRunners :=
       fun _ _ => Ok ([idleRunner], {| Runner.NextPage := 0 |}) |}.

Definition acmeOrg : Target :=
  {| Enterprises := []; Orgs := ["acme"]; Repos := [] |}.

(** The repository acme/web configured through a pattern with a question
    mark, and by its exact name. *)
Definition webByQuestionMark : Target :=
  {| Enterprises := []; Orgs := []; Repos := ["acme/we?"] |}.

Definition webByName : Target :=
  {| Enterprises := []; Orgs := []; Repos := ["acme/web"] |}.

(** A second repository of the same owner, acme/api, with a runner of its
    own, and a client that lists both repositories. *)
Definition apiRepo : Runner.Repository :=
  {| Runner.FullName := Some "acme/api";
     Runner.Owner := Some {| Runner.Login := Some "acme" |};
     Runner.RepoName := Some "api" |}.

Definition apiRunner : Runner.Runner :=
  {| Runner.ID := Some 8; Runner.Name := Some "tester"; Runner.OS := Some "windows";
     Runner.Status := Some "offline"; Runner.Busy := Some false |}.

Definition twoReposClient : Runner.Client :=
  {| Runner.reposByOwnerAndName := fun _ _ => Ok [webRepo; apiRepo];
     Runner.ListRunners := fun _ name _ =>
       if String.eqb name "web" then Ok ([webRunner], {| Runner.NextPage := 0 |})
       else Ok ([apiRunner], {| Runner.NextPage := 0 |});
     Runner.EnterpriseListRunners := fun _ => noRunners;
     Runner.ListOrganizationRunners := fun _ => noRunners |}.

Definition webBySuffix : Target :=
  {| Enterprises := []; Orgs := []; Repos := ["acme/*b"] |}.

(** A listed repository whose full name is not set. *)
Definition namelessRepo : Runner.Repository :=
  {| Runner.FullName := None;
     Runner.Owner := Some {| Runner.Login := Some "acme" |};
     Runner.RepoName := Some "web" |}.

(** A client that lists acme/web and fails every request for runners, and
    a configuration with that repository and a name without slash. *)
Definition brokenRunnersClient : Runner.Client :=
  {| Runner.reposByOwnerAndName := fun _ _ => Ok [webRepo];
     Runner.ListRunners := fun _ _ _ => Err "boom";
     Runner.EnterpriseListRunners := fun _ => noRunners;
     Runner.ListOrganizationRunners := fun _ => noRunners |}.

Definition webAndNonsense : Target :=
  {| Enterprises := []; Orgs := []; Repos := ["acme/web"; "nonsense"] |}.

(** An enterprise and an organization of different names. *)
Definition distinctNames : Target :=
  {| Enterprises := ["acme"]; Orgs := ["widgets"]; Repos := [] |}.

(** * Properties *)

(** ** The computation monad *)

Lemma Go_bind_trace {A B : Type} (m : Go A) (k : A -> Go B) :
  trace (m ≫= k) =
  match outcome m with
  | Returned a => trace m ++ trace (k a)
  | _ => trace m
  end.
Proof.
  destruct m as [t [a| |]]; cbn; try reflexivity.
  destruct (k a); reflexivity.
Qed.

Lemma Go_bind_outcome {A B : Type} (m : Go A) (k : A -> Go B) :
  outcome (m ≫= k) =
  match outcome m with
  | Returned a => outcome (k a)
  | Panicked => Panicked
  | Unfinished => Unfinished
  end.
Proof.
  destruct m as [t [a| |]]; cbn; try reflexivity.
  destruct (k a); reflexivity.
Qed.


Lemma Go_bind_returned {A B : Type} (t : list Event) (a : A) (k : A -> Go B) :
  ((t, Returned a) : Go A) ≫= k = (t ++ trace (k a), outcome (k a)).
Proof. cbn. destruct (k a); reflexivity. Qed.


(** ** The legacy usage normalizer *)

Section LegacyNormalizer.
Context `{GoRuntime}.
Import Legacy.

Lemma parseUsageResponse_foldl (items : list UsageItem) (billingType name : string) :
  parseUsageResponse (Some {| UsageItems := items |}) billingType name
  = foldl parseItem (emptyBills billingType name) items.
Proof. unfold parseUsageResponse; cbn. by destruct items. Qed.

Lemma parseUsageResponse_snoc (items : list UsageItem) (item : UsageItem)
    (billingType name : string) :
  parseUsageResponse (Some {| UsageItems := items ++ [item] |}) billingType name
  = parseItem (parseUsageResponse (Some {| UsageItems := items |}) billingType name) item.
Proof. by rewrite !parseUsageResponse_foldl, foldl_app. Qed.

(** An item of the bucket is added to the action bill field by field.*)
Lemma parseItem_in_bucket (bills : actionBilling * packageBilling * storageBilling)
    (item : UsageItem) :
  actionsBucket item ->
  (parseItem bills item).1.1 =
  {| aType := aType bills.1.1;
     aName := aName bills.1.1;
     TotalMinutesUsed := (TotalMinutesUsed bills.1.1 + Quantity item)%float;
     TotalPaidMinutesUsed := (TotalPaidMinutesUsed bills.1.1 + NetAmount item)%float;
     IncludedMinutes := (IncludedMinutes bills.1.1 + DiscountAmount item)%float;
     MinutesUsedBreakdown := accumulateBreakdown (MinutesUsedBreakdown bills.1.1) item |}.
Proof.
  intros [Hp Hu]. destruct bills as [[a p] s].
  unfold parseItem. rewrite Hp, Hu. reflexivity.
Qed.

(** Any other item leaves the action bill as it is. *)
Lemma parseItem_not_in_bucket (bills : actionBilling * packageBilling * storageBilling)
    (item : UsageItem) :
  ¬ actionsBucket item -> (parseItem bills item).1.1 = bills.1.1.
Proof.
  intros Hn. destruct bills as [[a p] s]. unfold parseItem.
  destruct (String.eqb_spec (strings.ToLower (Product item)) "actions") as [Hp|Hp].
  - destruct (String.eqb_spec (strings.ToLower (UnitType item)) "minutes") as [Hu|Hu].
    + destruct Hn. by split.
    + reflexivity.
  - repeat (match goal with |- context [if ?b then _ else _] => destruct b end);
      reflexivity.
Qed.

Lemma foldl_parseItem_actions (items : list UsageItem)
    (bills : actionBilling * packageBilling * storageBilling) :
  let a := (foldl parseItem bills items).1.1 in
  let rs := filter actionsBucket items in
  aType a = aType bills.1.1 ∧ aName a = aName bills.1.1 ∧
  TotalMinutesUsed a = accumulate (TotalMinutesUsed bills.1.1) (Quantity <$> rs) ∧
  TotalPaidMinutesUsed a = accumulate (TotalPaidMinutesUsed bills.1.1) (NetAmount <$> rs) ∧
  IncludedMinutes a = accumulate (IncludedMinutes bills.1.1) (DiscountAmount <$> rs) ∧
  MinutesUsedBreakdown a = foldl accumulateBreakdown (MinutesUsedBreakdown bills.1.1) rs.
Proof.
  revert bills; induction items as [|item items IH]; intros bills; [done|].
  cbn [foldl]. specialize (IH (parseItem bills item)). cbn zeta in IH |- *.
  destruct IH as (-> & -> & -> & -> & -> & ->).
  rewrite filter_cons. destruct (decide (actionsBucket item)) as [Hin|Hout].
  - rewrite (parseItem_in_bucket _ _ Hin). done.
  - rewrite (parseItem_not_in_bucket _ _ Hout). done.
Qed.

Lemma extractOSFromSKU_cases (sku : string) :
  let skuLower := strings.ToLower sku in
  (strings.Contains skuLower "linux" = true -> extractOSFromSKU sku = "UBUNTU") ∧
  (strings.Contains skuLower "linux" = false ->
   strings.Contains skuLower "windows" = true -> extractOSFromSKU sku = "WINDOWS") ∧
  (strings.Contains skuLower "linux" = false ->
   strings.Contains skuLower "windows" = false ->
   strings.Contains skuLower "macos" = true ∨ strings.Contains skuLower "mac" = true ->
   extractOSFromSKU sku = "MACOS") ∧
  (strings.Contains skuLower "linux" = false ->
   strings.Contains skuLower "windows" = false ->
   strings.Contains skuLower "macos" = false ->
   strings.Contains skuLower "mac" = false ->
   extractOSFromSKU sku = "").
Proof.
  cbn zeta. unfold extractOSFromSKU.
  repeat split; intros; repeat match goal with H : _ = _ |- _ => rewrite H end;
    try reflexivity.
  destruct H2 as [-> | ->]; [reflexivity | by rewrite orb_true_r].
Qed.

End LegacyNormalizer.

Section LegacyBuckets.
Context `{GoRuntime}.
Import Legacy.

Lemma accumulateBreakdown_cases (m : gmap string Z) (item : UsageItem) :
  (extractOSFromSKU (SKU item) = "" -> accumulateBreakdown m item = m) ∧
  (extractOSFromSKU (SKU item) ≠ "" ->
   accumulateBreakdown m item
   = addTo m (extractOSFromSKU (SKU item)) (intOfFloat (Quantity item))).
Proof.
  unfold accumulateBreakdown; cbn zeta.
  destruct (String.eqb_spec (extractOSFromSKU (SKU item)) ""); split; congruence.
Qed.

(** C5, as amended: for every batch the legacy normalizer adds to the
    action bill exactly the records whose product is "actions" and whose
    unit type is "minutes", both compared ignoring case, in batch order:
    the quantity goes to the minutes total, the net amount to the paid
    total, the discount amount to the included total; the operating system
    of the breakdown is found by substring match on the lower-cased SKU
    (linux, then windows, then macos or mac), and a SKU that matches none
    adds no breakdown entry.  The single item of the specification's
    example yields 10, 8, 2 and the breakdown UBUNTU = 10. *)
Theorem legacy_actions_bucket (items : list UsageItem) (billingType name : string) :
  let a := (parseUsageResponse (Some {| UsageItems := items |}) billingType name).1.1 in
  let rs := filter actionsBucket items in
  (TotalMinutesUsed a = accumulate 0 (Quantity <$> rs) ∧
   TotalPaidMinutesUsed a = accumulate 0 (NetAmount <$> rs) ∧
   IncludedMinutes a = accumulate 0 (DiscountAmount <$> rs) ∧
   MinutesUsedBreakdown a = foldl accumulateBreakdown ∅ rs) ∧
  (∀ (m : gmap string Z) (item : UsageItem),
     let skuLower := strings.ToLower (SKU item) in
     let add os := addTo m os (intOfFloat (Quantity item)) in
     (strings.Contains skuLower "linux" = true ->
      accumulateBreakdown m item = add "UBUNTU") ∧
     (strings.Contains skuLower "linux" = false ->
      strings.Contains skuLower "windows" = true ->
      accumulateBreakdown m item = add "WINDOWS") ∧
     (strings.Contains skuLower "linux" = false ->
      strings.Contains skuLower "windows" = false ->
      strings.Contains skuLower "macos" = true ∨ strings.Contains skuLower "mac" = true ->
      accumulateBreakdown m item = add "MACOS") ∧
     (strings.Contains skuLower "linux" = false ->
      strings.Contains skuLower "windows" = false ->
      strings.Contains skuLower "macos" = false ->
      strings.Contains skuLower "mac" = false ->
      accumulateBreakdown m item = m)) ∧
  (∀ item : UsageItem,
     Product item = "actions" -> UnitType item = "minutes" ->
     Quantity item = 10%float -> NetAmount item = 8%float ->
     DiscountAmount item = 2%float ->
     strings.Contains (strings.ToLower (SKU item)) "linux" = true ->
     let a1 := (parseUsageResponse (Some {| UsageItems := [item] |}) billingType name).1.1 in
     TotalMinutesUsed a1 = 10%float ∧ TotalPaidMinutesUsed a1 = 8%float ∧
     IncludedMinutes a1 = 2%float ∧ MinutesUsedBreakdown a1 = {[ "UBUNTU" := 10 ]}).
Proof.
  cbn zeta. split; [|split].
  - rewrite parseUsageResponse_foldl.
    pose proof (foldl_parseItem_actions items (emptyBills billingType name)) as Hf.
    cbn zeta in Hf. destruct Hf as (_ & _ & Hq & Hn & Hd & Hb). done.
  - intros m item.
    pose proof (extractOSFromSKU_cases (SKU item)) as (Hl & Hw & Hm & Hnone).
    cbn zeta in Hl, Hw, Hm, Hnone.
    pose proof (accumulateBreakdown_cases m item) as [Hempty Hos].
    repeat split; intros.
    + rewrite Hos; rewrite Hl; done.
    + rewrite Hos; rewrite Hw; done.
    + rewrite Hos; rewrite Hm; done.
    + apply Hempty, Hnone; done.
  - intros item Hp Hu Hq Hn Hd Hsku.
    assert (Hin : actionsBucket item).
    { unfold actionsBucket. rewrite Hp, Hu. split; reflexivity. }
    rewrite parseUsageResponse_foldl. cbn [foldl].
    rewrite (parseItem_in_bucket _ _ Hin). cbn.
    rewrite Hq, Hn, Hd. repeat split.
    pose proof (extractOSFromSKU_cases (SKU item)) as (Hl & _).
    unfold accumulateBreakdown. cbn zeta in Hl |- *. rewrite (Hl Hsku). cbn.
    rewrite Hq. unfold addTo. rewrite lookup_empty. reflexivity.
Qed.

(** C6: a packages record whose unit type is "bytes" has its quantity
    divided by 1024*1024*1024 before it is added to the bandwidth total; a
    quantity of 1073741824 bytes adds exactly 1.0. *)
Theorem legacy_bytes_to_gigabytes (items : list UsageItem) (item : UsageItem)
    (billingType name : string) :
  strings.ToLower (Product item) = "packages" ->
  UnitType item = "bytes" ->
  let before := (parseUsageResponse (Some {| UsageItems := items |}) billingType name).1.2 in
  let after :=
    (parseUsageResponse (Some {| UsageItems := items ++ [item] |}) billingType name).1.2 in
  TotalGigabytesBandwidthUsed after
  = (TotalGigabytesBandwidthUsed before + Quantity item / (1024 * 1024 * 1024))%float ∧
  (Quantity item = 1073741824%float ->
   TotalGigabytesBandwidthUsed after = (TotalGigabytesBandwidthUsed before + 1)%float).
Proof.
  intros Hp Hu. cbn zeta. rewrite parseUsageResponse_snoc.
  destruct (parseUsageResponse _ billingType name) as [[a p] s].
  unfold parseItem. rewrite Hp, Hu. cbn.
  split; [reflexivity|]. intros ->. reflexivity.
Qed.

(** The integer part [truncFloat] computes is the magnitude rounded down,
    with the sign kept: truncation toward zero. *)
Lemma truncFloat_toward_zero (q : float) (s : bool) (m : positive) (e : Z) :
  Prim2SF q = S754_finite s m e ->
  ∃ mag : Z,
    truncFloat q = Some (if s then - mag else mag) ∧ 0 <= mag ∧
    if 0 <=? e then mag = Z.pos m * 2 ^ e
    else mag * 2 ^ (- e) <= Z.pos m < (mag + 1) * 2 ^ (- e).
Proof.
  intros Hq. unfold truncFloat. rewrite Hq.
  destruct (Z.leb_spec 0 e) as [He|He].
  - exists (Z.pos m * 2 ^ e). repeat split. apply Z.mul_nonneg_nonneg; [lia|].
    apply Z.pow_nonneg; lia.
  - exists (Z.pos m / 2 ^ (- e)).
    assert (0 < 2 ^ (- e)) by (apply Z.pow_pos_nonneg; lia).
    repeat split.
    + apply Z.div_pos; lia.
    + rewrite Z.mul_comm. apply Z.mul_div_le; lia.
    + rewrite Z.mul_comm. apply Z.mul_succ_div_gt; lia.
Qed.

(** C10: a classified actions record adds [int(quantity)], the quantity
    truncated toward zero, to the breakdown entry of its operating system,
    and the quantity itself to the minutes total; so there is a batch, all
    of whose SKUs classify and one of whose quantities is fractional, for
    which the breakdown values sum to strictly less than the total. *)
Theorem legacy_breakdown_truncates :
  (∀ (bills : actionBilling * packageBilling * storageBilling) (item : UsageItem),
     actionsBucket item -> extractOSFromSKU (SKU item) ≠ "" ->
     let a := bills.1.1 in
     let a' := (parseItem bills item).1.1 in
     MinutesUsedBreakdown a' !! extractOSFromSKU (SKU item)
     = Some (wrapInt (default 0 (MinutesUsedBreakdown a !! extractOSFromSKU (SKU item))
                      + intOfFloat (Quantity item))) ∧
     TotalMinutesUsed a' = (TotalMinutesUsed a + Quantity item)%float) ∧
  (∀ (q : float) (z : Z),
     truncFloat q = Some z -> - 2 ^ 63 <= z < 2 ^ 63 -> intOfFloat q = z) ∧
  (∀ (q : float) (s : bool) (m : positive) (e : Z),
     Prim2SF q = S754_finite s m e ->
     ∃ mag : Z,
       truncFloat q = Some (if s then - mag else mag) ∧ 0 <= mag ∧
       if 0 <=? e then mag = Z.pos m * 2 ^ e
       else mag * 2 ^ (- e) <= Z.pos m < (mag + 1) * 2 ^ (- e)) ∧
  (intOfFloat 1.5%float = 1 ∧ intOfFloat (-1.5)%float = -1) ∧
  (∃ items : list UsageItem,
     Forall (fun item => actionsBucket item ∧ extractOSFromSKU (SKU item) ≠ "") items ∧
     Exists (fun item =>
               (floatOfInt (intOfFloat (Quantity item)) <? Quantity item)%float = true) items ∧
     let a := (parseUsageResponse (Some {| UsageItems := items |}) "org" "acme").1.1 in
     (floatOfInt (breakdownTotal (MinutesUsedBreakdown a)) <? TotalMinutesUsed a)%float
     = true).
Proof.
  split; [|split; [|split; [|split]]].
  - intros bills item Hin Hos. cbn zeta.
    rewrite (parseItem_in_bucket _ _ Hin). cbn.
    split; [|reflexivity].
    destruct (accumulateBreakdown_cases (MinutesUsedBreakdown bills.1.1) item) as [_ ->];
      [|done].
    unfold addTo. by rewrite lookup_insert_eq.
  - intros q z Hq [Hlo Hhi]. unfold intOfFloat. rewrite Hq.
    destruct (Z.leb_spec (- 2 ^ 63) z); [|lia].
    destruct (Z.ltb_spec z (2 ^ 63)); [reflexivity|lia].
  - apply truncFloat_toward_zero.
  - split; reflexivity.
  - exists [ {| Date := "2024-01-01"; Product := "actions"; SKU := "actions_linux";
               Quantity := 1.5; UnitType := "minutes"; PricePerUnit := 0;
               GrossAmount := 0; DiscountAmount := 0; NetAmount := 0;
               OrganizationName := "acme"; RepositoryName := "repo" |} ].
    split; [|split].
    + constructor; [|constructor]. split; [split; reflexivity|]. by vm_compute.
    + constructor. reflexivity.
    + vm_compute. reflexivity.
Qed.

End LegacyBuckets.


(** C5, as stated, fails: a record whose unit type is "Minutes" is outside
    the bucket the claim describes (its unit type is not "minutes"), and its
    SKU "Actions Linux" does not contain "linux", yet the normalizer counts
    its 10 minutes and files them under UBUNTU. *)
Lemma legacy_actions_bucket_counterexample :
  let a :=
    (@Legacy.parseUsageResponse plainRuntime
       (Some {| Legacy.UsageItems := [capitalMinutesItem] |}) "org" "acme").1.1 in
  Legacy.TotalMinutesUsed a = 10%float ∧
  Legacy.MinutesUsedBreakdown a = {[ "UBUNTU" := 10 ]} ∧
  ¬ @Legacy.specActionsBucket plainRuntime capitalMinutesItem ∧
  Legacy.specOSFromSKU (Legacy.SKU capitalMinutesItem) = "".
Proof.
  cbn zeta. repeat split; try reflexivity.
  intros [_ Hu]. discriminate Hu.
Qed.


Lemma legacy_bytes_to_gigabytes_witness :
  Legacy.TotalGigabytesBandwidthUsed
    (@Legacy.parseUsageResponse plainRuntime
       (Some {| Legacy.UsageItems := [] ++ [oneGigabyteItem] |}) "org" "acme").1.2
  = 1%float.
Proof.
  exact (proj2 (@legacy_bytes_to_gigabytes plainRuntime [] oneGigabyteItem "org" "acme"
                  eq_refl eq_refl) eq_refl).
Defined.

(** ** Traces *)

Lemma sent_app (t1 t2 : list Event) : sent (t1 ++ t2) = sent t1 ++ sent t2.
Proof. apply omap_app. Qed.

Lemma failureLabels_app (t1 t2 : list Event) :
  failureLabels (t1 ++ t2) = failureLabels t1 ++ failureLabels t2.
Proof. apply omap_app. Qed.

Lemma observedLabels_app (t1 t2 : list Event) :
  observedLabels (t1 ++ t2) = observedLabels t1 ++ observedLabels t2.
Proof. apply omap_app. Qed.

Lemma logged_app (t1 t2 : list Event) : logged (t1 ++ t2) = logged t1 ++ logged t2.
Proof. apply omap_app. Qed.

Lemma errorsLogged_app (t1 t2 : list Event) :
  errorsLogged (t1 ++ t2) = errorsLogged t1 ++ errorsLogged t2.
Proof. unfold errorsLogged. by rewrite logged_app, filter_app. Qed.

(** A loop whose body appends to its accumulator what it gathers for the
    element, and always returns, gathers the concatenation. *)
Lemma forRange_gather {A B : Type} (body : list B -> A -> Go (list B))
    (t : A -> list Event) (g : A -> list B) :
  (∀ s x, body s x = (t x, Returned (s ++ g x))) ->
  ∀ xs acc, forRange body xs acc = (concat (t <$> xs), Returned (acc ++ concat (g <$> xs))).
Proof.
  intros Hbody. induction xs as [|x xs IH]; intros acc; cbn [forRange].
  - cbn. by rewrite app_nil_r.
  - rewrite Hbody, Go_bind_returned, IH. cbn. by rewrite app_assoc.
Qed.

Lemma concat_fmap_filter {A B : Type} (g : A -> list B) (P : A -> Prop)
    `{∀ x, Decision (P x)} (xs : list A) :
  (∀ x, ¬ P x -> g x = []) ->
  concat (g <$> filter P xs) = concat (g <$> xs).
Proof.
  intros Hg. induction xs as [|x xs IH]; [done|].
  rewrite filter_cons. destruct (decide (P x)) as [Hx|Hx]; cbn.
  - by rewrite IH.
  - by rewrite IH, (Hg x Hx).
Qed.

Lemma foldl_snoc_fmap {A B : Type} (f : A -> B) (xs : list A) (acc : list B) :
  foldl (fun result x => result ++ [f x]) acc xs = acc ++ (f <$> xs).
Proof.
  revert acc; induction xs as [|x xs IH]; intros acc; cbn.
  - by rewrite app_nil_r.
  - rewrite IH. by rewrite <- app_assoc.
Qed.

(** ** The v5 billing collector: fetching *)

Section V5Fetch.
Import V5.
Variable c : Client.

Lemma fetch_failure (entityType name : string) :
  fetchFails c entityType name = true ->
  ∃ (msg : string) (err : GoError),
    fetchBillingUsageForEntity c entityType name
    = ([EvLog {| logLevel := LevelError; logMsg := msg;
                 logAttrs := [("type", VString entityType); ("name", VString name);
                              ("err", VError err)] |};
        EvFailure "billing"],
       Returned []).
Proof.
  unfold fetchFails, fetchBillingUsageForEntity. cbn zeta.
  destruct (NewRequest c "GET" (billingEndpoint entityType name)) as [req|err].
  - destruct (Do c req) as [response|err]; [done|]. intros _. by eexists _, _.
  - intros _. by eexists _, _.
Qed.

Lemma fetch_success (entityType name : string) :
  fetchFails c entityType name = false ->
  ∃ response : UsageResponse,
    fetchBillingUsageForEntity c entityType name
    = ([], Returned (withEntity entityType name <$> UsageItems response)).
Proof.
  unfold fetchFails, fetchBillingUsageForEntity. cbn zeta.
  destruct (NewRequest c "GET" (billingEndpoint entityType name)) as [req|err]; [|done].
  destruct (Do c req) as [response|err]; [|done]. intros _.
  exists response. cbn. by rewrite foldl_snoc_fmap.
Qed.

(** The items the fetch of an entity yields: none when it fails. *)
Lemma fetch_returns (entityType name : string) :
  fetchBillingUsageForEntity c entityType name
  = (trace (fetchBillingUsageForEntity c entityType name),
     Returned (returned [] (fetchBillingUsageForEntity c entityType name))).
Proof.
  destruct (fetchFails c entityType name) eqn:Hf.
  - destruct (fetch_failure _ _ Hf) as (msg & err & ->). reflexivity.
  - destruct (fetch_success _ _ Hf) as (response & ->). reflexivity.
Qed.

Lemma fetch_failed_items (entityType name : string) :
  ¬ fetchFails c entityType name = false ->
  returned [] (fetchBillingUsageForEntity c entityType name) = [].
Proof.
  intros Hf. apply not_false_is_true in Hf.
  destruct (fetch_failure _ _ Hf) as (msg & err & ->). reflexivity.
Qed.

Lemma fetch_sent (entityType name : string) :
  sent (trace (fetchBillingUsageForEntity c entityType name)) = [].
Proof.
  destruct (fetchFails c entityType name) eqn:Hf.
  - destruct (fetch_failure _ _ Hf) as (msg & err & ->). reflexivity.
  - destruct (fetch_success _ _ Hf) as (response & ->). reflexivity.
Qed.

Lemma fetch_failureLabels (entityType name : string) :
  failureLabels (trace (fetchBillingUsageForEntity c entityType name))
  = if fetchFails c entityType name then ["billing"] else [].
Proof.
  destruct (fetchFails c entityType name) eqn:Hf.
  - destruct (fetch_failure _ _ Hf) as (msg & err & ->). reflexivity.
  - destruct (fetch_success _ _ Hf) as (response & ->). reflexivity.
Qed.

(** The scope attributes of the error records a fetch logs. *)
Lemma fetch_errorsLogged (entityType name : string) :
  logScope <$> errorsLogged (trace (fetchBillingUsageForEntity c entityType name))
  = if fetchFails c entityType name
    then [(Some (VString entityType), Some (VString name))]
    else [].
Proof.
  destruct (fetchFails c entityType name) eqn:Hf.
  - destruct (fetch_failure _ _ Hf) as (msg & err & ->). reflexivity.
  - destruct (fetch_success _ _ Hf) as (response & ->). reflexivity.
Qed.

(** [getBillingUsage] gathers the items of the enterprises, then those of
    the organizations, and its trace is the traces of the fetches. *)
Lemma getBillingUsage_gathers (cfg : Target) :
  getBillingUsage c cfg
  = (concat ((fun n => trace (fetchBillingUsageForEntity c "enterprise" n))
               <$> Enterprises cfg)
     ++ concat ((fun n => trace (fetchBillingUsageForEntity c "org" n)) <$> Orgs cfg),
     Returned
       (concat ((fun n => returned [] (fetchBillingUsageForEntity c "enterprise" n))
                  <$> Enterprises cfg)
        ++ concat ((fun n => returned [] (fetchBillingUsageForEntity c "org" n))
                     <$> Orgs cfg))).
Proof.
  unfold getBillingUsage.
  rewrite (forRange_gather _
             (fun n => trace (fetchBillingUsageForEntity c "enterprise" n))
             (fun n => returned [] (fetchBillingUsageForEntity c "enterprise" n))).
  2:{ intros s x. rewrite (fetch_returns "enterprise" x) at 1.
      rewrite Go_bind_returned. cbn. by rewrite app_nil_r. }
  rewrite Go_bind_returned.
  rewrite (forRange_gather _
             (fun n => trace (fetchBillingUsageForEntity c "org" n))
             (fun n => returned [] (fetchBillingUsageForEntity c "org" n))).
  2:{ intros s x. rewrite (fetch_returns "org" x) at 1.
      rewrite Go_bind_returned. cbn. by rewrite app_nil_r. }
  reflexivity.
Qed.

End V5Fetch.

(** ** Loops that always return *)

Lemma hom_concat_fmap {A B : Type} (h : list Event -> list B) (t : A -> list Event)
    (xs : list A) :
  h [] = [] -> (∀ a b, h (a ++ b) = h a ++ h b) ->
  h (concat (t <$> xs)) = concat ((fun x => h (t x)) <$> xs).
Proof.
  intros Hnil Happ. induction xs as [|x xs IH]; cbn; [done|].
  by rewrite Happ, IH.
Qed.

Lemma concat_fmap_nil {A B : Type} (f : A -> list B) (xs : list A) :
  (∀ x, f x = []) -> concat (f <$> xs) = [].
Proof. intros Hf. induction xs as [|x xs IH]; cbn; [done|]. by rewrite Hf, IH. Qed.

Lemma concat_fmap_cond {A B : Type} (f h : A -> list B) (p : A -> bool) (xs : list A) :
  (∀ x, f x = if p x then h x else []) ->
  concat (f <$> xs) = concat (h <$> filter (fun x => p x = true) xs).
Proof.
  intros Hf. induction xs as [|x xs IH]; [done|].
  rewrite filter_cons. cbn [fmap list_fmap concat]. rewrite Hf, IH.
  destruct (p x); cbn; [|done].
  destruct (decide (true = true)); done.
Qed.

Lemma concat_fmap_singleton {A B : Type} (b : B) (xs : list A) :
  concat ((fun _ => [b]) <$> xs) = replicate (length xs) b.
Proof. induction xs as [|x xs IH]; cbn; [done|]. by rewrite IH. Qed.

(** A loop whose body always returns, with a trace in a class of traces
    closed under concatenation, returns with a trace in that class. *)
Lemma forRange_returns {A St : Type} (body : St -> A -> Go St)
    (P : list Event -> Prop) :
  P [] -> (∀ t1 t2, P t1 -> P t2 -> P (t1 ++ t2)) ->
  (∀ s x, ∃ s', outcome (body s x) = Returned s' ∧ P (trace (body s x))) ->
  ∀ xs s, ∃ s', outcome (forRange body xs s) = Returned s'
                ∧ P (trace (forRange body xs s)).
Proof.
  intros Hnil Happ Hbody. induction xs as [|x xs IH]; intros s; cbn [forRange].
  - by exists s.
  - destruct (Hbody s x) as (s1 & Ho & Ht).
    destruct (IH s1) as (s2 & Ho2 & Ht2).
    exists s2. rewrite Go_bind_outcome, Go_bind_trace, Ho. split; [done|].
    by apply Happ.
Qed.


Lemma quiet_nil : quiet [].
Proof. done. Qed.

Lemma quiet_app (t1 t2 : list Event) : quiet t1 -> quiet t2 -> quiet (t1 ++ t2).
Proof.
  intros (Hf1 & Ho1 & He1) (Hf2 & Ho2 & He2). unfold quiet.
  by rewrite failureLabels_app, observedLabels_app, errorsLogged_app,
       Hf1, Hf2, Ho1, Ho2, He1, He2.
Qed.

(** ** The v5 billing collector: collecting *)

Section V5Collect.
Import V5.

Lemma collectItem_returns (collected : gmap string bool) (item : UsageItem) :
  ∃ collected', outcome (collectItem collected item) = Returned collected'
                ∧ quiet (trace (collectItem collected item)).
Proof.
  unfold collectItem. cbn zeta.
  destruct (default false (collected !! dedupKey item)); by eexists.
Qed.

Lemma collectLoop_returns (items : list UsageItem) (collected : gmap string bool) :
  ∃ collected', outcome (forRange collectItem items collected) = Returned collected'
                ∧ quiet (trace (forRange collectItem items collected)).
Proof.
  apply (forRange_returns collectItem quiet quiet_nil quiet_app), collectItem_returns.
Qed.


Lemma Collect_unfold (c : Client) (cfg : Target) :
  Collect c cfg
  = (trace (getBillingUsage c cfg)
     ++ [EvObserve "billing";
         EvLog {| logLevel := LevelDebug; logMsg := "Fetched billing usage";
                  logAttrs := [("count", VInt (Z.of_nat (length (usageItemsOf c cfg))));
                               ("duration", VDuration)] |}]
     ++ trace (forRange collectItem (usageItemsOf c cfg) ∅),
     Returned tt).
Proof.
  assert (Hg : getBillingUsage c cfg
               = (trace (getBillingUsage c cfg), Returned (usageItemsOf c cfg))).
  { unfold usageItemsOf. by rewrite (getBillingUsage_gathers c cfg). }
  unfold Collect. generalize dependent (usageItemsOf c cfg).
  generalize (trace (getBillingUsage c cfg)). intros T items ->.
  destruct (collectLoop_returns items ∅) as (collected' & Ho & _).
  rewrite Go_bind_returned.
  destruct (forRange collectItem items ∅) as [t o]. cbn in Ho. subst o.
  cbn. by rewrite ?app_nil_r.
Qed.

End V5Collect.

(** ** The v5 billing collector: a failing entity *)

Section V5Resilience.
Import V5.
Variable c : Client.

Lemma getBillingUsage_project {B : Type} (h : list Event -> list B) (cfg : Target) :
  h [] = [] -> (∀ a b, h (a ++ b) = h a ++ h b) ->
  h (trace (getBillingUsage c cfg))
  = concat ((fun n => h (trace (fetchBillingUsageForEntity c "enterprise" n)))
              <$> Enterprises cfg)
    ++ concat ((fun n => h (trace (fetchBillingUsageForEntity c "org" n))) <$> Orgs cfg).
Proof.
  intros Hnil Happ. rewrite getBillingUsage_gathers. cbn [trace fst].
  by rewrite Happ, !hom_concat_fmap.
Qed.

Lemma getBillingUsage_sent (cfg : Target) : sent (trace (getBillingUsage c cfg)) = [].
Proof.
  rewrite (getBillingUsage_project sent); [|done|apply sent_app].
  rewrite !concat_fmap_nil; [done| |]; intros; apply fetch_sent.
Qed.

Lemma getBillingUsage_failureLabels (cfg : Target) :
  failureLabels (trace (getBillingUsage c cfg))
  = replicate (length (failingEntities c cfg)) "billing".
Proof.
  rewrite (getBillingUsage_project failureLabels); [|done|apply failureLabels_app].
  rewrite (concat_fmap_cond
             (fun n => failureLabels (trace (fetchBillingUsageForEntity c "enterprise" n)))
             (fun _ => ["billing"]) (fetchFails c "enterprise"));
    [|intros; apply fetch_failureLabels].
  rewrite (concat_fmap_cond
             (fun n => failureLabels (trace (fetchBillingUsageForEntity c "org" n)))
             (fun _ => ["billing"]) (fetchFails c "org"));
    [|intros; apply fetch_failureLabels].
  rewrite !concat_fmap_singleton. unfold failingEntities.
  by rewrite length_app, !length_fmap, replicate_add.
Qed.

Lemma getBillingUsage_errorsLogged (cfg : Target) :
  logScope <$> errorsLogged (trace (getBillingUsage c cfg))
  = (fun e => (Some (VString e.1), Some (VString e.2))) <$> failingEntities c cfg.
Proof.
  rewrite (getBillingUsage_project (fun t => logScope <$> errorsLogged t)); [|done|].
  2:{ intros a b. by rewrite errorsLogged_app, fmap_app. }
  rewrite (concat_fmap_cond
             (fun n => logScope <$> errorsLogged
                         (trace (fetchBillingUsageForEntity c "enterprise" n)))
             (fun n => [(Some (VString "enterprise"), Some (VString n))])
             (fetchFails c "enterprise"));
    [|intros; apply fetch_errorsLogged].
  rewrite (concat_fmap_cond
             (fun n => logScope <$> errorsLogged
                         (trace (fetchBillingUsageForEntity c "org" n)))
             (fun n => [(Some (VString "org"), Some (VString n))])
             (fetchFails c "org"));
    [|intros; apply fetch_errorsLogged].
  unfold failingEntities. rewrite fmap_app, <- !list_fmap_compose.
  f_equal.
  - generalize (filter (fun n => fetchFails c "enterprise" n = true) (Enterprises cfg)).
    induction l as [|x l IH]; cbn; [done|]. by rewrite IH.
  - generalize (filter (fun n => fetchFails c "org" n = true) (Orgs cfg)).
    induction l as [|x l IH]; cbn; [done|]. by rewrite IH.
Qed.

(** The items gathered do not change when the failing entities are taken
    out of the configuration. *)
Lemma usageItemsOf_withoutFailing (cfg : Target) :
  usageItemsOf c (withoutFailing c cfg) = usageItemsOf c cfg.
Proof.
  unfold usageItemsOf. rewrite !getBillingUsage_gathers. cbn.
  rewrite !concat_fmap_filter; [done| |]; intros; by apply fetch_failed_items.
Qed.

Lemma Collect_sent (cfg : Target) :
  sent (trace (Collect c cfg))
  = sent (trace (forRange collectItem (usageItemsOf c cfg) ∅)).
Proof.
  rewrite Collect_unfold. cbn [trace fst].
  by rewrite !sent_app, getBillingUsage_sent.
Qed.

(** What [Collect] does when the fetch of some entities fails. *)
Lemma v5_collect_resilient (cfg : Target) :
  outcome (Collect c cfg) = Returned tt ∧
  failureLabels (trace (Collect c cfg))
  = replicate (length (failingEntities c cfg)) "billing" ∧
  logScope <$> errorsLogged (trace (Collect c cfg))
  = (fun e => (Some (VString e.1), Some (VString e.2))) <$> failingEntities c cfg ∧
  sent (trace (Collect c cfg)) = sent (trace (Collect c (withoutFailing c cfg))).
Proof.
  destruct (collectLoop_returns (usageItemsOf c cfg) ∅) as (s' & _ & Hf & _ & He).
  repeat split.
  - by rewrite Collect_unfold.
  - rewrite Collect_unfold. cbn [trace fst].
    rewrite !failureLabels_app, getBillingUsage_failureLabels, Hf. cbn.
    by rewrite app_nil_r.
  - rewrite Collect_unfold. cbn [trace fst].
    rewrite !errorsLogged_app, !fmap_app, getBillingUsage_errorsLogged, He. cbn.
    by rewrite app_nil_r.
  - by rewrite !Collect_sent, usageItemsOf_withoutFailing.
Qed.

End V5Resilience.

(** ** The legacy billing collector: fetching *)

(** A block of a [Collect]: fetch, observe the duration, log the count,
    then loop over what was fetched. *)
Lemma block_unfold {B St : Type} (get : Go (list B)) (label msg : string)
    (body : St -> B -> Go St) (s0 : St) (T : list Event) (billing : list B) :
  get = (T, Returned billing) ->
  (∃ s', outcome (forRange body billing s0) = Returned s') ->
  (billing ← get;
   durationObserve label;;
   logDebug msg [("count", VInt (Z.of_nat (length billing))); ("duration", VDuration)];;
   forRange body billing s0;;
   mret tt)
  = (T ++ [EvObserve label;
           EvLog {| logLevel := LevelDebug; logMsg := msg;
                    logAttrs := [("count", VInt (Z.of_nat (length billing)));
                                 ("duration", VDuration)] |}]
       ++ trace (forRange body billing s0),
     Returned tt).
Proof.
  intros -> (s' & Ho). rewrite Go_bind_returned.
  destruct (forRange body billing s0) as [t o]. cbn in Ho. subst o.
  cbn. by rewrite ?app_nil_r.
Qed.

Section LegacyFetch.
Context `{GoRuntime}.
Import Legacy.
Variable c : Client.

Section OneLoop.
Context {B : Type}.
Variables (billingType : string) (endpoint : string -> string).
Variables (prepareMsg fetchMsg : string).
Variable keep : actionBilling * packageBilling * storageBilling -> B.

Let body := fetchBill c billingType endpoint prepareMsg fetchMsg keep.

Lemma fetchBill_failure (name : string) :
  fetchFails c endpoint name = true ->
  ∃ (msg : string) (err : GoError),
    ∀ result : list B,
      body result name
      = ([EvLog {| logLevel := LevelError; logMsg := msg;
                   logAttrs := [("type", VString billingType); ("name", VString name);
                                ("err", VError err)] |};
          EvFailure "action"],
         Returned result).
Proof.
  unfold fetchFails, body, fetchBill.
  destruct (NewRequest c "GET" (endpoint name)) as [req|err].
  - destruct (Do c req) as [record|err]; [done|]. intros _. by eexists _, _.
  - intros _. by eexists _, _.
Qed.

Lemma fetchBill_success (name : string) :
  fetchFails c endpoint name = false ->
  ∃ record : UsageResponse,
    ∀ result : list B,
      body result name
      = ([], Returned (result ++ [keep (parseUsageResponse (Some record) billingType name)])).
Proof.
  unfold fetchFails, body, fetchBill.
  destruct (NewRequest c "GET" (endpoint name)) as [req|err]; [|done].
  destruct (Do c req) as [record|err]; [|done]. intros _. by exists record.
Qed.

Lemma fetchBill_returns (result : list B) (name : string) :
  body result name
  = (trace (body [] name), Returned (result ++ returned [] (body [] name))).
Proof.
  destruct (fetchFails c endpoint name) eqn:Hf.
  - destruct (fetchBill_failure _ Hf) as (msg & err & Hb). rewrite !Hb.
    cbn. by rewrite app_nil_r.
  - destruct (fetchBill_success _ Hf) as (record & Hb). by rewrite !Hb.
Qed.

Lemma fetchLoop_gathers (names : list string) (acc : list B) :
  forRange body names acc
  = (concat ((fun n => trace (body [] n)) <$> names),
     Returned (acc ++ concat ((fun n => returned [] (body [] n)) <$> names))).
Proof. apply forRange_gather, fetchBill_returns. Qed.

Lemma fetchBill_failed_items (name : string) :
  ¬ fetchFails c endpoint name = false -> returned [] (body [] name) = [].
Proof.
  intros Hf. apply not_false_is_true in Hf.
  destruct (fetchBill_failure _ Hf) as (msg & err & Hb). by rewrite Hb.
Qed.

Lemma fetchBill_sent (name : string) : sent (trace (body [] name)) = [].
Proof.
  destruct (fetchFails c endpoint name) eqn:Hf.
  - destruct (fetchBill_failure _ Hf) as (msg & err & Hb). by rewrite Hb.
  - destruct (fetchBill_success _ Hf) as (record & Hb). by rewrite Hb.
Qed.

Lemma fetchBill_observedLabels (name : string) :
  observedLabels (trace (body [] name)) = [].
Proof.
  destruct (fetchFails c endpoint name) eqn:Hf.
  - destruct (fetchBill_failure _ Hf) as (msg & err & Hb). by rewrite Hb.
  - destruct (fetchBill_success _ Hf) as (record & Hb). by rewrite Hb.
Qed.

Lemma fetchBill_failureLabels (name : string) :
  failureLabels (trace (body [] name))
  = if fetchFails c endpoint name then ["action"] else [].
Proof.
  destruct (fetchFails c endpoint name) eqn:Hf.
  - destruct (fetchBill_failure _ Hf) as (msg & err & Hb). by rewrite Hb.
  - destruct (fetchBill_success _ Hf) as (record & Hb). by rewrite Hb.
Qed.

Lemma fetchBill_errorsLogged (name : string) :
  logScope <$> errorsLogged (trace (body [] name))
  = if fetchFails c endpoint name
    then [(Some (VString billingType), Some (VString name))]
    else [].
Proof.
  destruct (fetchFails c endpoint name) eqn:Hf.
  - destruct (fetchBill_failure _ Hf) as (msg & err & Hb). by rewrite Hb.
  - destruct (fetchBill_success _ Hf) as (record & Hb). by rewrite Hb.
Qed.

End OneLoop.

Section BothLoops.
Context {B : Type}.
Variables (prepareMsg fetchMsg : string).
Variable keep : actionBilling * packageBilling * storageBilling -> B.

Let entBody := fetchBill c "enterprise" enterpriseEndpoint prepareMsg fetchMsg keep.
Let orgBody := fetchBill c "org" orgEndpoint prepareMsg fetchMsg keep.

Lemma fetchBoth_gathers (cfg : Target) :
  fetchBoth c prepareMsg fetchMsg keep cfg
  = (concat ((fun n => trace (entBody [] n)) <$> Enterprises cfg)
     ++ concat ((fun n => trace (orgBody [] n)) <$> Orgs cfg),
     Returned (concat ((fun n => returned [] (entBody [] n)) <$> Enterprises cfg)
               ++ concat ((fun n => returned [] (orgBody [] n)) <$> Orgs cfg))).
Proof.
  unfold fetchBoth. rewrite fetchLoop_gathers, Go_bind_returned, fetchLoop_gathers.
  reflexivity.
Qed.

Lemma fetchBoth_returns (cfg : Target) :
  fetchBoth c prepareMsg fetchMsg keep cfg
  = (trace (fetchBoth c prepareMsg fetchMsg keep cfg),
     Returned (returned [] (fetchBoth c prepareMsg fetchMsg keep cfg))).
Proof. by rewrite fetchBoth_gathers. Qed.

Lemma fetchBoth_project {E : Type} (h : list Event -> list E) (cfg : Target) :
  h [] = [] -> (∀ a b, h (a ++ b) = h a ++ h b) ->
  h (trace (fetchBoth c prepareMsg fetchMsg keep cfg))
  = concat ((fun n => h (trace (entBody [] n))) <$> Enterprises cfg)
    ++ concat ((fun n => h (trace (orgBody [] n))) <$> Orgs cfg).
Proof.
  intros Hnil Happ. rewrite fetchBoth_gathers. cbn [trace fst].
  by rewrite Happ, !hom_concat_fmap.
Qed.

Lemma fetchBoth_sent (cfg : Target) :
  sent (trace (fetchBoth c prepareMsg fetchMsg keep cfg)) = [].
Proof.
  rewrite (fetchBoth_project sent); [|done|apply sent_app].
  rewrite !concat_fmap_nil; [done| |]; intros; apply fetchBill_sent.
Qed.

Lemma fetchBoth_observedLabels (cfg : Target) :
  observedLabels (trace (fetchBoth c prepareMsg fetchMsg keep cfg)) = [].
Proof.
  rewrite (fetchBoth_project observedLabels); [|done|apply observedLabels_app].
  rewrite !concat_fmap_nil; [done| |]; intros; apply fetchBill_observedLabels.
Qed.

Lemma fetchBoth_failureLabels (cfg : Target) :
  failureLabels (trace (fetchBoth c prepareMsg fetchMsg keep cfg))
  = replicate (length (failingEntities c cfg)) "action".
Proof.
  rewrite (fetchBoth_project failureLabels); [|done|apply failureLabels_app].
  rewrite (concat_fmap_cond (fun n => failureLabels (trace (entBody [] n)))
             (fun _ => ["action"]) (fetchFails c enterpriseEndpoint));
    [|intros; apply fetchBill_failureLabels].
  rewrite (concat_fmap_cond (fun n => failureLabels (trace (orgBody [] n)))
             (fun _ => ["action"]) (fetchFails c orgEndpoint));
    [|intros; apply fetchBill_failureLabels].
  rewrite !concat_fmap_singleton. unfold failingEntities.
  by rewrite length_app, !length_fmap, replicate_add.
Qed.

Lemma fetchBoth_errorsLogged (cfg : Target) :
  logScope <$> errorsLogged (trace (fetchBoth c prepareMsg fetchMsg keep cfg))
  = (fun e => (Some (VString e.1), Some (VString e.2))) <$> failingEntities c cfg.
Proof.
  rewrite (fetchBoth_project (fun t => logScope <$> errorsLogged t)); [|done|].
  2:{ intros a b. by rewrite errorsLogged_app, fmap_app. }
  rewrite (concat_fmap_cond
             (fun n => logScope <$> errorsLogged (trace (entBody [] n)))
             (fun n => [(Some (VString "enterprise"), Some (VString n))])
             (fetchFails c enterpriseEndpoint));
    [|intros; apply fetchBill_errorsLogged].
  rewrite (concat_fmap_cond
             (fun n => logScope <$> errorsLogged (trace (orgBody [] n)))
             (fun n => [(Some (VString "org"), Some (VString n))])
             (fetchFails c orgEndpoint));
    [|intros; apply fetchBill_errorsLogged].
  unfold failingEntities. rewrite fmap_app, <- !list_fmap_compose.
  f_equal.
  - generalize (filter (fun n => fetchFails c enterpriseEndpoint n = true)
                  (Enterprises cfg)).
    induction l as [|x l IH]; cbn; [done|]. by rewrite IH.
  - generalize (filter (fun n => fetchFails c orgEndpoint n = true) (Orgs cfg)).
    induction l as [|x l IH]; cbn; [done|]. by rewrite IH.
Qed.

Lemma fetchBoth_withoutFailing (cfg : Target) :
  returned [] (fetchBoth c prepareMsg fetchMsg keep (withoutFailing c cfg))
  = returned [] (fetchBoth c prepareMsg fetchMsg keep cfg).
Proof.
  rewrite !fetchBoth_gathers. cbn.
  rewrite !concat_fmap_filter; [done| |]; intros; by apply fetchBill_failed_items.
Qed.

End BothLoops.

End LegacyFetch.

(** ** The legacy billing collector: collecting *)

Section LegacyCollect.
Context `{GoRuntime}.
Import Legacy.

Lemma sendLoop_returns {K : Type} (mk : K -> Metric) (xs : list K) :
  ∃ s', outcome (forRange (fun (_ : unit) (x : K) => send (mk x)) xs tt) = Returned s'
        ∧ quiet (trace (forRange (fun (_ : unit) (x : K) => send (mk x)) xs tt)).
Proof.
  apply (forRange_returns _ quiet quiet_nil quiet_app). intros s x. by exists tt.
Qed.

Lemma collectAction_returns (collected : list string) (record : actionBilling) :
  ∃ collected', outcome (collectAction collected record) = Returned collected'
                ∧ quiet (trace (collectAction collected record)).
Proof.
  unfold collectAction.
  destruct (alreadyCollected collected (aName record)); [by eexists|].
  cbn zeta.
  match goal with |- context [forRange ?body ?xs tt] =>
    destruct (sendLoop_returns
                (fun kv : string * Z =>
                   MustNewConstMetric MinutesUsedBreakdownDesc (floatOfInt kv.2)
                     ([aType record; aName record] ++ [kv.1])) xs)
      as ([] & Ho & Hq);
    destruct (forRange body xs tt) as [t o]
  end.
  cbn in Ho, Hq. subst o. eexists. cbn. split; [done|].
  apply (quiet_app [_; _; _; _] (t ++ [])); [done|].
  by apply quiet_app.
Qed.

Lemma collectPackage_returns (collected : list string) (record : packageBilling) :
  ∃ collected', outcome (collectPackage collected record) = Returned collected'
                ∧ quiet (trace (collectPackage collected record)).
Proof.
  unfold collectPackage.
  destruct (alreadyCollected collected (pName record)); by eexists.
Qed.

Lemma collectStorage_returns (collected : list string) (record : storageBilling) :
  ∃ collected', outcome (collectStorage collected record) = Returned collected'
                ∧ quiet (trace (collectStorage collected record)).
Proof.
  unfold collectStorage.
  destruct (alreadyCollected collected (sName record)); by eexists.
Qed.

Variable c : Client.

Lemma collectActionBlock_unfold (cfg : Target) :
  collectActionBlock c cfg
  = (trace (getActionBilling c cfg)
     ++ [EvObserve "action";
         EvLog {| logLevel := LevelDebug; logMsg := "Fetched action billing";
                  logAttrs :=
                    [("count", VInt (Z.of_nat (length (returned [] (getActionBilling c cfg)))));
                     ("duration", VDuration)] |}]
     ++ trace (forRange collectAction (returned [] (getActionBilling c cfg)) []),
     Returned tt).
Proof.
  apply block_unfold; [apply fetchBoth_returns|].
  destruct (forRange_returns collectAction quiet quiet_nil quiet_app
              collectAction_returns (returned [] (getActionBilling c cfg)) [])
    as (s' & Ho & _).
  by exists s'.
Qed.

Lemma collectPackageBlock_unfold (cfg : Target) :
  collectPackageBlock c cfg
  = (trace (getPackageBilling c cfg)
     ++ [EvObserve "action";
         EvLog {| logLevel := LevelDebug; logMsg := "Fetched package billing";
                  logAttrs :=
                    [("count", VInt (Z.of_nat (length (returned [] (getPackageBilling c cfg)))));
                     ("duration", VDuration)] |}]
     ++ trace (forRange collectPackage (returned [] (getPackageBilling c cfg)) []),
     Returned tt).
Proof.
  apply block_unfold; [apply fetchBoth_returns|].
  destruct (forRange_returns collectPackage quiet quiet_nil quiet_app
              collectPackage_returns (returned [] (getPackageBilling c cfg)) [])
    as (s' & Ho & _).
  by exists s'.
Qed.

Lemma collectStorageBlock_unfold (cfg : Target) :
  collectStorageBlock c cfg
  = (trace (getStorageBilling c cfg)
     ++ [EvObserve "action";
         EvLog {| logLevel := LevelDebug; logMsg := "Fetched storage billing";
                  logAttrs :=
                    [("count", VInt (Z.of_nat (length (returned [] (getStorageBilling c cfg)))));
                     ("duration", VDuration)] |}]
     ++ trace (forRange collectStorage (returned [] (getStorageBilling c cfg)) []),
     Returned tt).
Proof.
  apply block_unfold; [apply fetchBoth_returns|].
  destruct (forRange_returns collectStorage quiet quiet_nil quiet_app
              collectStorage_returns (returned [] (getStorageBilling c cfg)) [])
    as (s' & Ho & _).
  by exists s'.
Qed.

Lemma Collect_blocks (cfg : Target) :
  Collect c cfg
  = (trace (collectActionBlock c cfg) ++ trace (collectPackageBlock c cfg)
     ++ trace (collectStorageBlock c cfg),
     Returned tt).
Proof.
  unfold Collect.
  rewrite (collectActionBlock_unfold cfg), (collectPackageBlock_unfold cfg),
    (collectStorageBlock_unfold cfg).
  cbn. by rewrite ?app_nil_r.
Qed.


End LegacyCollect.

(** ** The legacy billing collector: durations and failures *)

Section LegacyTelemetry.
Context `{GoRuntime}.
Import Legacy.

(** C8: every [Collect] of the legacy billing collector makes exactly three
    histogram observations, one after each sub-fetch, whatever the client
    answers; all three are reported under the label "action", so the
    package and the storage sub-fetch have no category label of their
    own. *)
Theorem legacy_durations_all_action (c : Client) (cfg : Target) :
  observedLabels (trace (Collect c cfg)) = ["action"; "action"; "action"].
Proof.
  rewrite Collect_blocks. cbn [trace fst].
  rewrite collectActionBlock_unfold, collectPackageBlock_unfold,
    collectStorageBlock_unfold.
  cbn [trace fst]. rewrite !observedLabels_app.
  unfold getActionBilling, getPackageBilling, getStorageBilling.
  rewrite !fetchBoth_observedLabels.
  destruct (forRange_returns collectAction quiet quiet_nil quiet_app
              collectAction_returns
              (returned [] (fetchBoth c "Failed to prepare action request"
                              "Failed to fetch action billing" (fun b => b.1.1) cfg)) [])
    as (? & _ & _ & -> & _).
  destruct (forRange_returns collectPackage quiet quiet_nil quiet_app
              collectPackage_returns
              (returned [] (fetchBoth c "Failed to prepare package request"
                              "Failed to fetch package billing" (fun b => b.1.2) cfg)) [])
    as (? & _ & _ & -> & _).
  destruct (forRange_returns collectStorage quiet quiet_nil quiet_app
              collectStorage_returns
              (returned [] (fetchBoth c "Failed to prepare storage request"
                              "Failed to fetch storage billing" (fun b => b.2) cfg)) [])
    as (? & _ & _ & -> & _).
  reflexivity.
Qed.

Lemma legacy_Collect_sent (c : Client) (cfg : Target) :
  sent (trace (Collect c cfg))
  = sent (trace (forRange collectAction (returned [] (getActionBilling c cfg)) []))
    ++ sent (trace (forRange collectPackage (returned [] (getPackageBilling c cfg)) []))
    ++ sent (trace (forRange collectStorage (returned [] (getStorageBilling c cfg)) [])).
Proof.
  rewrite Collect_blocks. cbn [trace fst].
  rewrite collectActionBlock_unfold, collectPackageBlock_unfold,
    collectStorageBlock_unfold.
  cbn [trace fst]. rewrite !sent_app.
  unfold getActionBilling, getPackageBilling, getStorageBilling.
  rewrite !fetchBoth_sent. reflexivity.
Qed.

(** What the legacy package fetcher and [Collect] do when the fetch of
    some entities fails. *)
Lemma legacy_package_fetch_resilient (c : Client) (cfg : Target) :
  getPackageBilling c cfg
  = (trace (getPackageBilling c cfg),
     Returned (returned [] (getPackageBilling c (withoutFailing c cfg)))) ∧
  failureLabels (trace (getPackageBilling c cfg))
  = replicate (length (failingEntities c cfg)) "action" ∧
  logScope <$> errorsLogged (trace (getPackageBilling c cfg))
  = (fun e => (Some (VString e.1), Some (VString e.2))) <$> failingEntities c cfg ∧
  outcome (Collect c cfg) = Returned tt ∧
  sent (trace (Collect c cfg)) = sent (trace (Collect c (withoutFailing c cfg))).
Proof.
  repeat split.
  - unfold getPackageBilling. rewrite fetchBoth_withoutFailing. apply fetchBoth_returns.
  - apply fetchBoth_failureLabels.
  - apply fetchBoth_errorsLogged.
  - by rewrite Collect_blocks.
  - rewrite !legacy_Collect_sent.
    unfold getActionBilling, getPackageBilling, getStorageBilling.
    by rewrite !fetchBoth_withoutFailing.
Qed.

End LegacyTelemetry.

(** C1: the deduplication of the billing collectors drops an item that is
    the first of its key.  The legacy collector deduplicates by name
    alone: with an enterprise and an organization both named "acme", the
    record of the organization is fetched and then dropped because the
    enterprise came first, so every sample sent carries the enterprise
    scope.  The v5 collector joins the five key fields with hyphens: two
    items of one organization that differ in product and SKU get the same
    key, and only the sample set of the first is sent. *)
Theorem billing_dedup_drops_first_of_key :
  ((fun b => (Legacy.aType b, Legacy.aName b))
     <$> returned [] (@Legacy.getActionBilling plainRuntime answeringClient sameName)
   = [("enterprise", "acme"); ("org", "acme")]
   ∧ (fun m => (metricName m, metricLabels m))
       <$> sent (trace (@Legacy.Collect plainRuntime answeringClient sameName))
     = [(Legacy.MinutesUsed, ["enterprise"; "acme"]);
        (Legacy.PaidMinutesUsed, ["enterprise"; "acme"]);
        (Legacy.IncludedMinutesDesc, ["enterprise"; "acme"]);
        (Legacy.MinutesUsedBreakdownDesc, ["enterprise"; "acme"; "UBUNTU"]);
        (Legacy.BandwidthUsed, ["enterprise"; "acme"]);
        (Legacy.BandwidthPaid, ["enterprise"; "acme"]);
        (Legacy.BandwidthIncluded, ["enterprise"; "acme"]);
        (Legacy.DaysLeft, ["enterprise"; "acme"]);
        (Legacy.EastimatedPaidStorage, ["enterprise"; "acme"]);
        (Legacy.EastimatedStorage, ["enterprise"; "acme"])])
  ∧ (V5.usageItemsOf hyphenClient oneOrg
     = [V5.withEntity "org" "acme" hyphenItemA; V5.withEntity "org" "acme" hyphenItemB]
     ∧ V5.keyFields (V5.withEntity "org" "acme" hyphenItemA)
       ≠ V5.keyFields (V5.withEntity "org" "acme" hyphenItemB)
     ∧ V5.dedupKey (V5.withEntity "org" "acme" hyphenItemA)
       = "org-acme-actions-linux-arm-2024-01-01"
     ∧ V5.dedupKey (V5.withEntity "org" "acme" hyphenItemB)
       = "org-acme-actions-linux-arm-2024-01-01"
     ∧ sent (trace (V5.Collect hyphenClient oneOrg))
       = V5.sampleSet (V5.withEntity "org" "acme" hyphenItemA)).
Proof.
  split; [split|split; [|split; [|split; [|split]]]].
  - vm_compute. reflexivity.
  - vm_compute. reflexivity.
  - reflexivity.
  - discriminate.
  - reflexivity.
  - reflexivity.
  - vm_compute. reflexivity.
Qed.

(** ** The paginated fetchers *)

Section Pagination.
Import Runner.
Variable call : ListOptions -> result (list Runner * Response).
Variable perPage : Z.

Lemma pagedLoop_serves (page : Z) (pages : list (list Runner)) :
  servesPages call perPage page pages ->
  ∀ (fuel : nat) (runners : list Runner),
    (length pages <= fuel)%nat ->
    pagedLoop fuel call {| Page := page; PerPage := perPage |} runners
    = Returned (runners ++ concat pages, None).
Proof.
  induction 1 as [page records Hcall | page next records pages Hnext Hcall _ IH];
    intros fuel runners Hfuel; cbn [length] in Hfuel.
  - destruct fuel as [|fuel]; [lia|]. cbn. rewrite Hcall. cbn.
    by rewrite app_nil_r.
  - destruct fuel as [|fuel]; [lia|]. cbn. rewrite Hcall. cbn.
    destruct (Z.eqb_spec next 0) as [|_]; [done|].
    rewrite IH by lia. by rewrite <- app_assoc.
Qed.

Lemma pagedLoop_fails (page : Z) (pages : list (list Runner)) (err : GoError) :
  failsAfter call perPage page pages err ->
  ∀ (fuel : nat) (runners : list Runner),
    (length pages < fuel)%nat ->
    pagedLoop fuel call {| Page := page; PerPage := perPage |} runners
    = Returned ([], Some err).
Proof.
  induction 1 as [page err Hcall | page next records pages err Hnext Hcall _ IH];
    intros fuel runners Hfuel; cbn [length] in Hfuel.
  - destruct fuel as [|fuel]; [lia|]. cbn. by rewrite Hcall.
  - destruct fuel as [|fuel]; [lia|]. cbn. rewrite Hcall. cbn.
    destruct (Z.eqb_spec next 0) as [|_]; [done|].
    apply IH. lia.
Qed.

End Pagination.

(** C3: the paginated runner fetcher requests the first page and then
    every page the previous response announces, until a response announces
    none; it returns the records of all pages, concatenated in page order
    and in-page order, and no error.  If a request fails, after however
    many pages, it returns no record at all and the error of that request.
    The same holds for the enterprise and the organization fetchers at
    their page size of 50. *)
Theorem paged_fetcher_concatenates_or_fails (c : Runner.Client) (owner name : string) :
  (∀ pages : list (list Runner.Runner),
     Runner.servesPages (Runner.ListRunners c owner name) 200 0 pages ->
     ∀ fuel : nat, (length pages <= fuel)%nat ->
       Runner.pagedRepoRunners fuel c owner name = ([], Returned (concat pages, None))) ∧
  (∀ (pages : list (list Runner.Runner)) (err : GoError),
     Runner.failsAfter (Runner.ListRunners c owner name) 200 0 pages err ->
     ∀ fuel : nat, (length pages < fuel)%nat ->
       Runner.pagedRepoRunners fuel c owner name = ([], Returned ([], Some err))) ∧
  (∀ pages : list (list Runner.Runner),
     (Runner.servesPages (Runner.EnterpriseListRunners c name) 50 0 pages ->
      ∀ fuel : nat, (length pages <= fuel)%nat ->
        Runner.pagedEnterpriseRunners fuel c name = ([], Returned (concat pages, None))) ∧
     (Runner.servesPages (Runner.ListOrganizationRunners c name) 50 0 pages ->
      ∀ fuel : nat, (length pages <= fuel)%nat ->
        Runner.pagedOrgRunners fuel c name = ([], Returned (concat pages, None)))) ∧
  (∀ (pages : list (list Runner.Runner)) (err : GoError),
     (Runner.failsAfter (Runner.EnterpriseListRunners c name) 50 0 pages err ->
      ∀ fuel : nat, (length pages < fuel)%nat ->
        Runner.pagedEnterpriseRunners fuel c name = ([], Returned ([], Some err))) ∧
     (Runner.failsAfter (Runner.ListOrganizationRunners c name) 50 0 pages err ->
      ∀ fuel : nat, (length pages < fuel)%nat ->
        Runner.pagedOrgRunners fuel c name = ([], Returned ([], Some err)))).
Proof.
  unfold Runner.pagedRepoRunners, Runner.pagedEnterpriseRunners, Runner.pagedOrgRunners.
  repeat split; intros;
    first [ by erewrite pagedLoop_serves | by erewrite pagedLoop_fails ].
Qed.

Lemma threePages_served :
  Runner.servesPages (Runner.ListRunners (pagedClient threePages) "acme" "web") 200 0
    [runnersFrom 1 200; runnersFrom 201 200; runnersFrom 401 50].
Proof.
  apply (Runner.serves_next _ _ 0 2); [done|reflexivity|].
  apply (Runner.serves_next _ _ 2 3); [done|reflexivity|].
  apply Runner.serves_last. reflexivity.
Qed.

Lemma secondPage_fails :
  Runner.failsAfter (Runner.ListRunners (pagedClient secondPageFails) "acme" "web") 200 0
    [runnersFrom 1 200] "page 2 failed".
Proof.
  apply (Runner.fails_later _ _ 0 2); [done|reflexivity|].
  apply Runner.fails_here. reflexivity.
Qed.

(** The mock sequence of the specification: 200, 200 and 50 records give
    the 450 records in order; an error on the second page gives no record
    and that error. *)
Lemma paged_fetcher_witness :
  Runner.pagedRepoRunners 3 (pagedClient threePages) "acme" "web"
  = ([], Returned (concat [runnersFrom 1 200; runnersFrom 201 200; runnersFrom 401 50], None))
  ∧ Runner.pagedRepoRunners 3 (pagedClient secondPageFails) "acme" "web"
    = ([], Returned ([], Some "page 2 failed"))
  ∧ concat [runnersFrom 1 200; runnersFrom 201 200; runnersFrom 401 50]
    = runnersFrom 1 450.
Proof.
  split; [|split].
  - exact (proj1 (paged_fetcher_concatenates_or_fails (pagedClient threePages) "acme" "web")
             _ threePages_served 3%nat (le_n 3)).
  - exact (proj1 (proj2 (paged_fetcher_concatenates_or_fails
                           (pagedClient secondPageFails) "acme" "web"))
             _ _ secondPage_fails 3%nat (le_S _ _ (le_n 2))).
  - vm_compute. reflexivity.
Defined.


(** ** The runner collector *)

(** A property of traces that holds of every body holds of the loop,
    however the loop ends. *)
Lemma forRange_trace {A St : Type} (body : St -> A -> Go St) (P : list Event -> Prop) :
  P [] -> (∀ t1 t2, P t1 -> P t2 -> P (t1 ++ t2)) ->
  (∀ s x, P (trace (body s x))) ->
  ∀ xs s, P (trace (forRange body xs s)).
Proof.
  intros Hnil Happ Hbody. induction xs as [|x xs IH]; intros s; cbn [forRange].
  - exact Hnil.
  - rewrite Go_bind_trace. destruct (outcome (body s x)); auto.
Qed.

Section RunnerCollect.
Import Runner.

Lemma sendsNothing_app (t1 t2 : list Event) :
  sendsNothing t1 -> sendsNothing t2 -> sendsNothing (t1 ++ t2).
Proof. unfold sendsNothing. intros H1 H2. by rewrite sent_app, H1, H2. Qed.

Lemma repoRunnersRepo_sendsNothing (fuel : nat) (c : Client) (name : string)
    (result : list Runner) (repo : Repository) :
  sendsNothing (trace (repoRunnersRepo fuel c name result repo)).
Proof.
  unfold repoRunnersRepo, pagedRepoRunners, sendsNothing.
  destruct (FullName repo) as [fullName|]; [|done]. cbn.
  destruct (glob.Glob name fullName); [|done]. cbn.
  destruct (Owner repo) as [[[login|]]|]; [|done|done]. cbn.
  destruct (RepoName repo) as [repoName|]; [|done]. cbn.
  destruct (pagedLoop fuel _ _ _) as [[records [err|]]| |]; done.
Qed.

Lemma repoRunners_sendsNothing (fuel : nat) (c : Client) (cfg : Target) :
  sendsNothing (trace (repoRunners fuel c cfg)).
Proof.
  unfold repoRunners.
  apply (forRange_trace _ sendsNothing); [done|apply sendsNothing_app|].
  intros result name. unfold repoRunnersName.
  destruct (strings.Split name "/") as [|splitOwner [|splitName [|]]]; try done.
  destruct (reposByOwnerAndName c splitOwner splitName) as [repos|err]; [|done].
  apply (forRange_trace _ sendsNothing); [done|apply sendsNothing_app|].
  apply repoRunnersRepo_sendsNothing.
Qed.

Lemma enterpriseRunners_sendsNothing (fuel : nat) (c : Client) (cfg : Target) :
  sendsNothing (trace (enterpriseRunners fuel c cfg)).
Proof.
  unfold enterpriseRunners.
  apply (forRange_trace _ sendsNothing); [done|apply sendsNothing_app|].
  intros result name. unfold pagedEnterpriseRunners.
  destruct (pagedLoop fuel _ _ _) as [[records [err|]]| |]; done.
Qed.

Lemma orgRunners_sendsNothing (fuel : nat) (c : Client) (cfg : Target) :
  sendsNothing (trace (orgRunners fuel c cfg)).
Proof.
  unfold orgRunners.
  apply (forRange_trace _ sendsNothing); [done|apply sendsNothing_app|].
  intros result name. unfold pagedOrgRunners.
  destruct (pagedLoop fuel _ _ _) as [[records [err|]]| |]; done.
Qed.

Variables owner onlineDesc busyDesc : string.

(** A record without a busy flag: the online sample is sent, then the
    dereference panics. *)
Lemma collectRecord_nil_busy (record : Runner) :
  Busy record = None ->
  collectRecord owner onlineDesc busyDesc tt record
  = ([EvSend (MustNewConstMetric onlineDesc
                (if String.eqb (GetStatus record) "online" then 1%float else 0%float)
                (recordLabels owner record))],
     Panicked).
Proof. unfold collectRecord, recordLabels. intros ->. reflexivity. Qed.

Lemma collectRecord_busy (record : Runner) :
  is_Some (Busy record) ->
  collectRecord owner onlineDesc busyDesc tt record
  = (EvSend <$> recordSamples owner onlineDesc busyDesc record, Returned tt).
Proof.
  unfold collectRecord, recordSamples, recordLabels. intros [busy ->]. reflexivity.
Qed.

Lemma collectLoop_busy (records : list Runner) :
  Forall (fun r => is_Some (Busy r)) records ->
  forRange (collectRecord owner onlineDesc busyDesc) records tt
  = (EvSend <$> concat (recordSamples owner onlineDesc busyDesc <$> records), Returned tt).
Proof.
  induction 1 as [|record records Hbusy _ IH]; [done|].
  cbn [forRange]. rewrite (collectRecord_busy _ Hbusy), Go_bind_returned, IH.
  cbn [trace outcome fst snd fmap list_fmap concat]. by rewrite fmap_app.
Qed.

Lemma collectLoop_returns_busy (records : list Runner) :
  outcome (forRange (collectRecord owner onlineDesc busyDesc) records tt) = Returned tt ->
  Forall (fun r => is_Some (Busy r)) records.
Proof.
  induction records as [|record records IH]; [done|].
  cbn [forRange]. destruct (Busy record) as [busy|] eqn:Hb.
  - rewrite (collectRecord_busy record) by (rewrite Hb; by eexists).
    rewrite Go_bind_returned. cbn [outcome snd]. intros Ho.
    constructor; [rewrite Hb; by eexists | by apply IH].
  - by rewrite (collectRecord_nil_busy record Hb).
Qed.


Lemma sent_sends (ms : list Metric) : sent (EvSend <$> ms) = ms.
Proof. induction ms as [|m ms IH]; cbn; [done|]. by f_equal. Qed.

(** A block returns exactly when its fetcher returns and every record it
    fetched has a busy flag. *)
Lemma collectBlock_returns (get : Go (list Runner)) :
  outcome (collectBlock get owner onlineDesc busyDesc) = Returned tt
  ↔ ∃ records, outcome get = Returned records
               ∧ Forall (fun r => is_Some (Busy r)) records.
Proof.
  unfold collectBlock. destruct get as [t [records| |]]; cbn [outcome snd].
  - rewrite Go_bind_returned. cbn [outcome snd].
    unfold durationObserve, emit. rewrite Go_bind_returned. cbn [outcome snd]. split.
    + intros Ho. exists records. split; [done|]. by apply collectLoop_returns_busy.
    + intros (rs & [= <-] & Hbusy). by rewrite collectLoop_busy.
  - split; [done|]. by intros (rs & ? & _).
  - split; [done|]. by intros (rs & ? & _).
Qed.

Lemma collectBlock_sent (get : Go (list Runner)) (records : list Runner) :
  outcome get = Returned records -> sendsNothing (trace get) ->
  Forall (fun r => is_Some (Busy r)) records ->
  collectBlock get owner onlineDesc busyDesc
  = (trace get ++ [EvObserve "runner"]
       ++ (EvSend <$> concat (recordSamples owner onlineDesc busyDesc <$> records)),
     Returned tt).
Proof.
  unfold collectBlock. destruct get as [t o]; cbn [outcome trace fst snd].
  intros -> _ Hbusy. rewrite Go_bind_returned.
  unfold durationObserve, emit. rewrite Go_bind_returned, collectLoop_busy by done.
  reflexivity.
Qed.

End RunnerCollect.

Section RunnerCollectWhole.
Import Runner.

Lemma Collect_returns (fuel : nat) (c : Client) (cfg : Target) :
  outcome (Collect fuel c cfg) = Returned tt
  ↔ outcome (collectBlock (repoRunners fuel c cfg) "TODO: repo" RepoOnline RepoBusy)
    = Returned tt
    ∧ outcome (collectBlock (enterpriseRunners fuel c cfg) "TODO: enterprise"
                 EnterpriseOnline EnterpriseBusy) = Returned tt
    ∧ outcome (collectBlock (orgRunners fuel c cfg) "TODO: org" OrgOnline OrgBusy)
      = Returned tt.
Proof.
  unfold Collect. rewrite Go_bind_outcome.
  destruct (outcome (collectBlock (repoRunners fuel c cfg) _ _ _)) as [[]| |];
    [|by split; [|intros [? _]]..].
  cbn beta. rewrite Go_bind_outcome.
  destruct (outcome (collectBlock (enterpriseRunners fuel c cfg) _ _ _)) as [[]| |];
    [|by split; [|intros (_ & ? & _)]..].
  destruct (outcome (collectBlock (orgRunners fuel c cfg) _ _ _)) as [[]| |];
    by split; [|intros (_ & _ & ?)].
Qed.

Lemma recordSamples_length (owner onlineDesc busyDesc : string) (records : list Runner) :
  Forall (fun r => is_Some (Busy r)) records ->
  length (concat (recordSamples owner onlineDesc busyDesc <$> records))
  = (2 * length records)%nat.
Proof.
  induction 1 as [|record records [busy Hb] _ IH]; [done|].
  cbn [fmap list_fmap concat]. rewrite length_app, IH.
  unfold recordSamples. rewrite Hb. cbn. lia.
Qed.

(** C9: a record without a busy flag makes the collector panic on the
    dereference: its online sample is sent, no busy sample is sent in its
    place and the record is not skipped.  [Collect] returns only if its
    three fetchers return and every record they return has a busy flag,
    and under that condition it does return; the organization runner
    [idleRunner], fetched without a busy flag, makes [Collect] panic. *)
Theorem runner_collect_needs_busy :
  (∀ (owner onlineDesc busyDesc : string) (record : Runner),
     Busy record = None ->
     collectRecord owner onlineDesc busyDesc tt record
     = ([EvSend (MustNewConstMetric onlineDesc
                   (if String.eqb (GetStatus record) "online" then 1%float else 0%float)
                   (recordLabels owner record))],
        Panicked)) ∧
  (∀ (fuel : nat) (c : Client) (cfg : Target),
     outcome (Collect fuel c cfg) = Returned tt ->
     ∃ repo enterprise org : list Runner,
       outcome (repoRunners fuel c cfg) = Returned repo
       ∧ outcome (enterpriseRunners fuel c cfg) = Returned enterprise
       ∧ outcome (orgRunners fuel c cfg) = Returned org
       ∧ Forall (fun r => is_Some (Busy r)) (repo ++ enterprise ++ org)) ∧
  (∀ (fuel : nat) (c : Client) (cfg : Target) (repo enterprise org : list Runner),
     outcome (repoRunners fuel c cfg) = Returned repo ->
     outcome (enterpriseRunners fuel c cfg) = Returned enterprise ->
     outcome (orgRunners fuel c cfg) = Returned org ->
     Forall (fun r => is_Some (Busy r)) (repo ++ enterprise ++ org) ->
     outcome (Collect fuel c cfg) = Returned tt) ∧
  (Busy idleRunner = None
   ∧ outcome (orgRunners 1 idleClient acmeOrg) = Returned [idleRunner]
   ∧ outcome (Collect 1 idleClient acmeOrg) = Panicked
   ∧ sent (trace (Collect 1 idleClient acmeOrg))
     = [MustNewConstMetric OrgOnline 0 ["TODO: org"; "9"; "spare"; "linux"; "offline"]]).
Proof.
  split; [|split; [|split]].
  - intros. by apply collectRecord_nil_busy.
  - intros fuel c cfg (H1 & H2 & H3)%Collect_returns.
    apply collectBlock_returns in H1 as (repo & Hr & Hbr).
    apply collectBlock_returns in H2 as (enterprise & He & Hbe).
    apply collectBlock_returns in H3 as (org & Ho & Hbo).
    exists repo, enterprise, org. repeat split; try done.
    by rewrite !Forall_app.
  - intros fuel c cfg repo enterprise org Hr He Ho Hbusy.
    apply Forall_app in Hbusy as [Hbr Hbusy]. apply Forall_app in Hbusy as [Hbe Hbo].
    apply Collect_returns. repeat split; apply collectBlock_returns; by eexists.
  - repeat split; reflexivity.
Qed.

(** C7, as amended: the runner collector does not deduplicate.  When its
    fetchers return and every record has a busy flag, [Collect] sends, for
    every record fetched and in the order fetched, one sample of the online
    family and one of the busy family of its scope: twice as many samples
    as records, whether or not two records share scope and id. *)
Theorem runner_collect_sends_every_record (fuel : nat) (c : Client) (cfg : Target)
    (repo enterprise org : list Runner) :
  outcome (repoRunners fuel c cfg) = Returned repo ->
  outcome (enterpriseRunners fuel c cfg) = Returned enterprise ->
  outcome (orgRunners fuel c cfg) = Returned org ->
  Forall (fun r => is_Some (Busy r)) (repo ++ enterprise ++ org) ->
  sent (trace (Collect fuel c cfg))
  = concat (recordSamples "TODO: repo" RepoOnline RepoBusy <$> repo)
    ++ concat (recordSamples "TODO: enterprise" EnterpriseOnline EnterpriseBusy <$> enterprise)
    ++ concat (recordSamples "TODO: org" OrgOnline OrgBusy <$> org)
  ∧ length (sent (trace (Collect fuel c cfg)))
    = (2 * (length repo + length enterprise + length org))%nat.
Proof.
  intros Hr He Ho Hbusy.
  apply Forall_app in Hbusy as [Hbr Hbusy]. apply Forall_app in Hbusy as [Hbe Hbo].
  assert (Hsent : sent (trace (Collect fuel c cfg))
    = concat (recordSamples "TODO: repo" RepoOnline RepoBusy <$> repo)
      ++ concat (recordSamples "TODO: enterprise" EnterpriseOnline EnterpriseBusy
                   <$> enterprise)
      ++ concat (recordSamples "TODO: org" OrgOnline OrgBusy <$> org)).
  { unfold Collect.
    rewrite (collectBlock_sent _ _ _ _ repo Hr (repoRunners_sendsNothing _ _ _) Hbr).
    rewrite (collectBlock_sent _ _ _ _ enterprise He
               (enterpriseRunners_sendsNothing _ _ _) Hbe).
    rewrite (collectBlock_sent _ _ _ _ org Ho (orgRunners_sendsNothing _ _ _) Hbo).
    cbn [mbind Go_bind trace fst]. rewrite !sent_app, !sent_sends.
    rewrite (repoRunners_sendsNothing fuel c cfg),
      (enterpriseRunners_sendsNothing fuel c cfg), (orgRunners_sendsNothing fuel c cfg).
    reflexivity. }
  split; [exact Hsent|].
  rewrite Hsent, !length_app, !recordSamples_length by done. lia.
Qed.

End RunnerCollectWhole.

(** C7, as stated, fails: with the repository acme/web configured by name
    and matched by a pattern as well, its runner 7 is fetched twice, and
    both fetches are sent: two samples of each repository family under the
    same scope and id. *)
Lemma runner_collect_counterexample :
  (fun m => (metricName m, Runner.runnerKey m))
    <$> sent (trace (Runner.Collect 2 webClient webTwice))
  = [(Runner.RepoOnline, ("TODO: repo", "7")); (Runner.RepoBusy, ("TODO: repo", "7"));
     (Runner.RepoOnline, ("TODO: repo", "7")); (Runner.RepoBusy, ("TODO: repo", "7"))]
  ∧ ¬ Runner.onePerKey (sent (trace (Runner.Collect 2 webClient webTwice))).
Proof.
  assert (Heq : (fun m => (metricName m, Runner.runnerKey m))
                  <$> sent (trace (Runner.Collect 2 webClient webTwice))
                = [(Runner.RepoOnline, ("TODO: repo", "7"));
                   (Runner.RepoBusy, ("TODO: repo", "7"));
                   (Runner.RepoOnline, ("TODO: repo", "7"));
                   (Runner.RepoBusy, ("TODO: repo", "7"))])
    by (vm_compute; reflexivity).
  split; [exact Heq|].
  unfold Runner.onePerKey. rewrite Heq. intros [Hnotin _]%NoDup_cons.
  apply Hnotin. set_solver.
Qed.

Lemma runner_collect_sends_every_record_witness :
  sent (trace (Runner.Collect 2 webClient webTwice))
  = concat (Runner.recordSamples "TODO: repo" Runner.RepoOnline Runner.RepoBusy
              <$> [webRunner; webRunner])
    ++ concat (Runner.recordSamples "TODO: enterprise" Runner.EnterpriseOnline
                 Runner.EnterpriseBusy <$> [])
    ++ concat (Runner.recordSamples "TODO: org" Runner.OrgOnline Runner.OrgBusy <$> [])
  ∧ length (sent (trace (Runner.Collect 2 webClient webTwice)))
    = (2 * (length [webRunner; webRunner] + length (@nil Runner.Runner)
            + length (@nil Runner.Runner)))%nat.
Proof.
  apply (runner_collect_sends_every_record 2 webClient webTwice
           [webRunner; webRunner] [] []); [reflexivity..|].
  repeat constructor; by eexists.
Defined.

(** ** Byte strings *)

Section StringFacts.
Implicit Types a b s sub : string.

Lemma string_app_cons (c : ascii) a b : String c a +:+ b = String c (a +:+ b).
Proof. reflexivity. Qed.

Lemma string_app_nil_l a : "" +:+ a = a.
Proof. reflexivity. Qed.

Lemma string_app_assoc a b s : (a +:+ b) +:+ s = a +:+ (b +:+ s).
Proof.
  induction a as [|c a IH]; [done|]. rewrite !string_app_cons. by f_equal.
Qed.

Lemma string_app_nil_r a : a +:+ "" = a.
Proof.
  induction a as [|c a IH]; [done|]. rewrite string_app_cons. by f_equal.
Qed.

Lemma string_length_app a b :
  String.length (a +:+ b) = (String.length a + String.length b)%nat.
Proof.
  induction a as [|c a IH]; [done|]. rewrite string_app_cons.
  cbn [String.length]. by rewrite IH.
Qed.

Lemma string_app_inv_head a b s : a +:+ b = a +:+ s -> b = s.
Proof.
  induction a as [|c a IH]; [done|]. rewrite !string_app_cons.
  intros [= Heq]. by apply IH.
Qed.

(** Of two ways to split a string, the one with the shorter head has the
    longer tail. *)
Lemma string_app_tail a a' b b' :
  a +:+ b = a' +:+ b' -> (String.length a <= String.length a')%nat ->
  ∃ x, b = x +:+ b'.
Proof.
  revert a'; induction a as [|c a IH]; intros a' Heq Hlen.
  - by exists a'.
  - destruct a' as [|c' a']; [cbn in Hlen; lia|].
    rewrite !string_app_cons in Heq. cbn [String.length] in Hlen.
    injection Heq as _ Heq. apply (IH a'); [done|lia].
Qed.

Lemma HasPrefix_iff s sub : strings.HasPrefix s sub = true ↔ ∃ r, s = sub +:+ r.
Proof.
  revert s; induction sub as [|p sub IH]; intros s.
  - split; [by exists s|]. by destruct s.
  - destruct s as [|c s]; cbn [strings.HasPrefix].
    + split; [done|]. intros (r & Hr). by rewrite string_app_cons in Hr.
    + rewrite andb_true_iff, Ascii.eqb_eq, IH. split.
      * intros (-> & r & ->). by exists r.
      * intros (r & Hr). rewrite string_app_cons in Hr. injection Hr as -> ->.
        split; [done|by exists r].
Qed.

Lemma sliceFrom_app a b : strings.sliceFrom (String.length a) (a +:+ b) = b.
Proof.
  induction a as [|c a IH]; [by destruct b|].
  rewrite string_app_cons. exact IH.
Qed.

Lemma sliceFrom_split (n : nat) s :
  (n <= String.length s)%nat ->
  ∃ a, s = a +:+ strings.sliceFrom n s ∧ String.length a = n.
Proof.
  revert s; induction n as [|n IH]; intros s Hn.
  - exists "". by destruct s.
  - destruct s as [|c s]; [cbn in Hn; lia|]. cbn [String.length] in Hn.
    destruct (IH s) as (a & Heq & Hlen); [lia|].
    exists (String c a). rewrite string_app_cons. cbn [strings.sliceFrom String.length].
    split; [by rewrite <- Heq|by rewrite Hlen].
Qed.

Lemma HasSuffix_iff s sub : strings.HasSuffix s sub = true ↔ ∃ a, s = a +:+ sub.
Proof.
  unfold strings.HasSuffix. rewrite andb_true_iff, Nat.leb_le, String.eqb_eq. split.
  - intros [Hlen Heq].
    destruct (sliceFrom_split (String.length s - String.length sub) s) as (a & Hs & _);
      [lia|].
    exists a. by rewrite <- Heq.
  - intros (a & ->). rewrite string_length_app. split; [lia|].
    replace (String.length a + String.length sub - String.length sub)%nat
      with (String.length a) by lia.
    apply sliceFrom_app.
Qed.

Lemma Index_unfold (c : ascii) s sub :
  strings.Index (String c s) sub
  = if strings.HasPrefix (String c s) sub then 0
    else if strings.Index s sub <? 0 then -1 else strings.Index s sub + 1.
Proof. reflexivity. Qed.

Lemma Index_lower_bound s sub : -1 <= strings.Index s sub.
Proof.
  induction s as [|c s IH].
  - cbn. destruct sub; cbn; lia.
  - rewrite Index_unfold. destruct (strings.HasPrefix (String c s) sub); [lia|].
    destruct (Z.ltb_spec (strings.Index s sub) 0); lia.
Qed.

Lemma Index_zero s sub : strings.Index s sub = 0 ↔ strings.HasPrefix s sub = true.
Proof.
  destruct s as [|c s].
  - cbn. destruct sub; cbn; [done|]. split; [lia|done].
  - rewrite Index_unfold. destruct (strings.HasPrefix (String c s) sub); [done|].
    pose proof (Index_lower_bound s sub).
    destruct (Z.ltb_spec (strings.Index s sub) 0); split; (lia || done).
Qed.

Lemma Index_found s sub :
  0 <= strings.Index s sub ->
  ∃ a b, s = a +:+ sub +:+ b ∧ Z.of_nat (String.length a) = strings.Index s sub.
Proof.
  induction s as [|c s IH].
  - intros Hi. assert (Hz : strings.Index "" sub = 0).
    { revert Hi. cbn. destruct sub; cbn; lia. }
    apply Index_zero, HasPrefix_iff in Hz as (r & Hr).
    exists "", r. cbn. split; [done|]. revert Hi. cbn. destruct sub; cbn; lia.
  - rewrite Index_unfold. destruct (strings.HasPrefix (String c s) sub) eqn:Hp.
    + intros _. apply HasPrefix_iff in Hp as (r & Hr). by exists "", r.
    + destruct (Z.ltb_spec (strings.Index s sub) 0) as [|Hi]; [lia|]. intros _.
      destruct (IH Hi) as (a & b & Heq & Hlen).
      exists (String c a), b. rewrite string_app_cons, <- Heq.
      cbn [String.length]. split; [done|lia].
Qed.

Lemma Index_upper_bound a sub b :
  0 <= strings.Index (a +:+ sub +:+ b) sub <= Z.of_nat (String.length a).
Proof.
  induction a as [|c a IH].
  - rewrite string_app_nil_l.
    assert (Hp : strings.HasPrefix (sub +:+ b) sub = true)
      by (apply HasPrefix_iff; by exists b).
    apply Index_zero in Hp. rewrite Hp. cbn. lia.
  - rewrite string_app_cons, Index_unfold. cbn [String.length].
    destruct (strings.HasPrefix (String c (a +:+ sub +:+ b)) sub); [lia|].
    destruct (Z.ltb_spec (strings.Index (a +:+ sub +:+ b) sub) 0); lia.
Qed.

End StringFacts.

(** ** The glob of the repository filter *)

Section GlobFacts.
Import glob.
Implicit Types pattern subj part s q : string.

Lemma starFree_cons (c : ascii) part :
  starFree (String c part) ↔ c ≠ "*"%char ∧ starFree part.
Proof.
  unfold starFree. cbn [strings.allBytes].
  rewrite andb_true_iff, negb_true_iff, Ascii.eqb_neq. done.
Qed.


Lemma Split_nonempty s (sep : ascii) : strings.Split s sep ≠ [].
Proof.
  destruct s as [|c s]; cbn; [done|].
  destruct (Ascii.eqb c sep); [done|]. by destruct (strings.Split s sep).
Qed.

Lemma Split_sep s : strings.Split (String "*"%char s) "*"%char = "" :: strings.Split s "*"%char.
Proof. reflexivity. Qed.

Lemma Split_other (c : ascii) s :
  c ≠ "*"%char ->
  ∃ part parts, strings.Split s "*"%char = part :: parts
                ∧ strings.Split (String c s) "*"%char = String c part :: parts.
Proof.
  intros Hc. cbn [strings.Split].
  destruct (Ascii.eqb_spec c "*"%char) as [|_]; [done|].
  destruct (strings.Split s "*"%char) as [|part parts] eqn:Hs.
  - by apply Split_nonempty in Hs.
  - by exists part, parts.
Qed.

Lemma join_cons part part' parts :
  join (part :: part' :: parts) = part +:+ "*" +:+ join (part' :: parts).
Proof. reflexivity. Qed.

Lemma join_Split s : join (strings.Split s "*"%char) = s.
Proof.
  induction s as [|c s IH]; [done|].
  destruct (Ascii.eqb_spec c "*"%char) as [->|Hc].
  - rewrite Split_sep.
    destruct (strings.Split s "*"%char) as [|part parts] eqn:Hs;
      [by apply Split_nonempty in Hs|].
    rewrite join_cons, IH. reflexivity.
  - destruct (Split_other c s Hc) as (part & parts & Hs & ->).
    rewrite Hs in IH. destruct parts as [|part' parts].
    + cbn in IH |- *. by rewrite IH.
    + rewrite join_cons in IH |- *. rewrite string_app_cons. by rewrite IH.
Qed.

Lemma starFree_Split s : Forall starFree (strings.Split s "*"%char).
Proof.
  induction s as [|c s IH]; [by repeat constructor|].
  destruct (Ascii.eqb_spec c "*"%char) as [->|Hc].
  - rewrite Split_sep. by constructor.
  - destruct (Split_other c s Hc) as (part & parts & Hs & ->).
    rewrite Hs in IH. apply Forall_cons in IH as [Hpart Hparts].
    constructor; [|done]. by apply starFree_cons.
Qed.


(** The first part is empty exactly when the pattern starts with a
    glob. *)
Lemma Split_leading s part parts :
  strings.Split s "*"%char = part :: parts -> parts ≠ [] ->
  strings.HasPrefix s GLOB = true ↔ part = "".
Proof.
  destruct s as [|c s]; [cbn; by intros [= <- <-] Hne|].
  destruct (Ascii.eqb_spec c "*"%char) as [->|Hc].
  - rewrite Split_sep. intros [= <- _] _. split; [done|]. intros _.
    apply HasPrefix_iff. by exists s.
  - destruct (Split_other c s Hc) as (part' & parts' & _ & ->).
    intros [= <- _] _. cbn. apply Ascii.eqb_neq in Hc. rewrite Hc. done.
Qed.

Lemma Split_snoc_sep s : strings.Split (s +:+ "*") "*"%char = strings.Split s "*"%char ++ [""].
Proof.
  induction s as [|c s IH]; [done|]. rewrite string_app_cons.
  destruct (Ascii.eqb_spec c "*"%char) as [->|Hc].
  - by rewrite !Split_sep, IH.
  - destruct (Split_other c s Hc) as (part & parts & Hs & ->).
    destruct (Split_other c (s +:+ "*") Hc) as (part' & parts' & Hs' & ->).
    rewrite IH, Hs in Hs'. by injection Hs' as <- <-.
Qed.

(** The last part is empty when the pattern ends with a glob. *)
Lemma Split_trailing s :
  strings.HasSuffix s GLOB = true -> last (strings.Split s "*"%char) = Some "".
Proof.
  intros (a & ->)%HasSuffix_iff. rewrite Split_snoc_sep. apply last_snoc.
Qed.

(** *** The declarative matcher *)

Lemma wildcardMatch_nil (qmark : bool) subj :
  wildcardMatch qmark "" subj = true ↔ subj = "".
Proof. by destruct subj. Qed.

Lemma wildcardMatch_star_unfold (qmark : bool) q subj :
  wildcardMatch qmark (String "*"%char q) subj
  = wildcardMatch qmark q subj
    || match subj with
       | EmptyString => false
       | String _ subj' => wildcardMatch qmark (String "*"%char q) subj'
       end.
Proof. by destruct subj. Qed.

Lemma wildcardMatch_star (qmark : bool) q subj :
  wildcardMatch qmark (String "*"%char q) subj = true
  ↔ ∃ a b, subj = a +:+ b ∧ wildcardMatch qmark q b = true.
Proof.
  split.
  - induction subj as [|c subj IH]; rewrite wildcardMatch_star_unfold, orb_true_iff.
    + intros [Hq|?]; [|done]. by exists "", "".
    + intros [Hq|Hrec]; [by exists "", (String c subj)|].
      destruct (IH Hrec) as (a & b & -> & Hb). by exists (String c a), b.
  - intros (a & b & -> & Hb). induction a as [|c a IH].
    + rewrite string_app_nil_l, wildcardMatch_star_unfold, Hb. done.
    + rewrite string_app_cons, wildcardMatch_star_unfold, IH. apply orb_true_r.
Qed.

Lemma wildcardMatch_char (c : ascii) q subj :
  c ≠ "*"%char ->
  wildcardMatch false (String c q) subj = true
  ↔ ∃ subj', subj = String c subj' ∧ wildcardMatch false q subj' = true.
Proof.
  intros Hc. cbn [wildcardMatch].
  destruct (Ascii.eqb_spec c "*"%char) as [|_]; [done|].
  destruct subj as [|d subj]; [split; [done|by intros (? & ? & _)]|].
  cbn [andb orb]. rewrite andb_true_iff, Ascii.eqb_eq. split.
  - intros [-> Hq]. by exists subj.
  - intros (subj' & [= -> ->] & Hq). done.
Qed.

(** A part without glob matches itself at the front of the subject. *)
Lemma wildcardMatch_literal part q subj :
  starFree part ->
  wildcardMatch false (part +:+ q) subj = true
  ↔ ∃ r, subj = part +:+ r ∧ wildcardMatch false q r = true.
Proof.
  revert subj; induction part as [|c part IH]; intros subj Hfree.
  - rewrite string_app_nil_l. split; [by exists subj|]. by intros (r & -> & Hr).
  - apply starFree_cons in Hfree as [Hc Hfree].
    rewrite string_app_cons, (wildcardMatch_char c _ _ Hc). split.
    + intros (subj' & -> & (r & -> & Hr)%IH); [|done]. by exists r.
    + intros (r & -> & Hr). exists (part +:+ r). split; [done|].
      apply IH; [done|]. by exists r.
Qed.

Lemma wildcardMatch_exact part subj :
  starFree part -> wildcardMatch false part subj = true ↔ subj = part.
Proof.
  intros Hfree. rewrite <- (string_app_nil_r part) at 1.
  rewrite (wildcardMatch_literal _ _ _ Hfree). split.
  - intros (r & -> & ->%wildcardMatch_nil). apply string_app_nil_r.
  - intros ->. exists "". by rewrite string_app_nil_r.
Qed.

(** After a glob, the subject may be extended on the left. *)
Lemma wildcardMatch_star_extend (qmark : bool) q x subj :
  wildcardMatch qmark (String "*"%char q) subj = true ->
  wildcardMatch qmark (String "*"%char q) (x +:+ subj) = true.
Proof.
  intros (a & b & -> & Hb)%wildcardMatch_star. apply wildcardMatch_star.
  exists (x +:+ a), b. by rewrite string_app_assoc.
Qed.

End GlobFacts.

Section GlobCorrect.
Import glob.
Implicit Types pattern subj part s q : string.

Lemma HasSuffix_nil subj : strings.HasSuffix subj "" = true.
Proof. apply HasSuffix_iff. exists subj. by rewrite string_app_nil_r. Qed.

Lemma wildcardMatch_suffix part subj :
  starFree part ->
  wildcardMatch false (String "*" part) subj = true ↔ strings.HasSuffix subj part = true.
Proof.
  intros Hfree. rewrite wildcardMatch_star, HasSuffix_iff. split.
  - intros (a & b & -> & Hb). apply (wildcardMatch_exact _ _ Hfree) in Hb as ->.
    by exists a.
  - intros (a & ->). exists a, part. split; [done|]. by apply wildcardMatch_exact.
Qed.

Lemma sliceFrom_after a part b (idx : Z) :
  Z.of_nat (String.length a) = idx ->
  strings.sliceFrom (Z.to_nat (idx + Z.of_nat (String.length part))) (a +:+ part +:+ b) = b.
Proof.
  intros <-. rewrite <- Nat2Z.inj_add, Nat2Z.id, <- string_length_app.
  rewrite <- string_app_assoc. apply sliceFrom_app.
Qed.

(** A part between two globs matches at its first occurrence. *)
Lemma wildcardMatch_middle part q subj :
  starFree part ->
  wildcardMatch false (String "*" (part +:+ String "*" q)) subj = true
  ↔ 0 <= strings.Index subj part
    ∧ wildcardMatch false (String "*" q)
        (strings.sliceFrom
           (Z.to_nat (strings.Index subj part + Z.of_nat (String.length part))) subj)
      = true.
Proof.
  intros Hfree. split.
  - intros (a & b & -> & Hb)%wildcardMatch_star.
    apply (wildcardMatch_literal _ _ _ Hfree) in Hb as (r & -> & Hr).
    pose proof (Index_upper_bound a part r) as [Hlo Hhi]. split; [done|].
    destruct (Index_found _ _ Hlo) as (a0 & b0 & Heq & Hlen).
    rewrite Heq at 2. rewrite (sliceFrom_after a0 part b0 _ Hlen).
    destruct (string_app_tail (a0 +:+ part) (a +:+ part) b0 r) as (x & ->).
    + by rewrite !string_app_assoc.
    + rewrite !string_length_app. lia.
    + by apply wildcardMatch_star_extend.
  - intros [Hlo Hm]. destruct (Index_found _ _ Hlo) as (a0 & b0 & Heq & Hlen).
    rewrite Heq in Hm at 2. rewrite (sliceFrom_after a0 part b0 _ Hlen) in Hm.
    apply wildcardMatch_star. exists a0, (part +:+ b0). split; [done|].
    apply (wildcardMatch_literal _ _ _ Hfree). by exists b0.
Qed.

Lemma globParts_unfold (first leadingGlob trailingGlob : bool) part part'
    (rest : list string) subj :
  globParts first leadingGlob trailingGlob (part :: part' :: rest) subj
  = if (if first then negb leadingGlob && negb (strings.Index subj part =? 0)
        else strings.Index subj part <? 0)
    then false
    else globParts false leadingGlob trailingGlob (part' :: rest)
           (strings.sliceFrom
              (Z.to_nat (strings.Index subj part + Z.of_nat (String.length part))) subj).
Proof. reflexivity. Qed.

Lemma join_star part part' (rest : list string) :
  join (part :: part' :: rest) = part +:+ String "*" (join (part' :: rest)).
Proof. reflexivity. Qed.

(** The iterations after the first, and the test of the last part. *)
Lemma globParts_rest (leadingGlob trailingGlob : bool) (parts : list string) subj :
  parts ≠ [] -> Forall starFree parts ->
  (trailingGlob = true -> last parts = Some "") ->
  globParts false leadingGlob trailingGlob parts subj
  = wildcardMatch false (String "*" (join parts)) subj.
Proof.
  revert subj. induction parts as [|part [|part' rest] IH]; intros subj Hne Hfree Htg;
    [done| |].
  - apply Forall_cons in Hfree as [Hfree _]. cbn [globParts join].
    apply eq_true_iff_eq. rewrite (wildcardMatch_suffix _ _ Hfree), orb_true_iff.
    split; [|by right]. intros [Ht|Hs]; [|done].
    apply Htg in Ht. injection Ht as ->. apply HasSuffix_nil.
  - apply Forall_cons in Hfree as [Hfree Hrest].
    rewrite globParts_unfold, join_star. apply eq_true_iff_eq.
    rewrite (wildcardMatch_middle _ _ _ Hfree).
    destruct (Z.ltb_spec (strings.Index subj part) 0) as [Hneg|Hpos].
    + split; [done|lia].
    + rewrite IH; [|done|done|done]. split; [by split|by intros [_ ?]].
Qed.

(** The first iteration. *)
Lemma globParts_first (leadingGlob trailingGlob : bool) part part'
    (rest : list string) subj :
  (leadingGlob = true ↔ part = "") ->
  Forall starFree (part :: part' :: rest) ->
  (trailingGlob = true -> last (part :: part' :: rest) = Some "") ->
  globParts true leadingGlob trailingGlob (part :: part' :: rest) subj
  = wildcardMatch false (join (part :: part' :: rest)) subj.
Proof.
  intros Hlg Hfree Htg. apply Forall_cons in Hfree as [Hfree Hrest].
  rewrite globParts_unfold, join_star.
  destruct leadingGlob.
  - assert (part = "") as -> by (by apply Hlg). cbn [negb andb].
    assert (Hidx : strings.Index subj "" = 0)
      by (apply Index_zero, HasPrefix_iff; by exists subj).
    rewrite Hidx. cbn [String.length Z.of_nat Z.add Z.to_nat strings.sliceFrom].
    rewrite string_app_nil_l. by apply globParts_rest.
  - cbn [negb andb]. apply eq_true_iff_eq.
    rewrite (wildcardMatch_literal _ _ _ Hfree).
    destruct (Z.eqb_spec (strings.Index subj part) 0) as [Hidx|Hidx]; cbn [negb].
    + pose proof Hidx as (r & ->)%Index_zero%HasPrefix_iff.
      rewrite Hidx, Z.add_0_l, Nat2Z.id, sliceFrom_app, globParts_rest by done. split.
      * intros Hr. by exists r.
      * by intros (r' & <-%string_app_inv_head & Hr).
    + split; [done|]. intros (r & -> & _). destruct Hidx.
      apply Index_zero, HasPrefix_iff. by exists r.
Qed.

(** [Glob] is anchored, case-sensitive matching with [*] as the only
    wildcard. *)
Lemma Glob_wildcardMatch pattern subj :
  Glob pattern subj = wildcardMatch false pattern subj.
Proof.
  unfold Glob.
  destruct (String.eqb_spec pattern "") as [->|Hne].
  { apply eq_true_iff_eq. by rewrite String.eqb_eq, wildcardMatch_nil. }
  destruct (String.eqb_spec pattern GLOB) as [->|Hng].
  { symmetry. apply wildcardMatch_star. exists subj, "".
    by rewrite string_app_nil_r. }
  pose proof (join_Split pattern) as Hjoin.
  pose proof (starFree_Split pattern) as Hfree.
  destruct (strings.Split pattern "*") as [|part [|part' rest]] eqn:Hsplit.
  - by apply Split_nonempty in Hsplit.
  - cbn [length Nat.eqb]. cbn in Hjoin. subst part.
    apply Forall_cons in Hfree as [Hfree _].
    apply eq_true_iff_eq. by rewrite String.eqb_eq, wildcardMatch_exact.
  - cbn [length Nat.eqb]. rewrite <- Hjoin at 3.
    apply globParts_first; [|done|].
    + by apply (Split_leading pattern part (part' :: rest)).
    + intros Ht. rewrite <- Hsplit. by apply Split_trailing.
Qed.

(** A pattern without glob matches itself only, whatever else it holds. *)
Lemma Glob_no_wildcard pattern subj :
  starFree pattern -> Glob pattern subj = true ↔ subj = pattern.
Proof. intros Hfree. rewrite Glob_wildcardMatch. by apply wildcardMatch_exact. Qed.

End GlobCorrect.

(** ** The repository filter of the runner collector *)

Lemma Go_ret_bind {A B : Type} (a : A) (k : A -> Go B) : mret a ≫= k = k a.
Proof. cbn. by destruct (k a). Qed.

Lemma Go_bind_ext {A B : Type} (m : Go A) (k k' : A -> Go B) :
  (∀ a, k a = k' a) -> m ≫= k = m ≫= k'.
Proof. intros Hk. destruct m as [t [a| |]]; cbn; [|done..]. by rewrite Hk. Qed.

Section RepoFilter.
Import Runner.

(** A repository whose full name does not match is passed over without
    any effect. *)
Lemma repoRunnersRepo_skips (fuel : nat) (c : Client) (name : string)
    (result : list Runner) (repo : Repository) :
  is_Some (FullName repo) -> matchesName name repo = false ->
  repoRunnersRepo fuel c name result repo = mret result.
Proof.
  unfold matchesName, repoRunnersRepo. intros [fullName ->] Hm.
  cbn [deref]. rewrite Go_ret_bind, Glob_wildcardMatch, Hm. reflexivity.
Qed.

Lemma repoRunnersRepo_filter (fuel : nat) (c : Client) (name : string)
    (repos : list Repository) (result : list Runner) :
  Forall (fun repo => is_Some (FullName repo)) repos ->
  forRange (repoRunnersRepo fuel c name) repos result
  = forRange (repoRunnersRepo fuel c name)
      (filter (fun repo => matchesName name repo = true) repos) result.
Proof.
  intros Hfull. revert result.
  induction Hfull as [|repo repos Hrepo _ IH]; intros result; [done|].
  rewrite filter_cons. cbn [forRange].
  destruct (decide (matchesName name repo = true)) as [Hm|Hm].
  - cbn [forRange]. by apply Go_bind_ext.
  - apply not_true_is_false in Hm.
    rewrite (repoRunnersRepo_skips fuel c name result repo Hrepo Hm), Go_ret_bind.
    apply IH.
Qed.

End RepoFilter.

(** ** The v5 billing collector: deduplication *)

Section V5Dedup.
Import V5.

Lemma dedupKey_joinFields (item : UsageItem) : dedupKey item = joinFields (keyFields item).
Proof. reflexivity. Qed.

Lemma collectItem_seen (collected : gmap string bool) (item : UsageItem) :
  default false (collected !! dedupKey item) = true ->
  ∃ log, collectItem collected item = ([EvLog log], Returned collected).
Proof. unfold collectItem. cbn zeta. intros ->. by eexists. Qed.

Lemma collectItem_new (collected : gmap string bool) (item : UsageItem) :
  default false (collected !! dedupKey item) = false ->
  ∃ log, collectItem collected item
         = (EvLog log :: (EvSend <$> sampleSet item),
            Returned (<[dedupKey item := true]> collected)).
Proof. unfold collectItem. cbn zeta. intros ->. by eexists. Qed.

(** The samples of the loop of [Collect], when [collected] holds the keys
    of the items met before. *)
Lemma collectLoop_sent (items before : list UsageItem) (collected : gmap string bool) :
  (∀ k, default false (collected !! k) = true ↔ k ∈ dedupKey <$> before) ->
  sent (trace (forRange collectItem items collected))
  = concat (sampleSet <$> firstOfKey before items).
Proof.
  revert before collected.
  induction items as [|item items IH]; intros before collected Hinv; [done|].
  cbn [forRange firstOfKey].
  destruct (default false (collected !! dedupKey item)) eqn:Hseen.
  - destruct (collectItem_seen _ _ Hseen) as (log & ->).
    rewrite bool_decide_true by (by apply Hinv).
    rewrite Go_bind_returned. cbn [trace fst]. rewrite sent_app.
    change (sent [EvLog log]) with (@nil Metric). rewrite app_nil_l.
    rewrite (IH (before ++ [item]) collected); [done|].
    intros k. rewrite fmap_app, elem_of_app, <- Hinv. cbn.
    rewrite list_elem_of_singleton. split; [by left|].
    intros [?| ->]; [done|]. exact Hseen.
  - destruct (collectItem_new _ _ Hseen) as (log & ->).
    rewrite bool_decide_false.
    2:{ intros Hin. apply Hinv in Hin. congruence. }
    rewrite Go_bind_returned. cbn [trace fst].
    change (EvLog log :: (EvSend <$> sampleSet item))
      with ([EvLog log] ++ (EvSend <$> sampleSet item)).
    rewrite !sent_app, sent_sends.
    change (sent [EvLog log]) with (@nil Metric). rewrite app_nil_l.
    cbn [app fmap list_fmap concat].
    rewrite (IH (before ++ [item]) (<[dedupKey item := true]> collected)); [done|].
    intros k. rewrite fmap_app, elem_of_app. cbn. rewrite list_elem_of_singleton.
    destruct (decide (k = dedupKey item)) as [->|Hk].
    + rewrite lookup_insert_eq. cbn. split; [by right|done].
    + rewrite lookup_insert_ne by done. rewrite Hinv. split; [by left|].
      by intros [?|?].
Qed.

Lemma firstOfKey_app (before xs ys : list UsageItem) :
  firstOfKey before (xs ++ ys) = firstOfKey before xs ++ firstOfKey (before ++ xs) ys.
Proof.
  revert before; induction xs as [|x xs IH]; intros before; cbn [app firstOfKey].
  - by rewrite app_nil_r.
  - by rewrite IH, <- !app_assoc.
Qed.

(** The keys of the kept items are pairwise distinct and none occurs
    before. *)
Lemma firstOfKey_NoDup (before items : list UsageItem) :
  NoDup (dedupKey <$> firstOfKey before items)
  ∧ ∀ k, k ∈ dedupKey <$> firstOfKey before items -> k ∉ dedupKey <$> before.
Proof.
  revert before; induction items as [|item items IH]; intros before; cbn [firstOfKey].
  - split; [constructor|]. intros k Hk. by apply elem_of_nil in Hk.
  - destruct (IH (before ++ [item])) as [Hnd Hfresh].
    assert (Hrest : ∀ k, k ∈ dedupKey <$> firstOfKey (before ++ [item]) items ->
                         (k ∉ dedupKey <$> before) ∧ k ≠ dedupKey item).
    { intros k Hk. specialize (Hfresh k Hk).
      rewrite fmap_app, elem_of_app in Hfresh. cbn in Hfresh.
      rewrite list_elem_of_singleton in Hfresh. split; intros ?; apply Hfresh; auto. }
    destruct (bool_decide_reflect (dedupKey item ∈ dedupKey <$> before)) as [Hin|Hout];
      cbn [app].
    + split; [done|]. intros k Hk. by apply Hrest.
    + cbn [fmap list_fmap]. split.
      * constructor; [|done]. intros Hk. by apply Hrest in Hk as [_ ?].
      * intros k [->|Hk]%elem_of_cons; [done|]. by apply Hrest.
Qed.

Lemma dedupKey_differs_in_date (x y : UsageItem) :
  sameButDate x y -> Date x ≠ Date y -> dedupKey x ≠ dedupKey y.
Proof.
  intros (Ht & Hn & Hp & Hs) Hd Hk. apply Hd. unfold dedupKey in Hk.
  rewrite Ht, Hn, Hp, Hs in Hk.
  repeat (apply string_app_inv_head in Hk). exact Hk.
Qed.

(** [Collect] of the v5 billing collector sends the sample set of exactly
    those items that are the first of their key, in order: an item is kept
    when no earlier item has its key, and dropped otherwise, and a kept
    item's samples carry its own values, so nothing is merged.  The key is
    the composite of type, name, product, SKU and date: the kept items have
    pairwise distinct composites, items with the same composite have the
    same key, and two items that differ only in date have different keys and
    are both kept. *)
Theorem v5_dedup_first_key_wins (c : Client) (cfg : Target) :
  let items := usageItemsOf c cfg in
  sent (trace (Collect c cfg)) = concat (sampleSet <$> firstOfKey [] items)
  ∧ NoDup (keyFields <$> firstOfKey [] items)
  ∧ (∀ (pre post : list UsageItem) (item : UsageItem),
       items = pre ++ item :: post ->
       firstOfKey [] items
       = firstOfKey [] pre
         ++ (if bool_decide (dedupKey item ∈ dedupKey <$> pre) then [] else [item])
         ++ firstOfKey (pre ++ [item]) post)
  ∧ (∀ x y : UsageItem, keyFields x = keyFields y -> dedupKey x = dedupKey y)
  ∧ (∀ x y : UsageItem,
       sameButDate x y -> Date x ≠ Date y ->
       dedupKey x ≠ dedupKey y ∧ firstOfKey [] [x; y] = [x; y]).
Proof.
  cbn zeta. split; [|split; [|split; [|split]]].
  - rewrite Collect_sent. apply collectLoop_sent. intros k. cbn.
    rewrite lookup_empty. cbn. split; [done|]. intros Hk. by apply elem_of_nil in Hk.
  - destruct (firstOfKey_NoDup [] (usageItemsOf c cfg)) as [Hnd _].
    apply (NoDup_fmap_1 joinFields). rewrite <- list_fmap_compose.
    erewrite list_fmap_ext; [exact Hnd|]. intros i item _. reflexivity.
  - intros pre post item ->. rewrite firstOfKey_app. cbn [firstOfKey app].
    reflexivity.
  - intros x y Heq. by rewrite !dedupKey_joinFields, Heq.
  - intros x y Hsame Hdate.
    pose proof (dedupKey_differs_in_date x y Hsame Hdate) as Hneq.
    split; [done|]. cbn [firstOfKey fmap list_fmap app].
    rewrite (bool_decide_false (dedupKey x ∈ [])) by apply not_elem_of_nil.
    rewrite (bool_decide_false (dedupKey y ∈ [dedupKey x])); [done|].
    intros Hk%list_elem_of_singleton. by apply Hneq.
Qed.

End V5Dedup.

(** ** The legacy usage normalizer: the package and the storage bill *)

Section LegacyOtherBuckets.
Context `{GoRuntime}.
Import Legacy.

Lemma parseItem_packages (bills : actionBilling * packageBilling * storageBilling)
    (item : UsageItem) :
  (parseItem bills item).1.2 =
  if decide (packagesBucket item) then
    {| pType := pType bills.1.2;
       pName := pName bills.1.2;
       TotalGigabytesBandwidthUsed :=
         (TotalGigabytesBandwidthUsed bills.1.2 + quantityInGigabytes item)%float;
       TotalPaidGigabytesBandwidthUsed :=
         (TotalPaidGigabytesBandwidthUsed bills.1.2 + NetAmount item)%float;
       IncludedGigabytesBandwidth :=
         (IncludedGigabytesBandwidth bills.1.2 + DiscountAmount item)%float |}
  else bills.1.2.
Proof.
  destruct bills as [[a p] s]. unfold parseItem, quantityInGigabytes.
  destruct (decide (packagesBucket item)) as [[Hp Hu]|Hn].
  - rewrite Hp. destruct Hu as [Hu|Hu]; rewrite Hu; reflexivity.
  - unfold packagesBucket in Hn.
    destruct (String.eqb_spec (strings.ToLower (Product item)) "actions") as [Hp|Hp].
    { by destruct (String.eqb _ "minutes"). }
    destruct (String.eqb_spec (strings.ToLower (Product item)) "packages") as [Hq|Hq].
    { destruct (String.eqb_spec (strings.ToLower (UnitType item)) "bytes") as [Hu|Hu];
        [destruct Hn; by auto|].
      destruct (String.eqb_spec (strings.ToLower (UnitType item)) "gigabytes") as [Hg|Hg];
        [destruct Hn; by auto|].
      reflexivity. }
    repeat (match goal with |- context [if ?b then _ else _] => destruct b end);
      reflexivity.
Qed.

Lemma parseItem_storage (bills : actionBilling * packageBilling * storageBilling)
    (item : UsageItem) :
  (parseItem bills item).2 =
  if decide (storageBucket item) then
    {| sType := sType bills.2;
       sName := sName bills.2;
       DaysLeftInBillingCycle := DaysLeftInBillingCycle bills.2;
       EstimatedPaidStorageForMonth :=
         (EstimatedPaidStorageForMonth bills.2 + NetAmount item)%float;
       EstimatedStorageForMonth :=
         (EstimatedStorageForMonth bills.2 + quantityInGigabytes item)%float |}
  else bills.2.
Proof.
  destruct bills as [[a p] s]. unfold parseItem, quantityInGigabytes.
  destruct (decide (storageBucket item)) as [[Hp Hu]|Hn].
  - rewrite Hp. destruct Hu as [Hu|[Hu|Hu]]; rewrite Hu; reflexivity.
  - unfold storageBucket in Hn.
    destruct (String.eqb_spec (strings.ToLower (Product item)) "actions") as [Hp|Hp].
    { by destruct (String.eqb _ "minutes"). }
    destruct (String.eqb_spec (strings.ToLower (Product item)) "packages") as [Hq|Hq].
    { by destruct (_ || _). }
    destruct (String.eqb_spec (strings.ToLower (Product item)) "git_lfs") as [Hl|Hl];
      [|reflexivity].
    destruct (String.eqb_spec (strings.ToLower (UnitType item)) "bytes") as [Hu|Hu];
      [destruct Hn; by auto|].
    destruct (String.eqb_spec (strings.ToLower (UnitType item)) "gigabytes") as [Hg|Hg];
      [destruct Hn; by auto|].
    destruct (String.eqb_spec (strings.ToLower (UnitType item)) "gigabytehours") as [Hh|Hh];
      [destruct Hn; by auto|].
    reflexivity.
Qed.

Lemma foldl_parseItem_packages (items : list UsageItem)
    (bills : actionBilling * packageBilling * storageBilling) :
  let p := (foldl parseItem bills items).1.2 in
  let rs := filter packagesBucket items in
  pType p = pType bills.1.2 ∧ pName p = pName bills.1.2 ∧
  TotalGigabytesBandwidthUsed p
  = accumulate (TotalGigabytesBandwidthUsed bills.1.2) (quantityInGigabytes <$> rs) ∧
  TotalPaidGigabytesBandwidthUsed p
  = accumulate (TotalPaidGigabytesBandwidthUsed bills.1.2) (NetAmount <$> rs) ∧
  IncludedGigabytesBandwidth p
  = accumulate (IncludedGigabytesBandwidth bills.1.2) (DiscountAmount <$> rs).
Proof.
  revert bills; induction items as [|item items IH]; intros bills; [done|].
  cbn [foldl]. specialize (IH (parseItem bills item)). cbn zeta in IH |- *.
  destruct IH as (-> & -> & -> & -> & ->).
  rewrite filter_cons, parseItem_packages.
  destruct (decide (packagesBucket item)); done.
Qed.

Lemma foldl_parseItem_storage (items : list UsageItem)
    (bills : actionBilling * packageBilling * storageBilling) :
  let s := (foldl parseItem bills items).2 in
  let rs := filter storageBucket items in
  sType s = sType bills.2 ∧ sName s = sName bills.2 ∧
  DaysLeftInBillingCycle s = DaysLeftInBillingCycle bills.2 ∧
  EstimatedStorageForMonth s
  = accumulate (EstimatedStorageForMonth bills.2) (quantityInGigabytes <$> rs) ∧
  EstimatedPaidStorageForMonth s
  = accumulate (EstimatedPaidStorageForMonth bills.2) (NetAmount <$> rs).
Proof.
  revert bills; induction items as [|item items IH]; intros bills; [done|].
  cbn [foldl]. specialize (IH (parseItem bills item)). cbn zeta in IH |- *.
  destruct IH as (-> & -> & -> & -> & ->).
  rewrite filter_cons, parseItem_storage.
  destruct (decide (storageBucket item)); done.
Qed.

Lemma parseItem_not_billed (bills : actionBilling * packageBilling * storageBilling)
    (item : UsageItem) :
  ¬ billed item -> parseItem bills item = bills.
Proof.
  intros Hn.
  pose proof (parseItem_not_in_bucket bills item) as Ha.
  pose proof (parseItem_packages bills item) as Hp.
  pose proof (parseItem_storage bills item) as Hs.
  destruct (decide (packagesBucket item)) as [?|_]; [destruct Hn; right; by left|].
  destruct (decide (storageBucket item)) as [?|_]; [destruct Hn; right; by right|].
  destruct (parseItem bills item) as [[a p] s]. destruct bills as [[a0 p0] s0].
  cbn in Ha, Hp, Hs. rewrite Ha, Hp, Hs; [done|]. intros ?. destruct Hn. by left.
Qed.

Lemma foldl_parseItem_billed (items : list UsageItem)
    (bills : actionBilling * packageBilling * storageBilling) :
  foldl parseItem bills (filter billed items) = foldl parseItem bills items.
Proof.
  revert bills; induction items as [|item items IH]; intros bills; [done|].
  rewrite filter_cons. destruct (decide (billed item)) as [Hb|Hb]; cbn [foldl].
  - apply IH.
  - by rewrite (parseItem_not_billed _ _ Hb).
Qed.

(** For every batch the legacy normalizer adds to the package bill exactly
    the records whose product is "packages" and whose unit type is "bytes"
    or "gigabytes", both compared ignoring case, in batch order: the
    quantity goes to the bandwidth total (divided by 1024*1024*1024 when
    the unit is bytes, as it is when the unit is gigabytes), the net amount
    to the paid total and the discount amount to the included total.  No
    other record, of the actions or the storage bucket or of neither,
    changes the package bill. *)
Theorem legacy_packages_bucket (items : list UsageItem) (billingType name : string) :
  let p := (parseUsageResponse (Some {| UsageItems := items |}) billingType name).1.2 in
  let rs := filter packagesBucket items in
  TotalGigabytesBandwidthUsed p = accumulate 0 (quantityInGigabytes <$> rs) ∧
  TotalPaidGigabytesBandwidthUsed p = accumulate 0 (NetAmount <$> rs) ∧
  IncludedGigabytesBandwidth p = accumulate 0 (DiscountAmount <$> rs) ∧
  (∀ item : UsageItem,
     (strings.ToLower (UnitType item) = "bytes" ->
      quantityInGigabytes item = (Quantity item / 1073741824)%float) ∧
     (strings.ToLower (UnitType item) = "gigabytes" ->
      quantityInGigabytes item = Quantity item)).
Proof.
  cbn zeta. rewrite parseUsageResponse_foldl.
  pose proof (foldl_parseItem_packages items (emptyBills billingType name)) as Hf.
  cbn zeta in Hf. destruct Hf as (_ & _ & Hq & Hn & Hd).
  repeat split; try done; unfold quantityInGigabytes; by intros ->.
Qed.

(** For every batch the legacy normalizer adds to the storage bill exactly
    the records whose product is "git_lfs" and whose unit type is "bytes",
    "gigabytes" or "gigabytehours", compared ignoring case, in batch order:
    the quantity goes to the estimated storage (divided by 1024*1024*1024
    when the unit is bytes, added as it is for the two other units) and the
    net amount to the estimated paid storage.  The discount amount of a
    storage record is not used, and the days left in the billing cycle are
    0 whatever the batch holds. *)
Theorem legacy_storage_bucket (items : list UsageItem) (billingType name : string) :
  let s := (parseUsageResponse (Some {| UsageItems := items |}) billingType name).2 in
  let rs := filter storageBucket items in
  EstimatedStorageForMonth s = accumulate 0 (quantityInGigabytes <$> rs) ∧
  EstimatedPaidStorageForMonth s = accumulate 0 (NetAmount <$> rs) ∧
  DaysLeftInBillingCycle s = 0 ∧
  (∀ item : UsageItem,
     (strings.ToLower (UnitType item) = "bytes" ->
      quantityInGigabytes item = (Quantity item / 1073741824)%float) ∧
     (strings.ToLower (UnitType item) = "gigabytes" ->
      quantityInGigabytes item = Quantity item) ∧
     (strings.ToLower (UnitType item) = "gigabytehours" ->
      quantityInGigabytes item = Quantity item)).
Proof.
  cbn zeta. rewrite parseUsageResponse_foldl.
  pose proof (foldl_parseItem_storage items (emptyBills billingType name)) as Hf.
  cbn zeta in Hf. destruct Hf as (_ & _ & Hd & Hq & Hn).
  repeat split; try done; unfold quantityInGigabytes; by intros ->.
Qed.

Lemma parseUsageResponse_scope (response : option UsageResponse)
    (billingType name : string) :
  let bills := parseUsageResponse response billingType name in
  (aType bills.1.1, aName bills.1.1) = (billingType, name) ∧
  (pType bills.1.2, pName bills.1.2) = (billingType, name) ∧
  (sType bills.2, sName bills.2) = (billingType, name).
Proof.
  cbn zeta. destruct response as [[xs]|]; [|done].
  rewrite parseUsageResponse_foldl.
  pose proof (foldl_parseItem_actions xs (emptyBills billingType name)) as Ha.
  pose proof (foldl_parseItem_packages xs (emptyBills billingType name)) as Hp.
  pose proof (foldl_parseItem_storage xs (emptyBills billingType name)) as Hs.
  cbn zeta in Ha, Hp, Hs.
  destruct Ha as (-> & -> & _), Hp as (-> & -> & _), Hs as (-> & -> & _). done.
Qed.

Lemma parseUsageResponse_days_left (response : option UsageResponse)
    (billingType name : string) :
  DaysLeftInBillingCycle (parseUsageResponse response billingType name).2 = 0.
Proof.
  destruct response as [[xs]|]; [|done].
  rewrite parseUsageResponse_foldl.
  pose proof (foldl_parseItem_storage xs (emptyBills billingType name)) as Hs.
  cbn zeta in Hs. by destruct Hs as (_ & _ & -> & _).
Qed.

(** Whatever the response holds, the three bills [parseUsageResponse]
    returns carry the billing type and the name it was given.  A [nil]
    response and a response without items give the same bills, all of whose
    figures are zero and whose breakdown is empty.  The bills depend only on
    the records of the three buckets: a record of any other product or unit
    type is ignored. *)
Theorem legacy_parse_scope_and_empty (response : option UsageResponse)
    (items : list UsageItem) (billingType name : string) :
  let bills := parseUsageResponse response billingType name in
  let none := parseUsageResponse None billingType name in
  ((aType bills.1.1, aName bills.1.1) = (billingType, name) ∧
   (pType bills.1.2, pName bills.1.2) = (billingType, name) ∧
   (sType bills.2, sName bills.2) = (billingType, name)) ∧
  (parseUsageResponse (Some {| UsageItems := [] |}) billingType name = none ∧
   (TotalMinutesUsed none.1.1, TotalPaidMinutesUsed none.1.1, IncludedMinutes none.1.1)
   = (0%float, 0%float, 0%float) ∧
   MinutesUsedBreakdown none.1.1 = ∅ ∧
   (TotalGigabytesBandwidthUsed none.1.2, TotalPaidGigabytesBandwidthUsed none.1.2,
    IncludedGigabytesBandwidth none.1.2) = (0%float, 0%float, 0%float) ∧
   (DaysLeftInBillingCycle none.2, EstimatedPaidStorageForMonth none.2,
    EstimatedStorageForMonth none.2) = (0, 0%float, 0%float)) ∧
  parseUsageResponse (Some {| UsageItems := filter billed items |}) billingType name
  = parseUsageResponse (Some {| UsageItems := items |}) billingType name.
Proof.
  cbn zeta. split; [|split].
  - apply parseUsageResponse_scope.
  - done.
  - by rewrite !parseUsageResponse_foldl, foldl_parseItem_billed.
Qed.

End LegacyOtherBuckets.

(** ** The operating system of a SKU and the keys of the breakdown *)

Section StringContains.
Implicit Types a b s sub : string.

Lemma HasPrefix_app_l s a b :
  strings.HasPrefix s (a +:+ b) = true -> strings.HasPrefix s a = true.
Proof.
  rewrite !HasPrefix_iff. intros (r & ->). exists (b +:+ r). apply string_app_assoc.
Qed.

Lemma Contains_unfold (c : ascii) s sub :
  strings.Contains (String c s) sub
  = strings.HasPrefix (String c s) sub || strings.Contains s sub.
Proof. reflexivity. Qed.

Lemma Contains_nil sub : strings.Contains "" sub = strings.HasPrefix "" sub.
Proof.
  change (strings.Contains "" sub) with (strings.HasPrefix "" sub || false).
  apply orb_false_r.
Qed.

(** A string that holds [a] followed by [b] holds [a]. *)
Lemma Contains_app_l s a b :
  strings.Contains s (a +:+ b) = true -> strings.Contains s a = true.
Proof.
  induction s as [|c s IH].
  - rewrite !Contains_nil. apply HasPrefix_app_l.
  - rewrite !Contains_unfold, !orb_true_iff.
    intros [Hp|Hc]; [left; by apply (HasPrefix_app_l _ a b)|right; by apply IH].
Qed.

(** [strings.Contains] holds exactly when the string splits around the
    substring. *)
Lemma Contains_iff s sub :
  strings.Contains s sub = true ↔ ∃ a b, s = a +:+ sub +:+ b.
Proof.
  induction s as [|c s IH].
  - rewrite Contains_nil, HasPrefix_iff. split.
    + intros (r & Hr). by exists "", r.
    + intros (a & b & Heq). destruct a as [|d a]; [by exists b|].
      by rewrite string_app_cons in Heq.
  - rewrite Contains_unfold, orb_true_iff, HasPrefix_iff, IH. split.
    + intros [(r & Hr)|(a & b & ->)]; [by exists "", r|by exists (String c a), b].
    + intros (a & b & Heq). destruct a as [|d a].
      * left. by exists b.
      * right. rewrite string_app_cons in Heq. injection Heq as _ ->. by exists a, b.
Qed.

End StringContains.

Section LegacyOS.
Context `{GoRuntime}.
Import Legacy.

(** [extractOSFromSKU] tests the lower-cased SKU for "linux", then for
    "windows", then for "macos" or "mac", so it returns one of UBUNTU,
    WINDOWS, MACOS and the empty string: UBUNTU exactly when the SKU holds
    "linux", WINDOWS when it holds "windows" and not "linux", MACOS when it
    holds "mac" and neither of the two (the test for "macos" adds nothing to
    the test for "mac"), and the empty string when it holds none of
    them.  "Holds" is the occurrence of the word at some offset of the
    lower-cased SKU. *)
Theorem extractOSFromSKU_characterised (sku : string) :
  let skuLower := strings.ToLower sku in
  let holds word := strings.Contains skuLower word = true in
  (extractOSFromSKU sku = "UBUNTU" ↔ holds "linux") ∧
  (extractOSFromSKU sku = "WINDOWS" ↔ ¬ holds "linux" ∧ holds "windows") ∧
  (extractOSFromSKU sku = "MACOS" ↔ ¬ holds "linux" ∧ ¬ holds "windows" ∧ holds "mac") ∧
  (extractOSFromSKU sku = "" ↔ ¬ holds "linux" ∧ ¬ holds "windows" ∧ ¬ holds "mac") ∧
  extractOSFromSKU sku ∈ ["UBUNTU"; "WINDOWS"; "MACOS"; ""] ∧
  (∀ word : string, holds word ↔ ∃ a b, skuLower = a +:+ word +:+ b).
Proof.
  cbn zeta. unfold extractOSFromSKU.
  pose proof (Contains_app_l (strings.ToLower sku) "mac" "os") as Hmac.
  change ("mac" +:+ "os") with "macos" in Hmac.
  split_and!; [..|intros; apply Contains_iff];
    destruct (strings.Contains (strings.ToLower sku) "linux"),
      (strings.Contains (strings.ToLower sku) "windows"),
      (strings.Contains (strings.ToLower sku) "macos"),
      (strings.Contains (strings.ToLower sku) "mac");
    cbn [orb];
    first [ by specialize (Hmac eq_refl) | by repeat constructor | intuition congruence ].
Qed.

End LegacyOS.

Section LegacyBreakdownKeys.
Context `{GoRuntime}.
Import Legacy.

Lemma accumulateBreakdown_keys (m : gmap string Z) (item : UsageItem) (os : string) :
  is_Some (accumulateBreakdown m item !! os)
  ↔ is_Some (m !! os) ∨ (os ≠ "" ∧ extractOSFromSKU (SKU item) = os).
Proof.
  unfold accumulateBreakdown, addTo. cbn zeta.
  destruct (String.eqb_spec (extractOSFromSKU (SKU item)) "") as [He|He].
  - split; [by left|]. intros [?|[Hne Heq]]; [done|]. congruence.
  - rewrite lookup_insert_is_Some. split.
    + intros [<-|[_ ?]]; [by right|by left].
    + intros [?|[_ <-]]; [|by left].
      destruct (decide (extractOSFromSKU (SKU item) = os)); [by left|by right].
Qed.

Lemma foldl_accumulateBreakdown_keys (rs : list UsageItem) (m : gmap string Z)
    (os : string) :
  is_Some (foldl accumulateBreakdown m rs !! os)
  ↔ is_Some (m !! os)
    ∨ (os ≠ "" ∧ Exists (fun item => extractOSFromSKU (SKU item) = os) rs).
Proof.
  revert m; induction rs as [|item rs IH]; intros m; cbn [foldl].
  - rewrite Exists_nil. tauto.
  - rewrite IH, accumulateBreakdown_keys, Exists_cons. tauto.
Qed.

Lemma breakdown_keys (items : list UsageItem) (billingType name os : string) :
  let a := (parseUsageResponse (Some {| UsageItems := items |}) billingType name).1.1 in
  is_Some (MinutesUsedBreakdown a !! os)
  ↔ os ≠ "" ∧ Exists (fun item => actionsBucket item
                                   ∧ extractOSFromSKU (SKU item) = os) items.
Proof.
  cbn zeta. rewrite parseUsageResponse_foldl.
  pose proof (foldl_parseItem_actions items (emptyBills billingType name)) as Hf.
  cbn zeta in Hf. destruct Hf as (_ & _ & _ & _ & _ & ->).
  cbn [emptyBills fst snd MinutesUsedBreakdown].
  rewrite foldl_accumulateBreakdown_keys, lookup_empty, !Exists_exists. split.
  - intros [[? [=]]|[Hne (item & Hin & Hos)]]. split; [done|].
    apply list_elem_of_filter in Hin as [Hb Hin]. by exists item.
  - intros [Hne (item & Hin & Hb & Hos)]. right. split; [done|].
    exists item. split; [|done]. by apply list_elem_of_filter.
Qed.

Lemma breakdown_dom (response : option UsageResponse) (billingType name : string) :
  dom (MinutesUsedBreakdown (parseUsageResponse response billingType name).1.1)
  ⊆ ({[ "UBUNTU"; "WINDOWS"; "MACOS" ]} : gset string).
Proof.
  destruct response as [[items]|]; [|set_solver].
  intros os Hos. apply elem_of_dom, breakdown_keys in Hos as [Hne Hex].
  apply Exists_exists in Hex as (item & _ & _ & <-).
  pose proof (extractOSFromSKU_cases (SKU item)) as (Hl & Hw & Hm & Hnone).
  cbn zeta in Hl, Hw, Hm, Hnone.
  destruct (strings.Contains (strings.ToLower (SKU item)) "linux");
    [rewrite Hl by done; set_solver|].
  destruct (strings.Contains (strings.ToLower (SKU item)) "windows");
    [rewrite Hw by done; set_solver|].
  destruct (strings.Contains (strings.ToLower (SKU item)) "macos") eqn:Hmo;
    [rewrite Hm by auto; set_solver|].
  destruct (strings.Contains (strings.ToLower (SKU item)) "mac") eqn:Hma;
    [rewrite Hm by auto; set_solver|].
  destruct Hne. by apply Hnone.
Qed.

(** The breakdown of the action bill has an entry for an operating system
    exactly when some record of the actions bucket has a SKU of that
    operating system, whatever its quantity: the keys are among UBUNTU,
    WINDOWS and MACOS, so the loop of [Collect] over the breakdown sends at
    most three samples for a record. *)
Theorem legacy_breakdown_keys (items : list UsageItem) (billingType name : string) :
  let a := (parseUsageResponse (Some {| UsageItems := items |}) billingType name).1.1 in
  (∀ os : string,
     is_Some (MinutesUsedBreakdown a !! os)
     ↔ os ≠ "" ∧ Exists (fun item => actionsBucket item
                                      ∧ extractOSFromSKU (SKU item) = os) items) ∧
  dom (MinutesUsedBreakdown a) ⊆ ({[ "UBUNTU"; "WINDOWS"; "MACOS" ]} : gset string) ∧
  (length (map_to_list (MinutesUsedBreakdown a)) <= 3)%nat.
Proof.
  cbn zeta.
  pose proof (breakdown_dom (Some {| UsageItems := items |}) billingType name) as Hdom.
  split; [intros os; apply breakdown_keys|]. split; [exact Hdom|].
  rewrite length_map_to_list, <- size_dom.
  etransitivity; [apply subseteq_size, Hdom|].
  rewrite !size_union_alt, !size_singleton.
  pose proof (subseteq_size (({[ "WINDOWS" ]} : gset string) ∖ {[ "UBUNTU" ]})
                {[ "WINDOWS" ]}) as H1.
  pose proof (subseteq_size (({[ "MACOS" ]} : gset string) ∖ ({[ "UBUNTU" ]} ∪ {[ "WINDOWS" ]}))
                {[ "MACOS" ]}) as H2.
  rewrite size_singleton in H1, H2.
  specialize (H1 ltac:(set_solver)). specialize (H2 ltac:(set_solver)). lia.
Qed.

End LegacyBreakdownKeys.

(** ** The legacy billing collector: what is fetched and what is sent *)

Section LegacyFetched.
Context `{GoRuntime}.
Import Legacy.
Variable c : Client.
Context {B : Type}.
Variables (prepareMsg fetchMsg : string).
Variable keep : actionBilling * packageBilling * storageBilling -> B.

(** The bills kept for the names of one loop: one for each name whose
    fetch succeeds, parsed from the response to its request. *)
Lemma fetchLoop_records (billingType : string) (endpoint : string -> string)
    (names : list string) :
  Forall2 (fun b n => ∃ response : UsageResponse,
                        b = keep (parseUsageResponse (Some response) billingType n))
    (concat ((fun n => returned []
                         (fetchBill c billingType endpoint prepareMsg fetchMsg keep [] n))
               <$> names))
    (filter (fun n => fetchFails c endpoint n = false) names).
Proof.
  induction names as [|n names IH]; [constructor|].
  rewrite filter_cons. cbn [fmap list_fmap concat].
  destruct (fetchFails c endpoint n) eqn:Hf.
  - destruct (fetchBill_failure c billingType endpoint prepareMsg fetchMsg keep n Hf)
      as (msg & err & ->).
    destruct (decide (true = false)); [done|]. exact IH.
  - destruct (fetchBill_success c billingType endpoint prepareMsg fetchMsg keep n Hf)
      as (response & ->).
    destruct (decide (false = false)); [|done].
    constructor; [by exists response|exact IH].
Qed.

Lemma fetchBoth_records (cfg : Target) :
  Forall2 (fun b scope => ∃ response : UsageResponse,
                            b = keep (parseUsageResponse (Some response) scope.1 scope.2))
    (returned [] (fetchBoth c prepareMsg fetchMsg keep cfg))
    (fetchedEntities c cfg).
Proof.
  rewrite fetchBoth_gathers. unfold returned, fetchedEntities. cbn [outcome snd].
  apply Forall2_app; apply Forall2_fmap_r;
    eapply Forall2_impl; try apply fetchLoop_records; done.
Qed.

End LegacyFetched.

Section LegacyScopes.
Context `{GoRuntime}.
Import Legacy.
Variable c : Client.

Lemma actionBilling_scopes (cfg : Target) :
  (fun b => (aType b, aName b)) <$> returned [] (getActionBilling c cfg)
  = fetchedEntities c cfg.
Proof.
  pose proof (fetchBoth_records c "Failed to prepare action request"
                "Failed to fetch action billing" (fun b => b.1.1) cfg) as Hr.
  unfold getActionBilling. induction Hr as [|b [type n] bs scopes [r ->] _ IH]; [done|].
  cbn [fmap list_fmap fst snd]. rewrite IH. f_equal.
  by destruct (parseUsageResponse_scope (Some r) type n) as (-> & _).
Qed.

Lemma packageBilling_scopes (cfg : Target) :
  (fun b => (pType b, pName b)) <$> returned [] (getPackageBilling c cfg)
  = fetchedEntities c cfg.
Proof.
  pose proof (fetchBoth_records c "Failed to prepare package request"
                "Failed to fetch package billing" (fun b => b.1.2) cfg) as Hr.
  unfold getPackageBilling. induction Hr as [|b [type n] bs scopes [r ->] _ IH]; [done|].
  cbn [fmap list_fmap fst snd]. rewrite IH. f_equal.
  by destruct (parseUsageResponse_scope (Some r) type n) as (_ & -> & _).
Qed.

Lemma storageBilling_scopes (cfg : Target) :
  (fun b => (sType b, sName b)) <$> returned [] (getStorageBilling c cfg)
  = fetchedEntities c cfg.
Proof.
  pose proof (fetchBoth_records c "Failed to prepare storage request"
                "Failed to fetch storage billing" (fun b => b.2) cfg) as Hr.
  unfold getStorageBilling. induction Hr as [|b [type n] bs scopes [r ->] _ IH]; [done|].
  cbn [fmap list_fmap fst snd]. rewrite IH. f_equal.
  by destruct (parseUsageResponse_scope (Some r) type n) as (_ & _ & ->).
Qed.

(** The loops of [Collect] neither count a failure nor log an error. *)
Lemma legacy_Collect_failureLabels (cfg : Target) :
  failureLabels (trace (Collect c cfg))
  = replicate (3 * length (failingEntities c cfg)) "action".
Proof.
  rewrite Collect_blocks. cbn [trace fst].
  rewrite collectActionBlock_unfold, collectPackageBlock_unfold,
    collectStorageBlock_unfold.
  cbn [trace fst]. rewrite !failureLabels_app.
  unfold getActionBilling, getPackageBilling, getStorageBilling.
  rewrite !fetchBoth_failureLabels.
  destruct (forRange_returns collectAction quiet quiet_nil quiet_app
              collectAction_returns
              (returned [] (fetchBoth c "Failed to prepare action request"
                              "Failed to fetch action billing" (fun b => b.1.1) cfg)) [])
    as (? & _ & -> & _).
  destruct (forRange_returns collectPackage quiet quiet_nil quiet_app
              collectPackage_returns
              (returned [] (fetchBoth c "Failed to prepare package request"
                              "Failed to fetch package billing" (fun b => b.1.2) cfg)) [])
    as (? & _ & -> & _).
  destruct (forRange_returns collectStorage quiet quiet_nil quiet_app
              collectStorage_returns
              (returned [] (fetchBoth c "Failed to prepare storage request"
                              "Failed to fetch storage billing" (fun b => b.2) cfg)) [])
    as (? & _ & -> & _).
  cbn [failureLabels omap list_omap app]. rewrite !app_nil_r, <- !replicate_add.
  f_equal. lia.
Qed.

Lemma legacy_Collect_errorsLogged (cfg : Target) :
  logScope <$> errorsLogged (trace (Collect c cfg))
  = let scopes := (fun e => (Some (VString e.1), Some (VString e.2)))
                    <$> failingEntities c cfg in
    scopes ++ scopes ++ scopes.
Proof.
  rewrite Collect_blocks. cbn [trace fst].
  rewrite collectActionBlock_unfold, collectPackageBlock_unfold,
    collectStorageBlock_unfold.
  cbn [trace fst]. rewrite !errorsLogged_app, !fmap_app.
  unfold getActionBilling, getPackageBilling, getStorageBilling.
  rewrite !fetchBoth_errorsLogged.
  destruct (forRange_returns collectAction quiet quiet_nil quiet_app
              collectAction_returns
              (returned [] (fetchBoth c "Failed to prepare action request"
                              "Failed to fetch action billing" (fun b => b.1.1) cfg)) [])
    as (? & _ & _ & _ & ->).
  destruct (forRange_returns collectPackage quiet quiet_nil quiet_app
              collectPackage_returns
              (returned [] (fetchBoth c "Failed to prepare package request"
                              "Failed to fetch package billing" (fun b => b.1.2) cfg)) [])
    as (? & _ & _ & _ & ->).
  destruct (forRange_returns collectStorage quiet quiet_nil quiet_app
              collectStorage_returns
              (returned [] (fetchBoth c "Failed to prepare storage request"
                              "Failed to fetch storage billing" (fun b => b.2) cfg)) [])
    as (? & _ & _ & _ & ->).
  cbn. by rewrite !app_nil_r.
Qed.

(** The three fetchers of the legacy collector request the usage of every
    configured entity once each, the enterprises before the organizations,
    and each returns one bill for every entity whose fetch succeeds, in
    that order and under the scope of the entity, also when the response
    holds no item: with a client that answers a request the same way each
    time, the three lists name the same entities.  An entity whose fetch
    fails is therefore counted three times in one [Collect], under the
    label "action", and logged three times. *)
Theorem legacy_fetchers_agree (cfg : Target) :
  (outcome (getActionBilling c cfg) = Returned (returned [] (getActionBilling c cfg)) ∧
   outcome (getPackageBilling c cfg) = Returned (returned [] (getPackageBilling c cfg)) ∧
   outcome (getStorageBilling c cfg) = Returned (returned [] (getStorageBilling c cfg))) ∧
  ((fun b => (aType b, aName b)) <$> returned [] (getActionBilling c cfg)
   = fetchedEntities c cfg ∧
   (fun b => (pType b, pName b)) <$> returned [] (getPackageBilling c cfg)
   = fetchedEntities c cfg ∧
   (fun b => (sType b, sName b)) <$> returned [] (getStorageBilling c cfg)
   = fetchedEntities c cfg) ∧
  (length (fetchedEntities c cfg) + length (failingEntities c cfg)
   = length (Enterprises cfg) + length (Orgs cfg))%nat ∧
  failureLabels (trace (Collect c cfg))
  = replicate (3 * length (failingEntities c cfg)) "action" ∧
  logScope <$> errorsLogged (trace (Collect c cfg))
  = (let scopes := (fun e => (Some (VString e.1), Some (VString e.2)))
                     <$> failingEntities c cfg in
     scopes ++ scopes ++ scopes).
Proof.
  split; [|split; [|split; [|split]]].
  - unfold getActionBilling, getPackageBilling, getStorageBilling.
    by rewrite !fetchBoth_gathers.
  - auto using actionBilling_scopes, packageBilling_scopes, storageBilling_scopes.
  - unfold fetchedEntities, failingEntities. rewrite !length_app, !length_fmap.
    assert (Hsplit : ∀ (p : string -> bool) (xs : list string),
              (length (filter (fun n => p n = false) xs)
               + length (filter (fun n => p n = true) xs) = length xs)%nat).
    { intros p xs. induction xs as [|x xs IH]; [done|].
      rewrite !filter_cons. destruct (p x); repeat case_decide; try done;
        cbn [length]; lia. }
    pose proof (Hsplit (fetchFails c enterpriseEndpoint) (Enterprises cfg)).
    pose proof (Hsplit (fetchFails c orgEndpoint) (Orgs cfg)). lia.
  - apply legacy_Collect_failureLabels.
  - apply legacy_Collect_errorsLogged.
Qed.

End LegacyScopes.

(** ** The legacy billing collector: deduplication by name *)

Section FirstOfName.
Import Legacy.
Context {B : Type}.
Variable nameOf : B -> string.

Lemma alreadyCollected_iff (collected : list string) (needle : string) :
  alreadyCollected collected needle = true ↔ needle ∈ collected.
Proof.
  induction collected as [|val rest IH]; cbn [alreadyCollected].
  - split; [done|]. by intros ?%elem_of_nil.
  - rewrite elem_of_cons. destruct (String.eqb_spec needle val) as [->|Hne].
    + split; [by left|done].
    + rewrite IH. split; [by right|]. by intros [?|?].
Qed.

Lemma firstOfName_app (before : list string) (xs ys : list B) :
  firstOfName nameOf before (xs ++ ys)
  = firstOfName nameOf before xs ++ firstOfName nameOf (before ++ (nameOf <$> xs)) ys.
Proof.
  revert before; induction xs as [|x xs IH]; intros before; cbn [app firstOfName fmap list_fmap].
  - by rewrite app_nil_r.
  - rewrite IH, <- !app_assoc. reflexivity.
Qed.

(** The names of the kept records are pairwise distinct and none occurs
    before. *)
Lemma firstOfName_NoDup (before : list string) (records : list B) :
  NoDup (nameOf <$> firstOfName nameOf before records)
  ∧ ∀ k, k ∈ nameOf <$> firstOfName nameOf before records -> k ∉ before.
Proof.
  revert before; induction records as [|record records IH]; intros before;
    cbn [firstOfName].
  - split; [constructor|]. intros k Hk. by apply elem_of_nil in Hk.
  - destruct (IH (before ++ [nameOf record])) as [Hnd Hfresh].
    assert (Hrest : ∀ k, k ∈ nameOf <$> firstOfName nameOf (before ++ [nameOf record]) records
                         -> (k ∉ before) ∧ k ≠ nameOf record).
    { intros k Hk. specialize (Hfresh k Hk).
      rewrite elem_of_app, list_elem_of_singleton in Hfresh.
      split; intros ?; apply Hfresh; auto. }
    destruct (bool_decide_reflect (nameOf record ∈ before)) as [Hin|Hout]; cbn [app].
    + split; [done|]. intros k Hk. by apply Hrest.
    + cbn [fmap list_fmap]. split.
      * constructor; [|done]. intros Hk. by apply Hrest in Hk as [_ ?].
      * intros k [->|Hk]%elem_of_cons; [done|]. by apply Hrest.
Qed.

(** Records whose names are pairwise distinct and new are all kept. *)
Lemma firstOfName_all (before : list string) (records : list B) :
  NoDup (before ++ (nameOf <$> records)) -> firstOfName nameOf before records = records.
Proof.
  revert before; induction records as [|record records IH]; intros before Hnd; [done|].
  cbn [firstOfName]. cbn [fmap list_fmap] in Hnd.
  rewrite bool_decide_false.
  - cbn [app]. f_equal. apply IH. by rewrite <- app_assoc.
  - apply NoDup_app in Hnd as (_ & Hdisj & _). intros Hin.
    apply (Hdisj _ Hin). by left.
Qed.

(** The loop of a block of [Collect], whose body passes over a record of a
    name collected already and sends the samples of any other record; the
    samples may depend on how many names were collected before. *)
Lemma dedupLoop_sent (body : list string -> B -> Go (list string))
    (samples : nat -> B -> list Metric) :
  (∀ collected record,
     alreadyCollected collected (nameOf record) = true ->
     ∃ log, body collected record = ([EvLog log], Returned collected)) ->
  (∀ collected record,
     alreadyCollected collected (nameOf record) = false ->
     ∃ log, body collected record
            = (EvLog log :: (EvSend <$> samples (length collected) record),
               Returned (collected ++ [nameOf record]))) ->
  ∀ (records : list B) (before collected : list string),
    (∀ k, k ∈ collected ↔ k ∈ before) ->
    sent (trace (forRange body records collected))
    = concat (imap (fun i => samples (length collected + i)%nat)
                (firstOfName nameOf before records)).
Proof.
  intros Hseen Hnew. induction records as [|record records IH];
    intros before collected Hinv; [done|].
  cbn [forRange firstOfName].
  destruct (alreadyCollected collected (nameOf record)) eqn:Hc.
  - destruct (Hseen _ _ Hc) as (log & ->).
    rewrite bool_decide_true by (by apply Hinv, alreadyCollected_iff).
    rewrite Go_bind_returned. cbn [trace fst]. rewrite sent_app.
    change (sent [EvLog log]) with (@nil Metric). rewrite !app_nil_l.
    apply IH. intros k. rewrite elem_of_app, list_elem_of_singleton, <- Hinv.
    split; [by left|]. intros [?| ->]; [done|]. by apply alreadyCollected_iff.
  - destruct (Hnew _ _ Hc) as (log & ->).
    rewrite bool_decide_false.
    2:{ intros Hin%Hinv%alreadyCollected_iff. congruence. }
    rewrite Go_bind_returned. cbn [trace fst].
    change (EvLog log :: (EvSend <$> samples (length collected) record))
      with ([EvLog log] ++ (EvSend <$> samples (length collected) record)).
    rewrite !sent_app, sent_sends.
    change (sent [EvLog log]) with (@nil Metric). rewrite app_nil_l.
    cbn [app imap concat]. rewrite Nat.add_0_r. f_equal.
    rewrite (IH (before ++ [nameOf record]) (collected ++ [nameOf record])).
    + f_equal. apply imap_ext. intros i x _. cbn. f_equal.
      rewrite length_app. cbn [length]. lia.
    + intros k. rewrite !elem_of_app, Hinv. done.
Qed.

End FirstOfName.

Lemma firstOfName_fmap {A B : Type} (f : A -> B) (nameOf : B -> string)
    (before : list string) (xs : list A) :
  f <$> Legacy.firstOfName (fun x => nameOf (f x)) before xs
  = Legacy.firstOfName nameOf before (f <$> xs).
Proof.
  revert before; induction xs as [|x xs IH]; intros before; [done|].
  cbn [Legacy.firstOfName fmap list_fmap]. rewrite fmap_app, IH.
  by destruct (bool_decide _).
Qed.

Lemma sendLoop_trace {K : Type} (mk : K -> Metric) (xs : list K) :
  forRange (fun (_ : unit) (x : K) => send (mk x)) xs tt
  = (EvSend <$> (mk <$> xs), Returned tt).
Proof.
  induction xs as [|x xs IH]; [done|].
  cbn [forRange]. change (send (mk x)) with (([EvSend (mk x)], Returned tt) : Go unit).
  by rewrite (Go_bind_returned [EvSend (mk x)] tt), IH.
Qed.

Section LegacyDedup.
Context `{GoRuntime}.
Import Legacy.

Lemma collectAction_loop_sent (records : list actionBilling) :
  sent (trace (forRange collectAction records []))
  = concat (imap actionSamples (firstOfName aName [] records)).
Proof.
  apply (dedupLoop_sent aName collectAction actionSamples); [| |done].
  - intros collected record Hc. unfold collectAction. rewrite Hc. by eexists.
  - intros collected record Hc. unfold collectAction. rewrite Hc. cbn zeta.
    rewrite sendLoop_trace. eexists. cbn. by rewrite app_nil_r.
Qed.

Lemma collectPackage_loop_sent (records : list packageBilling) :
  sent (trace (forRange collectPackage records []))
  = concat (packageSamples <$> firstOfName pName [] records).
Proof.
  rewrite <- (imap_const packageSamples).
  apply (dedupLoop_sent pName collectPackage (fun _ => packageSamples)); [| |done].
  - intros collected record Hc. unfold collectPackage. rewrite Hc. by eexists.
  - intros collected record Hc. unfold collectPackage. rewrite Hc. by eexists.
Qed.

Lemma collectStorage_loop_sent (records : list storageBilling) :
  sent (trace (forRange collectStorage records []))
  = concat (storageSamples <$> firstOfName sName [] records).
Proof.
  rewrite <- (imap_const storageSamples).
  apply (dedupLoop_sent sName collectStorage (fun _ => storageSamples)); [| |done].
  - intros collected record Hc. unfold collectStorage. rewrite Hc. by eexists.
  - intros collected record Hc. unfold collectStorage. rewrite Hc. by eexists.
Qed.

Lemma legacy_Collect_samples (c : Client) (cfg : Target) :
  sent (trace (Collect c cfg))
  = concat (imap actionSamples
              (firstOfName aName [] (returned [] (getActionBilling c cfg))))
    ++ concat (packageSamples
                 <$> firstOfName pName [] (returned [] (getPackageBilling c cfg)))
    ++ concat (storageSamples
                 <$> firstOfName sName [] (returned [] (getStorageBilling c cfg))).
Proof.
  by rewrite legacy_Collect_sent, collectAction_loop_sent, collectPackage_loop_sent,
       collectStorage_loop_sent.
Qed.

End LegacyDedup.

Lemma firstOfName_elem {B : Type} (nameOf : B -> string) (before : list string)
    (records : list B) (record : B) :
  record ∈ Legacy.firstOfName nameOf before records -> record ∈ records.
Proof.
  revert before; induction records as [|r records IH]; intros before;
    cbn [Legacy.firstOfName]; [done|].
  rewrite elem_of_app, elem_of_cons. intros [Hin|Hin]; [|right; by eapply IH].
  destruct (bool_decide _); [by apply elem_of_nil in Hin|].
  apply list_elem_of_singleton in Hin. by left.
Qed.

Lemma NoDup_filter_app {A : Type} (P Q : A -> Prop) `{∀ x, Decision (P x)}
    `{∀ x, Decision (Q x)} (xs ys : list A) :
  NoDup (xs ++ ys) -> NoDup (filter P xs ++ filter Q ys).
Proof.
  intros (Hx & Hdisj & Hy)%NoDup_app. apply NoDup_app.
  split; [by apply NoDup_filter|]. split; [|by apply NoDup_filter].
  intros x [_ Hin]%list_elem_of_filter [_ Hin']%list_elem_of_filter.
  by apply (Hdisj x).
Qed.

Section LegacyKept.
Context `{GoRuntime}.
Import Legacy.
Variables (c : Client) (cfg : Target).

(** Each block of [Collect] keeps the records of the same entities: the
    first fetched entity of each name. *)
Lemma legacy_kept_scopes :
  (fun b => (aType b, aName b))
    <$> firstOfName aName [] (returned [] (getActionBilling c cfg))
  = firstOfName snd [] (fetchedEntities c cfg)
  ∧ (fun b => (pType b, pName b))
      <$> firstOfName pName [] (returned [] (getPackageBilling c cfg))
    = firstOfName snd [] (fetchedEntities c cfg)
  ∧ (fun b => (sType b, sName b))
      <$> firstOfName sName [] (returned [] (getStorageBilling c cfg))
    = firstOfName snd [] (fetchedEntities c cfg).
Proof.
  rewrite <- (actionBilling_scopes c cfg) at 1.
  rewrite <- (packageBilling_scopes c cfg) at 1.
  rewrite <- (storageBilling_scopes c cfg).
  by rewrite <- !firstOfName_fmap.
Qed.

Lemma fetchedEntities_names :
  snd <$> fetchedEntities c cfg
  = filter (fun n => fetchFails c enterpriseEndpoint n = false) (Enterprises cfg)
    ++ filter (fun n => fetchFails c orgEndpoint n = false) (Orgs cfg).
Proof.
  unfold fetchedEntities. rewrite fmap_app, <- !list_fmap_compose.
  f_equal; apply list_fmap_id.
Qed.

End LegacyKept.

Lemma Forall_concat_imap {A B : Type} (P : B -> Prop) (f : nat -> A -> list B)
    (xs : list A) :
  (∀ (i : nat) (x : A), x ∈ xs -> Forall P (f i x)) -> Forall P (concat (imap f xs)).
Proof.
  intros Hf. apply Forall_concat, Forall_forall.
  intros ys (i & x & -> & Hx)%elem_of_lookup_imap.
  apply Hf. by eapply list_elem_of_lookup_2.
Qed.

Section LegacyDedupTheorems.
Context `{GoRuntime}.
Import Legacy.

(** [Collect] of the legacy billing collector sends, in each of its three
    blocks, the samples of exactly those fetched records whose name has not
    occurred earlier in the block, in order, and passes over the others.
    The samples of an action record are its three totals followed by one
    breakdown sample for every entry of its breakdown map, in the order in
    which the runtime visits the map, whichever that is.  The names are
    compared without the scope type: of the fetched entities the three
    blocks keep the same ones, the first of each name, so the names of the
    kept entities are pairwise distinct, and an entity is kept exactly when
    no entity fetched before it has its name. *)
Theorem legacy_collect_sends_first_of_each_name (c : Client) (cfg : Target) :
  let kept := firstOfName snd [] (fetchedEntities c cfg) in
  let actions := firstOfName aName [] (returned [] (getActionBilling c cfg)) in
  let packages := firstOfName pName [] (returned [] (getPackageBilling c cfg)) in
  let storages := firstOfName sName [] (returned [] (getStorageBilling c cfg)) in
  sent (trace (Collect c cfg))
  = concat (imap actionSamples actions) ++ concat (packageSamples <$> packages)
    ++ concat (storageSamples <$> storages) ∧
  (∀ (nth : nat) (record : actionBilling),
     ∃ entries : list (string * Z),
       entries ≡ₚ map_to_list (MinutesUsedBreakdown record) ∧
       actionSamples nth record
       = [MustNewConstMetric MinutesUsed (TotalMinutesUsed record)
            [aType record; aName record];
          MustNewConstMetric PaidMinutesUsed (TotalPaidMinutesUsed record)
            [aType record; aName record];
          MustNewConstMetric IncludedMinutesDesc (IncludedMinutes record)
            [aType record; aName record]]
         ++ ((fun kv : string * Z =>
                MustNewConstMetric MinutesUsedBreakdownDesc (floatOfInt kv.2)
                  [aType record; aName record; kv.1]) <$> entries)) ∧
  ((fun b => (aType b, aName b)) <$> actions = kept ∧
   (fun b => (pType b, pName b)) <$> packages = kept ∧
   (fun b => (sType b, sName b)) <$> storages = kept) ∧
  NoDup (snd <$> kept) ∧
  (∀ (pre post : list (string * string)) (scope : string * string),
     fetchedEntities c cfg = pre ++ scope :: post ->
     kept = firstOfName snd [] pre
            ++ (if bool_decide (scope.2 ∈ snd <$> pre) then [] else [scope])
            ++ firstOfName snd ((snd <$> pre) ++ [scope.2]) post).
Proof.
  cbn zeta. split; [|split; [|split; [|split]]].
  - apply legacy_Collect_samples.
  - intros nth record. exists (mapRange nth (MinutesUsedBreakdown record)).
    split; [apply mapRange_entries|reflexivity].
  - apply legacy_kept_scopes.
  - apply firstOfName_NoDup.
  - intros pre post scope ->. rewrite firstOfName_app. cbn [firstOfName app].
    reflexivity.
Qed.

(** When the configured enterprise and organization names are pairwise
    distinct, the deduplication of the legacy collector drops nothing:
    [Collect] sends the samples of every fetched record, in the order
    fetched, those of the breakdown of a record in the order in which the
    runtime visits its map. *)
Theorem legacy_collect_distinct_names_sends_all (c : Client) (cfg : Target) :
  NoDup (Enterprises cfg ++ Orgs cfg) ->
  sent (trace (Collect c cfg))
  = concat (imap actionSamples (returned [] (getActionBilling c cfg)))
    ++ concat (packageSamples <$> returned [] (getPackageBilling c cfg))
    ++ concat (storageSamples <$> returned [] (getStorageBilling c cfg)).
Proof.
  intros Hnd. rewrite legacy_Collect_samples.
  assert (Hnames : NoDup (snd <$> fetchedEntities c cfg)).
  { rewrite fetchedEntities_names. by apply NoDup_filter_app. }
  rewrite !firstOfName_all; [done|..]; cbn [app].
  - rewrite <- (storageBilling_scopes c cfg), <- list_fmap_compose in Hnames.
    exact Hnames.
  - rewrite <- (packageBilling_scopes c cfg), <- list_fmap_compose in Hnames.
    exact Hnames.
  - rewrite <- (actionBilling_scopes c cfg), <- list_fmap_compose in Hnames.
    exact Hnames.
Qed.

End LegacyDedupTheorems.

Lemma legacy_collect_distinct_names_witness :
  NoDup (Enterprises distinctNames ++ Orgs distinctNames)
  ∧ sent (trace (@Legacy.Collect backwardRuntime mixedClient distinctNames))
    = concat (imap (@Legacy.actionSamples backwardRuntime)
                (returned [] (@Legacy.getActionBilling backwardRuntime mixedClient
                                distinctNames)))
      ++ concat (Legacy.packageSamples
                   <$> returned [] (@Legacy.getPackageBilling backwardRuntime
                                      mixedClient distinctNames))
      ++ concat (Legacy.storageSamples
                   <$> returned [] (@Legacy.getStorageBilling backwardRuntime
                                      mixedClient distinctNames)).
Proof.
  assert (Hnd : NoDup (Enterprises distinctNames ++ Orgs distinctNames)).
  { apply (bool_decide_unpack _). vm_compute. reflexivity. }
  split; [exact Hnd|].
  exact (@legacy_collect_distinct_names_sends_all backwardRuntime mixedClient
           distinctNames Hnd).
Defined.

(** ** The legacy billing collector: samples and descriptors *)

Lemma Forall2_Forall_elem {A B : Type} (P : A -> B -> Prop) (xs : list A) (ys : list B) :
  Forall2 P xs ys -> Forall (fun x => ∃ y, y ∈ ys ∧ P x y) xs.
Proof.
  induction 1 as [|x y xs ys Hxy _ IH]; constructor.
  - exists y. split; [by left|done].
  - eapply Forall_impl; [exact IH|]. intros x' (y' & Hin & HP). exists y'.
    split; [by right|done].
Qed.

Lemma filter_none {A : Type} (P : A -> Prop) `{∀ x, Decision (P x)} (xs : list A) :
  Forall (fun x => ¬ P x) xs -> filter P xs = [].
Proof.
  induction 1 as [|x xs Hx _ IH]; [done|]. rewrite filter_cons.
  by destruct (decide (P x)).
Qed.

Section LegacyDescriptors.
Context `{GoRuntime}.
Import Legacy.
Variables (c : Client) (cfg : Target).

Lemma actionSamples_sampleOf (failures : option CounterVec) (nth : nat)
    (b : actionBilling) :
  dom (MinutesUsedBreakdown b) ⊆ ({[ "UBUNTU"; "WINDOWS"; "MACOS" ]} : gset string) ->
  Forall (sampleOf (NewBillingCollector failures).2 (aType b, aName b))
    (actionSamples nth b).
Proof.
  intros Hdom. unfold actionSamples. cbn zeta. apply Forall_app. split.
  - repeat constructor.
    + exists (Fields.MinutesUsed (NewBillingCollector failures).2).
      split; [repeat constructor|]. split; [done|by left].
    + exists (Fields.PaidMinutesUsed (NewBillingCollector failures).2).
      split; [repeat constructor|]. split; [done|by left].
    + exists (Fields.IncludedMinutes (NewBillingCollector failures).2).
      split; [repeat constructor|]. split; [done|by left].
  - apply Forall_fmap, Forall_forall. intros [os n] Hin.
    exists (Fields.MinutesUsedBreakdown (NewBillingCollector failures).2).
    split; [repeat constructor|]. split; [done|]. right. exists os. split; [|done].
    rewrite (mapRange_entries nth (MinutesUsedBreakdown b)) in Hin.
    apply elem_of_map_to_list in Hin.
    assert (Hos : os ∈ dom (MinutesUsedBreakdown b)) by (by apply elem_of_dom).
    apply Hdom in Hos.
    apply elem_of_union in Hos
        as [[->%elem_of_singleton| ->%elem_of_singleton]%elem_of_union
           | ->%elem_of_singleton];
      repeat constructor.
Qed.

Lemma packageSamples_sampleOf (failures : option CounterVec) (b : packageBilling) :
  Forall (sampleOf (NewBillingCollector failures).2 (pType b, pName b)) (packageSamples b).
Proof.
  unfold packageSamples. cbn zeta. repeat constructor.
  - exists (Fields.BandwidthUsed (NewBillingCollector failures).2).
    split; [repeat constructor|]. split; [done|by left].
  - exists (Fields.BandwidthPaid (NewBillingCollector failures).2).
    split; [repeat constructor|]. split; [done|by left].
  - exists (Fields.BandwidthIncluded (NewBillingCollector failures).2).
    split; [repeat constructor|]. split; [done|by left].
Qed.

Lemma storageSamples_sampleOf (failures : option CounterVec) (b : storageBilling) :
  Forall (sampleOf (NewBillingCollector failures).2 (sType b, sName b)) (storageSamples b).
Proof.
  unfold storageSamples. cbn zeta. repeat constructor.
  - exists (Fields.DaysLeft (NewBillingCollector failures).2).
    split; [repeat constructor|]. split; [done|by left].
  - exists (Fields.EastimatedPaidStorage (NewBillingCollector failures).2).
    split; [repeat constructor|]. split; [done|by left].
  - exists (Fields.EastimatedStorage (NewBillingCollector failures).2).
    split; [repeat constructor|]. split; [done|by left].
Qed.

(** What is known of every bill a fetcher returns. *)
Lemma fetched_actions :
  Forall (fun b => (aType b, aName b) ∈ fetchedEntities c cfg
                   ∧ dom (MinutesUsedBreakdown b)
                     ⊆ ({[ "UBUNTU"; "WINDOWS"; "MACOS" ]} : gset string))
    (returned [] (getActionBilling c cfg)).
Proof.
  eapply Forall_impl;
    [exact (Forall2_Forall_elem _ _ _
              (fetchBoth_records c "Failed to prepare action request"
                 "Failed to fetch action billing" (fun b => b.1.1) cfg))|].
  intros b ([type n] & Hin & r & ->). cbn [fst snd].
  destruct (parseUsageResponse_scope (Some r) type n) as (-> & _).
  split; [done|apply breakdown_dom].
Qed.

Lemma fetched_packages :
  Forall (fun b => (pType b, pName b) ∈ fetchedEntities c cfg)
    (returned [] (getPackageBilling c cfg)).
Proof.
  eapply Forall_impl;
    [exact (Forall2_Forall_elem _ _ _
              (fetchBoth_records c "Failed to prepare package request"
                 "Failed to fetch package billing" (fun b => b.1.2) cfg))|].
  intros b ([type n] & Hin & r & ->). cbn [fst snd].
  by destruct (parseUsageResponse_scope (Some r) type n) as (_ & -> & _).
Qed.

Lemma fetched_storages :
  Forall (fun b => (sType b, sName b) ∈ fetchedEntities c cfg
                   ∧ DaysLeftInBillingCycle b = 0)
    (returned [] (getStorageBilling c cfg)).
Proof.
  eapply Forall_impl;
    [exact (Forall2_Forall_elem _ _ _
              (fetchBoth_records c "Failed to prepare storage request"
                 "Failed to fetch storage billing" (fun b => b.2) cfg))|].
  intros b ([type n] & Hin & r & ->). cbn [fst snd].
  destruct (parseUsageResponse_scope (Some r) type n) as (_ & _ & ->).
  split; [done|apply parseUsageResponse_days_left].
Qed.

Lemma Forall_firstOfName {B : Type} (nameOf : B -> string) (P : B -> Prop)
    (records : list B) :
  Forall P records -> Forall P (firstOfName nameOf [] records).
Proof.
  rewrite !Forall_forall. intros HP b Hb. by apply HP, (firstOfName_elem nameOf []).
Qed.

(** [Describe] announces the ten descriptors [Metrics] lists, in the same
    order and under pairwise distinct names, and every sample [Collect]
    sends is a sample of one of them: it carries the name of a described
    descriptor and one label value for each of its labels, so that
    [MustNewConstMetric] is never called with the wrong number of label
    values.  The label "type" holds the scope type and the label "name"
    the name of an entity whose fetch succeeded, and the label "os" of the
    breakdown holds UBUNTU, WINDOWS or MACOS. *)
Theorem legacy_samples_match_descriptors (failures : option CounterVec) :
  let collector := (NewBillingCollector failures).2 in
  Describe collector = Metrics collector ∧
  NoDup (fqName <$> Describe collector) ∧
  Forall (fun d => variableLabels d = ["type"; "name"]
                   ∨ variableLabels d = ["type"; "name"; "os"]) (Describe collector) ∧
  Forall (fun m => ∃ scope, scope ∈ fetchedEntities c cfg ∧ sampleOf collector scope m)
    (sent (trace (Collect c cfg))).
Proof.
  cbn zeta. split; [done|]. split; [|split].
  - apply (bool_decide_unpack _). vm_compute. reflexivity.
  - repeat constructor; by auto.
  - rewrite legacy_Collect_samples, !Forall_app. split; [|split].
    + apply Forall_concat_imap. intros nth b Hb.
      pose proof (proj1 (Forall_forall _ _)
                    (Forall_firstOfName aName _ _ fetched_actions) b Hb)
        as [Hscope Hdom].
      eapply Forall_impl; [by apply (actionSamples_sampleOf failures nth)|].
      intros m Hm. by exists (aType b, aName b).
    + apply Forall_concat, Forall_fmap.
      eapply Forall_impl; [apply Forall_firstOfName, fetched_packages|].
      intros b Hscope. cbn beta.
      eapply Forall_impl; [by apply (packageSamples_sampleOf failures)|].
      intros m Hm. by exists (pType b, pName b).
    + apply Forall_concat, Forall_fmap.
      eapply Forall_impl; [apply Forall_firstOfName, fetched_storages|].
      intros b [Hscope _]. cbn beta.
      eapply Forall_impl; [by apply (storageSamples_sampleOf failures)|].
      intros m Hm. by exists (sType b, sName b).
Qed.

End LegacyDescriptors.

Section LegacyDaysLeft.
Context `{GoRuntime}.
Import Legacy.

Lemma daysLeft_not_action (bs : list actionBilling) :
  filter (fun m => metricName m = DaysLeft) (concat (imap actionSamples bs)) = [].
Proof.
  apply filter_none, Forall_concat_imap. intros nth b _.
  unfold actionSamples. cbn zeta. apply Forall_app. split.
  - repeat constructor; discriminate.
  - apply Forall_fmap, Forall_forall. intros kv _. discriminate.
Qed.

Lemma daysLeft_not_package (bs : list packageBilling) :
  filter (fun m => metricName m = DaysLeft) (concat (packageSamples <$> bs)) = [].
Proof.
  apply filter_none, Forall_concat, Forall_fmap, Forall_forall. intros b _.
  unfold packageSamples. cbn zeta. repeat constructor; discriminate.
Qed.

Lemma daysLeft_of_storages (bs : list storageBilling) :
  Forall (fun b => DaysLeftInBillingCycle b = 0) bs ->
  (fun m => (metricValue m, metricLabels m))
    <$> filter (fun m => metricName m = DaysLeft) (concat (storageSamples <$> bs))
  = (fun b => (0%float, [sType b; sName b])) <$> bs.
Proof.
  induction 1 as [|b bs Hb _ IH]; [done|].
  cbn [fmap list_fmap concat]. rewrite filter_app, fmap_app, IH.
  unfold storageSamples. cbn zeta. rewrite !filter_cons, filter_nil.
  rewrite decide_True by done. rewrite !decide_False by discriminate.
  cbn. by rewrite Hb.
Qed.

(** The gauge github_storage_billing_days_left_in_cycle never carries
    information: [Collect] sends it once for every entity it keeps, in
    order, and always with the value 0, since nothing sets the days left
    of a storage bill. *)
Theorem legacy_days_left_always_zero (c : Client) (cfg : Target) :
  (fun m => (metricValue m, metricLabels m))
    <$> filter (fun m => metricName m = DaysLeft) (sent (trace (Collect c cfg)))
  = (fun scope => (0%float, [scope.1; scope.2]))
      <$> firstOfName snd [] (fetchedEntities c cfg).
Proof.
  rewrite legacy_Collect_samples, !filter_app, daysLeft_not_action, daysLeft_not_package.
  cbn [app]. rewrite daysLeft_of_storages.
  - destruct (legacy_kept_scopes c cfg) as (_ & _ & <-).
    by rewrite <- list_fmap_compose.
  - apply Forall_firstOfName.
    eapply Forall_impl; [apply fetched_storages|]. by intros b [_ ?].
Qed.

End LegacyDaysLeft.

(** ** The v5 billing collector: items, samples and descriptors *)

Section V5Items.
Import V5.
Variable c : Client.

Lemma fetch_items (entityType name : string) :
  returned [] (fetchBillingUsageForEntity c entityType name)
  = withEntity entityType name <$> responseItems c entityType name.
Proof.
  unfold fetchBillingUsageForEntity, responseItems. cbn zeta.
  destruct (NewRequest c "GET" (billingEndpoint entityType name)) as [req|err]; [|done].
  destruct (Do c req) as [response|err]; [|done].
  cbn. by rewrite foldl_snoc_fmap.
Qed.

Lemma fetch_observedLabels (entityType name : string) :
  observedLabels (trace (fetchBillingUsageForEntity c entityType name)) = [].
Proof.
  destruct (fetchFails c entityType name) eqn:Hf.
  - destruct (fetch_failure _ _ _ Hf) as (msg & err & ->). reflexivity.
  - destruct (fetch_success _ _ _ Hf) as (response & ->). reflexivity.
Qed.

Lemma usageItemsOf_items (cfg : Target) :
  usageItemsOf c cfg
  = concat ((fun n => withEntity "enterprise" n <$> responseItems c "enterprise" n)
              <$> Enterprises cfg)
    ++ concat ((fun n => withEntity "org" n <$> responseItems c "org" n) <$> Orgs cfg).
Proof.
  unfold usageItemsOf. rewrite getBillingUsage_gathers. cbn [returned outcome snd].
  f_equal; f_equal; apply list_fmap_ext; intros; apply fetch_items.
Qed.

(** [getBillingUsage] returns, for every configured entity in turn, the
    enterprises before the organizations, the usage items the client
    answers for it, in the order of the response and each with its type and
    name fields set to the scope type and the name of the entity, its other
    fields as they came; an entity whose fetch fails, or whose response
    holds no item, contributes nothing.  So every item gathered carries the
    scope of a configured entity. *)
Theorem v5_items_carry_their_entity (cfg : Target) :
  outcome (getBillingUsage c cfg) = Returned (usageItemsOf c cfg) ∧
  usageItemsOf c cfg
  = concat ((fun n => withEntity "enterprise" n <$> responseItems c "enterprise" n)
              <$> Enterprises cfg)
    ++ concat ((fun n => withEntity "org" n <$> responseItems c "org" n) <$> Orgs cfg) ∧
  (∀ entityType name : string,
     fetchFails c entityType name = true -> responseItems c entityType name = []) ∧
  Forall (fun item => (Type_ item, Name item) ∈ configuredEntities cfg)
    (usageItemsOf c cfg) ∧
  (∀ (entityType name : string) (item : UsageItem),
     let tagged := withEntity entityType name item in
     (Type_ tagged, Name tagged) = (entityType, name) ∧
     (Date tagged, Product tagged, SKU tagged, UnitType tagged,
      OrganizationName tagged, RepositoryName tagged)
     = (Date item, Product item, SKU item, UnitType item,
        OrganizationName item, RepositoryName item) ∧
     (Quantity tagged, PricePerUnit tagged, GrossAmount tagged, DiscountAmount tagged,
      NetAmount tagged)
     = (Quantity item, PricePerUnit item, GrossAmount item, DiscountAmount item,
        NetAmount item)).
Proof.
  split; [|split; [|split; [|split]]].
  - unfold usageItemsOf. by rewrite getBillingUsage_gathers.
  - apply usageItemsOf_items.
  - intros entityType name. unfold fetchFails, responseItems.
    destruct (NewRequest c "GET" (billingEndpoint entityType name)) as [req|err]; [|done].
    by destruct (Do c req).
  - rewrite usageItemsOf_items. unfold configuredEntities.
    apply Forall_app. split; apply Forall_concat, Forall_fmap, Forall_forall;
      intros n Hn; apply Forall_fmap, Forall_forall; intros item _; cbn;
      apply elem_of_app; [left|right]; apply list_elem_of_fmap; by exists n.
  - done.
Qed.

End V5Items.

Lemma firstOfKey_elem (before items : list V5.UsageItem) (item : V5.UsageItem) :
  item ∈ V5.firstOfKey before items -> item ∈ items.
Proof.
  revert before; induction items as [|x items IH]; intros before;
    cbn [V5.firstOfKey]; [done|].
  rewrite elem_of_app, elem_of_cons. intros [Hin|Hin]; [|right; by eapply IH].
  destruct (bool_decide _); [by apply elem_of_nil in Hin|].
  apply list_elem_of_singleton in Hin. by left.
Qed.

Section V5Descriptors.
Import V5.
Variables (c : Client) (cfg : Target).

Lemma v5_Collect_samples :
  sent (trace (Collect c cfg)) = concat (sampleSet <$> firstOfKey [] (usageItemsOf c cfg)).
Proof.
  rewrite Collect_sent. apply collectLoop_sent. intros k. cbn.
  rewrite lookup_empty. cbn. split; [done|]. intros Hk. by apply elem_of_nil in Hk.
Qed.

Lemma sampleSet_described (failures : option CounterVec) (item : UsageItem) :
  Forall (fun m => ∃ d, d ∈ Describe (NewBillingCollector failures).2
                        ∧ describedBy d m ∧ labelled d m = itemLabelling item)
    (sampleSet item).
Proof.
  unfold sampleSet. repeat constructor.
  - exists (Fields.BillingUsage (NewBillingCollector failures).2).
    split; [repeat constructor|done].
  - exists (Fields.BillingGrossAmount (NewBillingCollector failures).2).
    split; [repeat constructor|done].
  - exists (Fields.BillingDiscountAmount (NewBillingCollector failures).2).
    split; [repeat constructor|done].
  - exists (Fields.BillingNetAmount (NewBillingCollector failures).2).
    split; [repeat constructor|done].
  - exists (Fields.BillingPricePerUnit (NewBillingCollector failures).2).
    split; [repeat constructor|done].
Qed.

(** [Describe] of the v5 billing collector announces the five descriptors
    [Metrics] lists, in the same order, under pairwise distinct names and
    all over the same eight labels, and every sample [Collect] sends is a
    sample of one of them for a gathered item: it carries the name of a
    described descriptor and one value for each label, so that
    [MustNewConstMetric] is never called with the wrong number of label
    values, and each label holds the field of the item it is named after. *)
Theorem v5_samples_match_descriptors (failures : option CounterVec) :
  let collector := (NewBillingCollector failures).2 in
  Describe collector = Metrics collector ∧
  NoDup (fqName <$> Describe collector) ∧
  Forall (fun d => variableLabels d
                   = ["type"; "name"; "product"; "sku"; "unit_type"; "date";
                      "organization_name"; "repository_name"]) (Describe collector) ∧
  Forall (fun m => ∃ (d : Desc) (item : UsageItem),
                     d ∈ Describe collector ∧ describedBy d m
                     ∧ item ∈ usageItemsOf c cfg ∧ labelled d m = itemLabelling item)
    (sent (trace (Collect c cfg))).
Proof.
  cbn zeta. split; [done|]. split; [|split].
  - apply (bool_decide_unpack _). vm_compute. reflexivity.
  - by repeat constructor.
  - rewrite v5_Collect_samples. apply Forall_concat, Forall_fmap, Forall_forall.
    intros item Hitem%firstOfKey_elem.
    eapply Forall_impl; [apply (sampleSet_described failures)|].
    intros m (d & Hd & Hm & Hl). by exists d, item.
Qed.

(** One [Collect] of the v5 billing collector makes exactly one histogram
    observation, under the label "billing", whatever the client answers,
    and sends five samples for every gathered item that is the first of its
    key, so at most five times as many samples as items gathered. *)
Theorem v5_collect_observes_once :
  observedLabels (trace (Collect c cfg)) = ["billing"] ∧
  length (sent (trace (Collect c cfg)))
  = (5 * length (firstOfKey [] (usageItemsOf c cfg)))%nat ∧
  (length (sent (trace (Collect c cfg))) <= 5 * length (usageItemsOf c cfg))%nat.
Proof.
  assert (Hlen : length (sent (trace (Collect c cfg)))
                 = (5 * length (firstOfKey [] (usageItemsOf c cfg)))%nat).
  { rewrite v5_Collect_samples.
    induction (firstOfKey [] (usageItemsOf c cfg)) as [|item items IH]; [done|].
    cbn [fmap list_fmap concat]. rewrite length_app, IH. cbn [sampleSet length]. lia. }
  split; [|split; [exact Hlen|]].
  - rewrite Collect_unfold. cbn [trace fst]. rewrite !observedLabels_app.
    rewrite (getBillingUsage_project c observedLabels); [|done|apply observedLabels_app].
    rewrite !concat_fmap_nil by (intros; apply fetch_observedLabels).
    destruct (collectLoop_returns (usageItemsOf c cfg) ∅) as (s' & _ & _ & -> & _).
    reflexivity.
  - rewrite Hlen. apply Nat.mul_le_mono_l.
    assert (Hle : ∀ before items, (length (firstOfKey before items) <= length items)%nat).
    { intros before items. revert before.
      induction items as [|item items IH]; intros before; [done|].
      cbn [firstOfKey]. rewrite length_app. specialize (IH (before ++ [item])).
      destruct (bool_decide _); cbn [length]; lia. }
    apply Hle.
Qed.

End V5Descriptors.

(** ** The runner collector: the configured repository names *)

Section SplitCount.
Implicit Types s a b : string.

Lemma Split_length s (sep : ascii) :
  length (strings.Split s sep) = S (strings.Count s sep).
Proof.
  induction s as [|c s IH]; [done|]. cbn [strings.Split strings.Count].
  destruct (Ascii.eqb c sep); cbn [length Nat.add]; [by rewrite IH|].
  destruct (strings.Split s sep) as [|piece pieces] eqn:Hs;
    [by apply Split_nonempty in Hs|].
  exact IH.
Qed.

Lemma Split_one s (sep : ascii) a :
  strings.Split s sep = [a] -> s = a.
Proof.
  revert a; induction s as [|c s IH]; intros a; cbn [strings.Split].
  - by intros [= <-].
  - destruct (Ascii.eqb c sep).
    + intros [= _ Hs]. by apply Split_nonempty in Hs.
    + destruct (strings.Split s sep) as [|piece pieces] eqn:Hs;
        [by apply Split_nonempty in Hs|].
      intros [= <- ->]. by rewrite (IH piece eq_refl).
Qed.

(** A name that splits in two is its two parts around the separator. *)
Lemma Split_two s (sep : ascii) a b :
  strings.Split s sep = [a; b] -> s = a +:+ String sep b.
Proof.
  revert a; induction s as [|c s IH]; intros a; cbn [strings.Split]; [done|].
  destruct (Ascii.eqb_spec c sep) as [->|Hc].
  - intros [= <- Hs]. apply Split_one in Hs as ->. reflexivity.
  - destruct (strings.Split s sep) as [|piece pieces] eqn:Hs;
      [by apply Split_nonempty in Hs|].
    intros [= <- ->]. rewrite string_app_cons. f_equal. by apply IH.
Qed.

Lemma Count_app a b (sep : ascii) :
  strings.Count (a +:+ b) sep = (strings.Count a sep + strings.Count b sep)%nat.
Proof.
  induction a as [|c a IH]; [done|]. rewrite string_app_cons.
  cbn [strings.Count]. rewrite IH. lia.
Qed.

End SplitCount.

Section RepoNames.
Import Runner.

(** [repoRunners] takes a configured name for a repository only when it
    holds exactly one slash: any other name is logged as invalid and
    counted as a failure of "runner", and adds no runner, whatever the
    client would answer.  A name with one slash is the owner and the
    repository part around it, neither of which holds a slash (either may
    be empty), and the repositories listed for the two parts are what the
    name is matched against; if the listing fails, the failure is logged
    and counted and the name adds no runner. *)
Theorem repo_name_needs_one_slash (fuel : nat) (c : Client) (result : list Runner)
    (name : string) :
  (strings.Count name "/" ≠ 1%nat ->
   repoRunnersName fuel c result name
   = ([EvLog {| logLevel := LevelError; logMsg := "Invalid repo name";
                logAttrs := [("name", VString name)] |};
       EvFailure "runner"],
      Returned result)) ∧
  (strings.Count name "/" = 1%nat ->
   ∃ splitOwner splitName : string,
     name = splitOwner +:+ "/" +:+ splitName
     ∧ strings.Count splitOwner "/" = 0%nat ∧ strings.Count splitName "/" = 0%nat
     ∧ repoRunnersName fuel c result name
       = match reposByOwnerAndName c splitOwner splitName with
         | Err err =>
             ([EvLog {| logLevel := LevelError; logMsg := "Failed to fetch repos";
                        logAttrs := [("name", VString name); ("err", VError err)] |};
               EvFailure "runner"],
              Returned result)
         | Ok repos => forRange (repoRunnersRepo fuel c name) repos result
         end).
Proof.
  pose proof (Split_length name "/") as Hlen.
  unfold repoRunnersName. cbn zeta.
  destruct (strings.Split name "/") as [|splitOwner [|splitName [|third rest]]] eqn:Hs;
    cbn [length] in Hlen; (split; intros Hcount; [try (done || lia)|try lia]).
  apply Split_two in Hs as Hname.
  exists splitOwner, splitName. split; [exact Hname|].
  assert (Hsum : (strings.Count splitOwner "/" + S (strings.Count splitName "/") = 1)%nat).
  { rewrite <- Hcount, Hname, Count_app. reflexivity. }
  split; [lia|]. split; [lia|].
  by destruct (reposByOwnerAndName c splitOwner splitName).
Qed.

End RepoNames.

Lemma repo_name_witness :
  Runner.repoRunnersName 2 webClient [] "acme"
  = ([EvLog {| logLevel := LevelError; logMsg := "Invalid repo name";
               logAttrs := [("name", VString "acme")] |};
      EvFailure "runner"],
     Returned [])
  ∧ Runner.repoRunnersName 2 webClient [] "github.com/acme/web"
    = ([EvLog {| logLevel := LevelError; logMsg := "Invalid repo name";
                 logAttrs := [("name", VString "github.com/acme/web")] |};
        EvFailure "runner"],
       Returned []).
Proof.
  split.
  - apply (proj1 (repo_name_needs_one_slash 2 webClient [] "acme")). vm_compute. lia.
  - apply (proj1 (repo_name_needs_one_slash 2 webClient [] "github.com/acme/web")).
    vm_compute. lia.
Defined.

(** ** The paginated fetchers: what a result says of the server *)

Section PaginationConverse.
Import Runner.
Variable call : ListOptions -> result (list Runner * Response).
Variable perPage : Z.

Lemma pagedLoop_served (fuel : nat) (page : Z) (runners rs : list Runner) :
  pagedLoop fuel call {| Page := page; PerPage := perPage |} runners = Returned (rs, None) ->
  ∃ pages, servesPages call perPage page pages ∧ rs = runners ++ concat pages
           ∧ (length pages <= fuel)%nat.
Proof.
  revert page runners; induction fuel as [|fuel IH]; intros page runners; [done|].
  cbn [pagedLoop]. destruct (call _) as [[records [next]]|err] eqn:Hcall; [|done].
  cbn [NextPage PerPage]. destruct (Z.eqb_spec next 0) as [->|Hnext].
  - intros [= <-]. exists [records]. split; [by constructor|].
    cbn. rewrite app_nil_r. split; [done|lia].
  - intros (pages & Hserves & -> & Hlen)%IH. exists (records :: pages).
    split; [by econstructor|]. cbn [concat length]. rewrite <- app_assoc.
    split; [done|lia].
Qed.

Lemma pagedLoop_failed (fuel : nat) (page : Z) (runners rs : list Runner)
    (err : GoError) :
  pagedLoop fuel call {| Page := page; PerPage := perPage |} runners
  = Returned (rs, Some err) ->
  rs = [] ∧ ∃ pages, failsAfter call perPage page pages err ∧ (length pages < fuel)%nat.
Proof.
  revert page runners; induction fuel as [|fuel IH]; intros page runners; [done|].
  cbn [pagedLoop]. destruct (call _) as [[records [next]]|err'] eqn:Hcall.
  - cbn [NextPage PerPage]. destruct (Z.eqb_spec next 0) as [->|Hnext]; [done|].
    intros (-> & pages & Hfails & Hlen)%IH. split; [done|].
    exists (records :: pages). split; [by econstructor|]. cbn [length]. lia.
  - intros [= <- <-]. split; [done|]. exists []. split; [by constructor|].
    cbn [length]. lia.
Qed.

(** A fetch that returns says how the server answered, and returns the
    same with any larger bound. *)
Lemma pagedLoop_explains (fuel : nat) (r : list Runner * option GoError) :
  pagedLoop fuel call {| Page := 0; PerPage := perPage |} [] = Returned r ->
  explains call perPage fuel r
  ∧ ∀ fuel' : nat, (fuel <= fuel')%nat ->
      pagedLoop fuel' call {| Page := 0; PerPage := perPage |} [] = Returned r.
Proof.
  destruct r as [rs [err|]]; intros Hr.
  - destruct (pagedLoop_failed _ _ _ _ _ Hr) as (-> & pages & Hfails & Hlen).
    split; [split; [done|by exists pages]|].
    intros fuel' Hfuel. apply (pagedLoop_fails call perPage 0 pages err Hfails). lia.
  - destruct (pagedLoop_served _ _ _ _ Hr) as (pages & Hserves & -> & Hlen).
    split; [by exists pages|].
    intros fuel' Hfuel.
    apply (pagedLoop_serves call perPage 0 pages Hserves fuel' []). lia.
Qed.

End PaginationConverse.

(** A paginated fetcher returns only what the server answered: a result
    without error is the concatenation of pages the server served one after
    the other from the first request on, the last of which announced no
    next page, each request asking for the page the response before had
    announced, at the page size of the fetcher (200 for a repository, 50 for
    an enterprise or an organization); a result with an error holds no
    record, and the error is that of the first request that failed.  The
    result does not depend on the bound put on the number of requests: with
    any larger bound the fetcher returns the same. *)
Theorem paged_fetcher_result_reflects_pages (fuel : nat) (c : Runner.Client)
    (owner name : string) (r : list Runner.Runner * option GoError) :
  (outcome (Runner.pagedRepoRunners fuel c owner name) = Returned r ->
   Runner.explains (Runner.ListRunners c owner name) 200 fuel r
   ∧ ∀ fuel' : nat, (fuel <= fuel')%nat ->
       Runner.pagedRepoRunners fuel' c owner name = ([], Returned r)) ∧
  (outcome (Runner.pagedEnterpriseRunners fuel c name) = Returned r ->
   Runner.explains (Runner.EnterpriseListRunners c name) 50 fuel r
   ∧ ∀ fuel' : nat, (fuel <= fuel')%nat ->
       Runner.pagedEnterpriseRunners fuel' c name = ([], Returned r)) ∧
  (outcome (Runner.pagedOrgRunners fuel c name) = Returned r ->
   Runner.explains (Runner.ListOrganizationRunners c name) 50 fuel r
   ∧ ∀ fuel' : nat, (fuel <= fuel')%nat ->
       Runner.pagedOrgRunners fuel' c name = ([], Returned r)).
Proof.
  unfold Runner.pagedRepoRunners, Runner.pagedEnterpriseRunners, Runner.pagedOrgRunners.
  cbn [outcome snd].
  split; [|split]; intros [Hex Hmono]%pagedLoop_explains;
    (split; [exact Hex|]); intros fuel' Hfuel; by rewrite Hmono.
Qed.

Lemma paged_fetcher_result_witness :
  Runner.explains (Runner.ListRunners (pagedClient threePages) "acme" "web") 200 3
    (runnersFrom 1 450, None)
  ∧ Runner.pagedRepoRunners 10 (pagedClient threePages) "acme" "web"
    = ([], Returned (runnersFrom 1 450, None))
  ∧ Runner.explains (Runner.ListOrganizationRunners (pagedClient secondPageFails) "acme")
      50 3 ([], Some "page 2 failed").
Proof.
  split; [|split].
  - apply (proj1 (paged_fetcher_result_reflects_pages 3 (pagedClient threePages)
                    "acme" "web" (runnersFrom 1 450, None))).
    vm_compute. reflexivity.
  - apply (proj1 (paged_fetcher_result_reflects_pages 3 (pagedClient threePages)
                    "acme" "web" (runnersFrom 1 450, None)));
      [vm_compute; reflexivity|]. repeat constructor.
  - apply (proj2 (proj2 (paged_fetcher_result_reflects_pages 3
                           (pagedClient secondPageFails) "acme" "acme"
                           ([], Some "page 2 failed")))).
    vm_compute. reflexivity.
Defined.

(** ** The runner collector: a failing entity *)

Lemma forRange_gather_Forall {A B : Type} (body : list B -> A -> Go (list B))
    (t : A -> list Event) (g : A -> list B) (xs : list A) :
  Forall (fun x => ∀ s, body s x = (t x, Returned (s ++ g x))) xs ->
  ∀ acc, forRange body xs acc = (concat (t <$> xs), Returned (acc ++ concat (g <$> xs))).
Proof.
  induction 1 as [|x xs Hx _ IH]; intros acc; cbn [forRange].
  - cbn. by rewrite app_nil_r.
  - rewrite Hx, Go_bind_returned, IH. cbn. by rewrite app_assoc.
Qed.

Section RunnerEntities.
Import Runner.

(** The loop of [enterpriseRunners] and [orgRunners] and, for the matching
    repositories of a name, of [repoRunners]: they differ in what the loop
    ranges over, the paged fetcher, the name they log and the log
    message. *)
Context {A : Type}.
Variable paged : A -> Go (list Runner * option GoError).
Variable nameOf : A -> string.
Variable msg : string.

Let body (result : list Runner) (x : A) : Go (list Runner) :=
  r ← paged x;
  match r.2 with
  | Some err =>
      logError msg [("name", VString (nameOf x)); ("err", VError err)];;
      failuresInc "runner";;
      mret result
  | None => mret (result ++ r.1)
  end.

Hypothesis paged_silent : ∀ x, trace (paged x) = [].

Let events (x : A) : list Event :=
  match (returned ([], None) (paged x)).2 with
  | Some err =>
      [EvLog {| logLevel := LevelError; logMsg := msg;
                logAttrs := [("name", VString (nameOf x)); ("err", VError err)] |};
       EvFailure "runner"]
  | None => []
  end.

Let gathered (x : A) : list Runner :=
  if pagedFails (paged x) then [] else (returned ([], None) (paged x)).1.

Lemma entityBody_finishes (x : A) :
  finishes (paged x) ->
  ∀ result, body result x = (events x, Returned (result ++ gathered x)).
Proof.
  intros [r Hr] result. unfold body, events, gathered, pagedFails, returned.
  pose proof (paged_silent x) as Ht.
  destruct (paged x) as [t o]. cbn [trace outcome fst snd] in *. subst t o.
  rewrite Go_bind_returned. destruct r as [rs [err|]]; cbn; [|done].
  by rewrite app_nil_r.
Qed.

Lemma entityLoop_finishes (xs : list A) :
  Forall (fun x => finishes (paged x)) xs ->
  (∀ acc, forRange body xs acc
          = (concat (events <$> xs),
             Returned (acc ++ concat ((fun x => (returned ([], None) (paged x)).1)
                                        <$> filter (fun x => pagedFails (paged x) = false)
                                              xs))))
  ∧ failureLabels (concat (events <$> xs))
    = replicate (length (filter (fun x => pagedFails (paged x) = true) xs)) "runner"
  ∧ logScope <$> errorsLogged (concat (events <$> xs))
    = (fun x => (None, Some (VString (nameOf x))))
        <$> filter (fun x => pagedFails (paged x) = true) xs
  ∧ sent (concat (events <$> xs)) = []
  ∧ observedLabels (concat (events <$> xs)) = [].
Proof.
  intros Hfin.
  assert (Hev : ∀ x, events x = if pagedFails (paged x)
                                then [EvLog {| logLevel := LevelError; logMsg := msg;
                                               logAttrs :=
                                                 [("name", VString (nameOf x));
                                                  ("err", VError (default ""
                                                     (returned ([], None) (paged x)).2))] |};
                                      EvFailure "runner"]
                                else []).
  { intros x. unfold events, pagedFails, returned.
    by destruct (outcome (paged x)) as [[rs [err|]]| |]. }
  split; [|split; [|split; [|split]]].
  - intros acc. rewrite (forRange_gather_Forall body events gathered).
    2:{ eapply Forall_impl; [exact Hfin|]. intros x Hx. by apply entityBody_finishes. }
    f_equal. f_equal. f_equal. unfold gathered. clear Hfin.
    induction xs as [|x xs IH]; [done|].
    rewrite filter_cons. cbn [fmap list_fmap concat]. rewrite IH.
    destruct (pagedFails (paged x)); by case_decide.
  - rewrite (hom_concat_fmap failureLabels); [|done|apply failureLabels_app].
    rewrite (concat_fmap_cond (fun x => failureLabels (events x)) (fun _ => ["runner"])
               (fun x => pagedFails (paged x))).
    + apply concat_fmap_singleton.
    + intros x. rewrite Hev. by destruct (pagedFails (paged x)).
  - rewrite (hom_concat_fmap (fun t => logScope <$> errorsLogged t)); [|done|].
    2:{ intros a b. by rewrite errorsLogged_app, fmap_app. }
    rewrite (concat_fmap_cond (fun x => logScope <$> errorsLogged (events x))
               (fun x => [(None, Some (VString (nameOf x)))])
               (fun x => pagedFails (paged x))).
    + generalize (filter (fun x => pagedFails (paged x) = true) xs).
      induction l as [|x l IH]; cbn; [done|]. by rewrite IH.
    + intros x. rewrite Hev. by destruct (pagedFails (paged x)).
  - rewrite (hom_concat_fmap sent); [|done|apply sent_app].
    apply concat_fmap_nil. intros x. rewrite Hev. by destruct (pagedFails (paged x)).
  - rewrite (hom_concat_fmap observedLabels); [|done|apply observedLabels_app].
    apply concat_fmap_nil. intros x. rewrite Hev. by destruct (pagedFails (paged x)).
Qed.

End RunnerEntities.

Section RunnerResilience.
Import Runner.

(** A failing fetch of an enterprise or an organization does not leave the
    runner fetchers: when the paged fetch of every configured entity is over
    within the bound, [enterpriseRunners] and [orgRunners] return the
    runners of the entities whose fetch ended without error, in configured
    order, count one failure of "runner" for each entity whose fetch ended
    with an error and log one error record naming it, and send nothing and
    observe nothing themselves. *)
Theorem runner_fetch_failure_is_contained (fuel : nat) (c : Client) (cfg : Target) :
  Forall (fun n => finishes (pagedEnterpriseRunners fuel c n)) (Enterprises cfg) ->
  Forall (fun n => finishes (pagedOrgRunners fuel c n)) (Orgs cfg) ->
  let failing (paged : string -> Go (list Runner * option GoError)) names :=
    filter (fun n => pagedFails (paged n) = true) names in
  let passing (paged : string -> Go (list Runner * option GoError)) names :=
    filter (fun n => pagedFails (paged n) = false) names in
  let runnersOf (paged : string -> Go (list Runner * option GoError)) n :=
    (returned ([], None) (paged n)).1 in
  (outcome (enterpriseRunners fuel c cfg)
   = Returned (concat (runnersOf (pagedEnterpriseRunners fuel c)
                         <$> passing (pagedEnterpriseRunners fuel c) (Enterprises cfg)))
   ∧ failureLabels (trace (enterpriseRunners fuel c cfg))
     = replicate (length (failing (pagedEnterpriseRunners fuel c) (Enterprises cfg)))
         "runner"
   ∧ logScope <$> errorsLogged (trace (enterpriseRunners fuel c cfg))
     = (fun n => (None, Some (VString n)))
         <$> failing (pagedEnterpriseRunners fuel c) (Enterprises cfg)
   ∧ sent (trace (enterpriseRunners fuel c cfg)) = []
   ∧ observedLabels (trace (enterpriseRunners fuel c cfg)) = []) ∧
  (outcome (orgRunners fuel c cfg)
   = Returned (concat (runnersOf (pagedOrgRunners fuel c)
                         <$> passing (pagedOrgRunners fuel c) (Orgs cfg)))
   ∧ failureLabels (trace (orgRunners fuel c cfg))
     = replicate (length (failing (pagedOrgRunners fuel c) (Orgs cfg))) "runner"
   ∧ logScope <$> errorsLogged (trace (orgRunners fuel c cfg))
     = (fun n => (None, Some (VString n))) <$> failing (pagedOrgRunners fuel c) (Orgs cfg)
   ∧ sent (trace (orgRunners fuel c cfg)) = []
   ∧ observedLabels (trace (orgRunners fuel c cfg)) = []).
Proof.
  intros Hent Horg. cbn zeta. split.
  - destruct (entityLoop_finishes (pagedEnterpriseRunners fuel c) (fun n => n)
                "Failed to fetch enterprise runners" (fun _ => eq_refl)
                (Enterprises cfg) Hent) as (Hloop & Hf & He & Hs & Ho).
    pose proof (Hloop [] : enterpriseRunners fuel c cfg = _) as ->.
    by cbn [trace outcome fst snd].
  - destruct (entityLoop_finishes (pagedOrgRunners fuel c) (fun n => n)
                "Failed to fetch org runners" (fun _ => eq_refl)
                (Orgs cfg) Horg) as (Hloop & Hf & He & Hs & Ho).
    pose proof (Hloop [] : orgRunners fuel c cfg = _) as ->.
    by cbn [trace outcome fst snd].
Qed.

End RunnerResilience.

Lemma runner_fetch_failure_witness :
  outcome (Runner.orgRunners 3 (pagedClient secondPageFails) acmeOrg) = Returned []
  ∧ failureLabels (trace (Runner.orgRunners 3 (pagedClient secondPageFails) acmeOrg))
    = ["runner"]
  ∧ outcome (Runner.orgRunners 3 (pagedClient threePages) acmeOrg)
    = Returned (runnersFrom 1 450).
Proof.
  pose proof (runner_fetch_failure_is_contained 3 (pagedClient secondPageFails) acmeOrg
                (Forall_nil_2 _)
                (Forall_cons_2 _ _ _ (ex_intro _ _ eq_refl) (Forall_nil_2 _)))
    as (_ & Ho & Hf & _).
  pose proof (runner_fetch_failure_is_contained 3 (pagedClient threePages) acmeOrg
                (Forall_nil_2 _)
                (Forall_cons_2 _ _ _ (ex_intro _ _ eq_refl) (Forall_nil_2 _)))
    as (_ & Ho' & _).
  split; [exact Ho|]. split; [exact Hf|exact Ho'].
Defined.

(** ** The runner collector: where a fetcher can panic *)

Lemma forRange_no_panic {A St : Type} (body : St -> A -> Go St) (xs : list A) :
  Forall (fun x => ∀ s, outcome (body s x) ≠ Panicked) xs ->
  ∀ s, outcome (forRange body xs s) ≠ Panicked.
Proof.
  induction 1 as [|x xs Hx _ IH]; intros s; cbn [forRange]; [done|].
  rewrite Go_bind_outcome. specialize (Hx s).
  destruct (outcome (body s x)); [apply IH|done|done].
Qed.

Section RunnerPanics.
Import Runner.

Lemma pagedLoop_no_panic (fuel : nat)
    (call : ListOptions -> result (list Runner * Response))
    (opts : ListOptions) (runners : list Runner) :
  pagedLoop fuel call opts runners ≠ Panicked.
Proof.
  revert opts runners; induction fuel as [|fuel IH]; intros opts runners; [done|].
  cbn [pagedLoop]. destruct (call opts) as [[records resp]|err]; [|done].
  destruct (NextPage resp =? 0); [done|apply IH].
Qed.

Lemma entityBody_no_panic (paged : Go (list Runner * option GoError)) (msg name : string)
    (result : list Runner) :
  outcome paged ≠ Panicked ->
  outcome (r ← paged;
           match r.2 with
           | Some err =>
               logError msg [("name", VString name); ("err", VError err)];;
               failuresInc "runner";;
               mret result
           | None => mret (result ++ r.1)
           end) ≠ Panicked.
Proof.
  intros Hp. rewrite Go_bind_outcome.
  destruct (outcome paged) as [[rs [err|]]| |]; done.
Qed.

Lemma enterpriseRunners_no_panic (fuel : nat) (c : Client) (cfg : Target) :
  outcome (enterpriseRunners fuel c cfg) ≠ Panicked.
Proof.
  apply forRange_no_panic, Forall_forall. intros name _ result.
  apply entityBody_no_panic, pagedLoop_no_panic.
Qed.

Lemma orgRunners_no_panic (fuel : nat) (c : Client) (cfg : Target) :
  outcome (orgRunners fuel c cfg) ≠ Panicked.
Proof.
  apply forRange_no_panic, Forall_forall. intros name _ result.
  apply entityBody_no_panic, pagedLoop_no_panic.
Qed.

(** The one iteration of the inner loop of [repoRunners] panics exactly on
    a repository without full name, or on a matching repository one of
    whose other pointers is not set. *)
Lemma repoRunnersRepo_panics (fuel : nat) (c : Client) (name : string)
    (result : list Runner) (repo : Repository) :
  outcome (repoRunnersRepo fuel c name result repo) = Panicked
  ↔ FullName repo = None ∨ (matchesName name repo = true ∧ ¬ wellFormed repo).
Proof.
  unfold repoRunnersRepo, matchesName, wellFormed.
  destruct (FullName repo) as [fullName|]; cbn [deref]; [|by split; [left|]].
  rewrite Go_ret_bind, Glob_wildcardMatch.
  destruct (glob.wildcardMatch false name fullName); cbn [negb].
  2:{ split; [done|]. by intros [?|[? _]]. }
  destruct (Owner repo) as [[login]|]; cbn [deref].
  2:{ split; [|done]. intros _. right. split; [done|]. by intros (_ & (o & ? & _) & _). }
  rewrite Go_ret_bind. cbn [Login]. destruct login as [login|]; cbn [deref].
  2:{ split; [|done]. intros _. right. split; [done|].
      intros (_ & (o & [= <-] & Hl) & _). by destruct Hl. }
  rewrite Go_ret_bind. destruct (RepoName repo) as [repoName|]; cbn [deref].
  2:{ split; [|done]. intros _. right. split; [done|].
      intros (_ & _ & Hn). by destruct Hn. }
  rewrite Go_ret_bind, Go_bind_outcome. unfold pagedRepoRunners. cbn [outcome snd].
  pose proof (pagedLoop_no_panic fuel (ListRunners c login repoName)
                {| Page := 0; PerPage := 200 |} []) as Hp.
  destruct (pagedLoop fuel _ _ _) as [[rs [err|]]| |]; try done.
  - split; [done|]. intros [?|[_ Hn]]; [done|]. destruct Hn. by eauto.
  - split; [done|]. intros [?|[_ Hn]]; [done|]. destruct Hn. by eauto.
  - split; [done|]. intros [?|[_ Hn]]; [done|]. destruct Hn. by eauto.
Qed.

Lemma repoRunners_no_panic (fuel : nat) (c : Client) (cfg : Target) :
  (∀ (splitOwner splitName : string) (repos : list Repository),
     reposByOwnerAndName c splitOwner splitName = Ok repos -> Forall wellFormed repos) ->
  outcome (repoRunners fuel c cfg) ≠ Panicked.
Proof.
  intros Hwf. apply forRange_no_panic, Forall_forall. intros name _ result.
  unfold repoRunnersName. cbn zeta.
  destruct (strings.Split name "/") as [|splitOwner [|splitName [|third rest]]];
    try done.
  destruct (reposByOwnerAndName c splitOwner splitName) as [repos|err] eqn:Hrepos;
    [|done].
  apply forRange_no_panic. eapply Forall_impl; [exact (Hwf _ _ _ Hrepos)|].
  intros repo Hrepo result' [Hnone|[_ Hn]]%repoRunnersRepo_panics; [|done].
  destruct Hrepo as [[? Hfull] _]. congruence.
Qed.

(** The fetchers of enterprise and organization runners never panic.  The
    fetcher of repository runners dereferences the full name of every
    listed repository, and the owner, its login and the name of every
    repository that matches the configured name: one iteration over a
    repository panics exactly when the repository has no full name, or
    matches and lacks one of the other three; so the fetcher does not panic
    when every repository the client lists has all four. *)
Theorem runner_fetchers_panic_only_on_nil (fuel : nat) (c : Client) (cfg : Target) :
  (outcome (enterpriseRunners fuel c cfg) ≠ Panicked
   ∧ outcome (orgRunners fuel c cfg) ≠ Panicked) ∧
  (∀ (name : string) (result : list Runner) (repo : Repository),
     outcome (repoRunnersRepo fuel c name result repo) = Panicked
     ↔ FullName repo = None ∨ (matchesName name repo = true ∧ ¬ wellFormed repo)) ∧
  ((∀ (splitOwner splitName : string) (repos : list Repository),
      reposByOwnerAndName c splitOwner splitName = Ok repos -> Forall wellFormed repos) ->
   outcome (repoRunners fuel c cfg) ≠ Panicked).
Proof.
  split; [split; [apply enterpriseRunners_no_panic|apply orgRunners_no_panic]|].
  split; [intros; apply repoRunnersRepo_panics|apply repoRunners_no_panic].
Qed.

End RunnerPanics.

Lemma runner_fetchers_panic_witness :
  outcome (Runner.repoRunners 2 webClient webTwice) ≠ Panicked
  ∧ outcome (Runner.repoRunnersRepo 2 webClient "acme/*" [] namelessRepo) = Panicked.
Proof.
  split.
  - apply (proj2 (proj2 (runner_fetchers_panic_only_on_nil 2 webClient webTwice))).
    intros splitOwner splitName repos [= <-].
    repeat constructor; by eexists.
  - apply (proj1 (proj2 (runner_fetchers_panic_only_on_nil 2 webClient webTwice))).
    left. reflexivity.
Defined.

(** ** The runner collector: samples, descriptors and labels *)

Lemma bind_trace_closed {A B : Type} (P : list Event -> Prop) (m : Go A) (k : A -> Go B) :
  (∀ t1 t2, P t1 -> P t2 -> P (t1 ++ t2)) ->
  P (trace m) -> (∀ a, P (trace (k a))) -> P (trace (m ≫= k)).
Proof.
  intros Happ Hm Hk. rewrite Go_bind_trace. destruct (outcome m); auto.
Qed.

Lemma forRange_trace_elem {A St : Type} (body : St -> A -> Go St)
    (P : list Event -> Prop) (xs : list A) :
  P [] -> (∀ t1 t2, P t1 -> P t2 -> P (t1 ++ t2)) ->
  (∀ s x, x ∈ xs -> P (trace (body s x))) ->
  ∀ s, P (trace (forRange body xs s)).
Proof.
  intros Hnil Happ. induction xs as [|x xs IH]; intros Hbody s; cbn [forRange].
  - exact Hnil.
  - rewrite Go_bind_trace.
    assert (Hx : P (trace (body s x))) by (apply Hbody; by left).
    destruct (outcome (body s x)); auto.
    apply Happ; [exact Hx|]. apply IH. intros s' x' Hin. apply Hbody. by right.
Qed.

Section RunnerSamples.
Import Runner.

Lemma collectRecord_sent (owner onlineDesc busyDesc : string) (record : Runner) :
  sent (trace (collectRecord owner onlineDesc busyDesc tt record))
  = recordSamples owner onlineDesc busyDesc record
  ∧ failureLabels (trace (collectRecord owner onlineDesc busyDesc tt record)) = []
  ∧ observedLabels (trace (collectRecord owner onlineDesc busyDesc tt record)) = [].
Proof.
  unfold recordSamples. destruct (Busy record) as [busy|] eqn:Hb.
  - rewrite collectRecord_busy by (rewrite Hb; by eexists).
    unfold recordSamples. rewrite Hb. done.
  - by rewrite (collectRecord_nil_busy _ _ _ _ Hb).
Qed.

Variable failures : option CounterVec.
Variable records : Desc -> list Runner.

Let collector := (NewRunnerCollector failures).2.

(** The samples of a record are samples of the two descriptors of its
    scope. *)
Lemma recordSamples_sampleOf (owner : string) (online busy : Desc) (record : Runner) :
  (owner, online, busy)
  ∈ [("TODO: repo", Fields.RepoOnline collector, Fields.RepoBusy collector);
     ("TODO: enterprise", Fields.EnterpriseOnline collector,
      Fields.EnterpriseBusy collector);
     ("TODO: org", Fields.OrgOnline collector, Fields.OrgBusy collector)] ->
  record ∈ records online -> record ∈ records busy ->
  Forall (sampleOf collector records)
    (recordSamples owner (fqName online) (fqName busy) record).
Proof.
  intros Hin Honline Hbusy. unfold recordSamples.
  assert (Hdesc : online ∈ Describe collector ∧ busy ∈ Describe collector
                  ∧ scopeOwner online = owner ∧ scopeOwner busy = owner
                  ∧ isOnlineDesc online = true ∧ isOnlineDesc busy = false
                  ∧ variableLabels online = ["owner"; "id"; "name"; "os"; "status"]
                  ∧ variableLabels busy = ["owner"; "id"; "name"; "os"; "status"]).
  { repeat (apply elem_of_cons in Hin as [[= -> -> ->]|Hin]);
      [| | |by apply elem_of_nil in Hin];
      (split; [repeat constructor|]); (split; [repeat constructor|]); done. }
  destruct Hdesc as (Hd & Hd' & Ho & Ho' & Hon & Hon' & Hl & Hl').
  constructor.
  - exists online, record. split; [exact Hd|]. split; [by split; [|rewrite Hl]|].
    split; [exact Honline|]. split.
    + unfold labelled, recordLabelling. by rewrite Hl, Ho.
    + by rewrite Hon.
  - destruct (Busy record) as [flag|] eqn:Hflag; constructor; [|constructor].
    exists busy, record. split; [exact Hd'|]. split; [by split; [|rewrite Hl']|].
    split; [exact Hbusy|]. split.
    + unfold labelled, recordLabelling. by rewrite Hl', Ho'.
    + rewrite Hon'. by exists flag.
Qed.

Let described (t : list Event) : Prop :=
  Forall (sampleOf collector records) (sent t).

Lemma described_app (t1 t2 : list Event) :
  described t1 -> described t2 -> described (t1 ++ t2).
Proof. unfold described. rewrite sent_app, Forall_app. done. Qed.

(** A block of [Collect] sends samples of the records its fetcher
    returns, and of no other. *)
Lemma collectBlock_described (get : Go (list Runner)) (owner : string)
    (online busy : Desc) :
  sendsNothing (trace get) ->
  (owner, online, busy)
  ∈ [("TODO: repo", Fields.RepoOnline collector, Fields.RepoBusy collector);
     ("TODO: enterprise", Fields.EnterpriseOnline collector,
      Fields.EnterpriseBusy collector);
     ("TODO: org", Fields.OrgOnline collector, Fields.OrgBusy collector)] ->
  records online = returned [] get -> records busy = returned [] get ->
  described (trace (collectBlock get owner (fqName online) (fqName busy))).
Proof.
  intros Hget Hin Ho Hb. unfold collectBlock.
  destruct get as [t [fetched| |]]; cbn [returned outcome snd] in Ho, Hb;
    cbn [trace fst] in Hget.
  - rewrite Go_bind_returned. cbn [trace fst].
    apply described_app; [unfold described; rewrite Hget; constructor|].
    apply bind_trace_closed; [apply described_app|by constructor|].
    intros _. apply forRange_trace_elem; [by constructor|apply described_app|].
    intros [] record Hrecord. unfold described.
    destruct (collectRecord_sent owner (fqName online) (fqName busy) record) as (-> & _).
    apply recordSamples_sampleOf; [done|by rewrite Ho|by rewrite Hb].
  - unfold described. cbn [mbind Go_bind trace fst]. rewrite Hget. constructor.
  - unfold described. cbn [mbind Go_bind trace fst]. rewrite Hget. constructor.
Qed.

End RunnerSamples.

Section RunnerDescriptors.
Import Runner.
Variable failures : option CounterVec.

(** [Describe] of the runner collector announces the six descriptors
    [Metrics] lists, in the same order, under pairwise distinct names and
    all over the same five labels, and every sample [Collect] sends, also
    when it ends in a panic, is a sample of one of them for a record that
    the fetcher of the scope of the descriptor returned: it carries the
    name of the descriptor and one value for each label, so that
    [MustNewConstMetric] is never called with the wrong number of label
    values; the labels id, name, os and status hold, in this order, those
    of the record, the label owner holds the fixed text of the scope and
    never an owner; an online gauge is 1 exactly for the status "online",
    and a busy gauge is 1 exactly when the busy flag of the record is
    set. *)
Theorem runner_samples_match_descriptors (fuel : nat) (c : Client) (cfg : Target) :
  let collector := (NewRunnerCollector failures).2 in
  Describe collector = Metrics collector ∧
  NoDup (fqName <$> Describe collector) ∧
  Forall (fun d => variableLabels d = ["owner"; "id"; "name"; "os"; "status"]
                   ∧ scopeOwner d ∈ ["TODO: repo"; "TODO: enterprise"; "TODO: org"])
    (Describe collector) ∧
  (scopeRecords fuel c cfg <$> Describe collector
   = [returned [] (repoRunners fuel c cfg); returned [] (repoRunners fuel c cfg);
      returned [] (enterpriseRunners fuel c cfg);
      returned [] (enterpriseRunners fuel c cfg);
      returned [] (orgRunners fuel c cfg); returned [] (orgRunners fuel c cfg)]) ∧
  Forall (sampleOf collector (scopeRecords fuel c cfg)) (sent (trace (Collect fuel c cfg))).
Proof.
  cbn zeta. split; [done|]. split; [|split; [|split]].
  - apply (bool_decide_unpack _). vm_compute. reflexivity.
  - repeat constructor.
  - reflexivity.
  - unfold Collect.
    apply (bind_trace_closed
             (fun t => Forall (sampleOf (NewRunnerCollector failures).2
                                 (scopeRecords fuel c cfg)) (sent t)));
      [apply described_app| |intros _].
    { apply (collectBlock_described failures (scopeRecords fuel c cfg)
               (repoRunners fuel c cfg) "TODO: repo"
               (Fields.RepoOnline (NewRunnerCollector failures).2)
               (Fields.RepoBusy (NewRunnerCollector failures).2));
        [apply repoRunners_sendsNothing|repeat constructor|done|done]. }
    apply (bind_trace_closed
             (fun t => Forall (sampleOf (NewRunnerCollector failures).2
                                 (scopeRecords fuel c cfg)) (sent t)));
      [apply described_app| |intros _].
    { apply (collectBlock_described failures (scopeRecords fuel c cfg)
               (enterpriseRunners fuel c cfg) "TODO: enterprise"
               (Fields.EnterpriseOnline (NewRunnerCollector failures).2)
               (Fields.EnterpriseBusy (NewRunnerCollector failures).2));
        [apply enterpriseRunners_sendsNothing|repeat constructor|done|done]. }
    apply (collectBlock_described failures (scopeRecords fuel c cfg)
             (orgRunners fuel c cfg) "TODO: org"
             (Fields.OrgOnline (NewRunnerCollector failures).2)
             (Fields.OrgBusy (NewRunnerCollector failures).2));
      [apply orgRunners_sendsNothing|repeat constructor|done|done].
Qed.

End RunnerDescriptors.

Section RunnerTelemetry.
Import Runner.

(** The traces of the fetchers: failures are counted under "runner" and
    nothing is observed. *)
Let fetching (t : list Event) : Prop :=
  Forall (eq "runner") (failureLabels t) ∧ observedLabels t = [].

Lemma fetching_app (t1 t2 : list Event) : fetching t1 -> fetching t2 -> fetching (t1 ++ t2).
Proof.
  intros [Hf1 Ho1] [Hf2 Ho2]. unfold fetching.
  rewrite failureLabels_app, observedLabels_app, Forall_app, Ho1, Ho2. done.
Qed.

Lemma fetching_nil : fetching [].
Proof. split; [constructor|done]. Qed.

Lemma fetching_failure (log : LogRecord) : fetching [EvLog log; EvFailure "runner"].
Proof. split; [by repeat constructor|done]. Qed.

Lemma entityBody_fetching (paged : Go (list Runner * option GoError)) (msg name : string)
    (result : list Runner) :
  trace paged = [] ->
  fetching (trace (r ← paged;
                   match r.2 with
                   | Some err =>
                       logError msg [("name", VString name); ("err", VError err)];;
                       failuresInc "runner";;
                       mret result
                   | None => mret (result ++ r.1)
                   end)).
Proof.
  intros Ht. apply (bind_trace_closed fetching);
    [apply fetching_app|rewrite Ht; apply fetching_nil|].
  intros [rs [err|]]; [apply fetching_failure|apply fetching_nil].
Qed.

Lemma enterpriseRunners_fetching (fuel : nat) (c : Client) (cfg : Target) :
  fetching (trace (enterpriseRunners fuel c cfg)).
Proof.
  unfold enterpriseRunners.
  apply (forRange_trace _ fetching); [apply fetching_nil|apply fetching_app|].
  intros result name. by apply entityBody_fetching.
Qed.

Lemma orgRunners_fetching (fuel : nat) (c : Client) (cfg : Target) :
  fetching (trace (orgRunners fuel c cfg)).
Proof.
  unfold orgRunners.
  apply (forRange_trace _ fetching); [apply fetching_nil|apply fetching_app|].
  intros result name. by apply entityBody_fetching.
Qed.

Lemma repoRunners_fetching (fuel : nat) (c : Client) (cfg : Target) :
  fetching (trace (repoRunners fuel c cfg)).
Proof.
  unfold repoRunners.
  apply (forRange_trace _ fetching); [apply fetching_nil|apply fetching_app|].
  intros result name. unfold repoRunnersName. cbn zeta.
  destruct (strings.Split name "/") as [|splitOwner [|splitName [|third rest]]];
    try apply fetching_failure.
  destruct (reposByOwnerAndName c splitOwner splitName) as [repos|err];
    [|apply fetching_failure].
  apply (forRange_trace _ fetching); [apply fetching_nil|apply fetching_app|].
  intros result' repo. unfold repoRunnersRepo.
  apply (bind_trace_closed fetching);
    [apply fetching_app|destruct (FullName repo); apply fetching_nil|].
  intros fullName. destruct (glob.Glob name fullName); cbn [negb]; [|apply fetching_nil].
  apply (bind_trace_closed fetching);
    [apply fetching_app|destruct (Owner repo); apply fetching_nil|].
  intros owner. apply (bind_trace_closed fetching);
    [apply fetching_app|destruct (Login owner); apply fetching_nil|].
  intros login. apply (bind_trace_closed fetching);
    [apply fetching_app|destruct (RepoName repo); apply fetching_nil|].
  intros repoName. by apply entityBody_fetching.
Qed.

Lemma collectLoop_labels (owner onlineDesc busyDesc : string) (records : list Runner) :
  failureLabels (trace (forRange (collectRecord owner onlineDesc busyDesc) records tt)) = []
  ∧ observedLabels (trace (forRange (collectRecord owner onlineDesc busyDesc) records tt))
    = [].
Proof.
  apply (forRange_trace _ (fun t => failureLabels t = [] ∧ observedLabels t = [])).
  - done.
  - intros t1 t2 [Hf1 Ho1] [Hf2 Ho2].
    by rewrite failureLabels_app, observedLabels_app, Hf1, Hf2, Ho1, Ho2.
  - intros [] record. by destruct (collectRecord_sent owner onlineDesc busyDesc record)
      as (_ & -> & ->).
Qed.

Lemma collectBlock_labels (get : Go (list Runner)) (owner onlineDesc busyDesc : string) :
  fetching (trace get) ->
  Forall (eq "runner") (failureLabels (trace (collectBlock get owner onlineDesc busyDesc)))
  ∧ observedLabels (trace (collectBlock get owner onlineDesc busyDesc))
    = match outcome get with Returned _ => ["runner"] | _ => [] end.
Proof.
  intros [Hf Ho]. unfold collectBlock. rewrite Go_bind_trace.
  destruct (outcome get) as [records| |]; [|done..].
  rewrite Go_bind_trace. cbn [outcome durationObserve emit snd trace fst].
  destruct (collectLoop_labels owner onlineDesc busyDesc records) as [Hlf Hlo].
  rewrite !failureLabels_app, !observedLabels_app, Hlf, Hlo, Ho, app_nil_r. done.
Qed.

Lemma runner_Collect_failureLabels (fuel : nat) (c : Client) (cfg : Target) :
  Forall (eq "runner") (failureLabels (trace (Collect fuel c cfg))).
Proof.
  destruct (collectBlock_labels (repoRunners fuel c cfg) "TODO: repo" RepoOnline RepoBusy
              (repoRunners_fetching fuel c cfg)) as [Hf1 _].
  destruct (collectBlock_labels (enterpriseRunners fuel c cfg) "TODO: enterprise"
              EnterpriseOnline EnterpriseBusy (enterpriseRunners_fetching fuel c cfg))
    as [Hf2 _].
  destruct (collectBlock_labels (orgRunners fuel c cfg) "TODO: org" OrgOnline OrgBusy
              (orgRunners_fetching fuel c cfg)) as [Hf3 _].
  unfold Collect.
  apply (bind_trace_closed (fun t => Forall (eq "runner") (failureLabels t)));
    [intros t1 t2 H1 H2; by rewrite failureLabels_app, Forall_app|done|intros _].
  apply (bind_trace_closed (fun t => Forall (eq "runner") (failureLabels t)));
    [intros t1 t2 H1 H2; by rewrite failureLabels_app, Forall_app|done|done].
Qed.

(** Whatever the client answers and however [Collect] of the runner
    collector ends, every failure it counts is counted under "runner" and
    every duration it observes is observed under "runner", at most once for
    each of its three scopes; when it returns, it has observed exactly
    three durations. *)
Theorem runner_telemetry_labels (fuel : nat) (c : Client) (cfg : Target) :
  Forall (eq "runner") (failureLabels (trace (Collect fuel c cfg))) ∧
  ∃ k : nat,
    (k <= 3)%nat
    ∧ observedLabels (trace (Collect fuel c cfg)) = replicate k "runner"
    ∧ (outcome (Collect fuel c cfg) = Returned tt -> k = 3%nat).
Proof.
  destruct (collectBlock_labels (repoRunners fuel c cfg) "TODO: repo" RepoOnline RepoBusy
              (repoRunners_fetching fuel c cfg)) as [Hf1 Ho1].
  destruct (collectBlock_labels (enterpriseRunners fuel c cfg) "TODO: enterprise"
              EnterpriseOnline EnterpriseBusy (enterpriseRunners_fetching fuel c cfg))
    as [Hf2 Ho2].
  destruct (collectBlock_labels (orgRunners fuel c cfg) "TODO: org" OrgOnline OrgBusy
              (orgRunners_fetching fuel c cfg)) as [Hf3 Ho3].
  split; [apply runner_Collect_failureLabels|].
  - pose proof (Collect_returns fuel c cfg) as Hret.
    pose proof (collectBlock_returns "TODO: repo" RepoOnline RepoBusy
                  (repoRunners fuel c cfg)) as Hr1.
    pose proof (collectBlock_returns "TODO: enterprise" EnterpriseOnline EnterpriseBusy
                  (enterpriseRunners fuel c cfg)) as Hr2.
    pose proof (collectBlock_returns "TODO: org" OrgOnline OrgBusy
                  (orgRunners fuel c cfg)) as Hr3.
    unfold Collect in *. rewrite !Go_bind_trace.
    destruct (outcome (collectBlock (repoRunners fuel c cfg) _ _ _)) as [[]| |].
    + destruct (proj1 Hr1 eq_refl) as (rs1 & Hg1 & _). rewrite Hg1 in Ho1.
      rewrite observedLabels_app.
      destruct (outcome (collectBlock (enterpriseRunners fuel c cfg) _ _ _)) as [[]| |].
      * destruct (proj1 Hr2 eq_refl) as (rs2 & Hg2 & _). rewrite Hg2 in Ho2.
        rewrite observedLabels_app, Ho1, Ho2, Ho3.
        destruct (outcome (orgRunners fuel c cfg)) as [rs3| |] eqn:Hg3.
        -- exists 3%nat. done.
        -- exists 2%nat. split; [lia|]. split; [done|].
           intros (_ & _ & H3)%Hret. by apply Hr3 in H3 as (? & ? & _).
        -- exists 2%nat. split; [lia|]. split; [done|].
           intros (_ & _ & H3)%Hret. by apply Hr3 in H3 as (? & ? & _).
      * rewrite Ho1, Ho2. destruct (outcome (enterpriseRunners fuel c cfg)).
        -- exists 2%nat. split; [lia|]. split; [done|]. by intros (_ & ? & _)%Hret.
        -- exists 1%nat. split; [lia|]. split; [done|]. by intros (_ & ? & _)%Hret.
        -- exists 1%nat. split; [lia|]. split; [done|]. by intros (_ & ? & _)%Hret.
      * rewrite Ho1, Ho2. destruct (outcome (enterpriseRunners fuel c cfg)).
        -- exists 2%nat. split; [lia|]. split; [done|]. by intros (_ & ? & _)%Hret.
        -- exists 1%nat. split; [lia|]. split; [done|]. by intros (_ & ? & _)%Hret.
        -- exists 1%nat. split; [lia|]. split; [done|]. by intros (_ & ? & _)%Hret.
    + rewrite Ho1. destruct (outcome (repoRunners fuel c cfg)).
      * exists 1%nat. split; [lia|]. split; [done|]. by intros (? & _)%Hret.
      * exists 0%nat. split; [lia|]. split; [done|]. by intros (? & _)%Hret.
      * exists 0%nat. split; [lia|]. split; [done|]. by intros (? & _)%Hret.
    + rewrite Ho1. destruct (outcome (repoRunners fuel c cfg)).
      * exists 1%nat. split; [lia|]. split; [done|]. by intros (? & _)%Hret.
      * exists 0%nat. split; [lia|]. split; [done|]. by intros (? & _)%Hret.
      * exists 0%nat. split; [lia|]. split; [done|]. by intros (? & _)%Hret.
Qed.

End RunnerTelemetry.

(** ** The failure counters the constructors touch *)

Section FailureCounter.
Context `{GoRuntime}.

Lemma counterAdd_dom (vec : CounterVec) (label : string) (v : float) :
  dom (counterAdd vec label v) = {[ label ]} ∪ dom vec.
Proof. unfold counterAdd. apply dom_insert_L. Qed.

Lemma counterAdd_other (vec : CounterVec) (label other : string) (v : float) :
  other ≠ label -> counterAdd vec label v !! other = vec !! other.
Proof. intros Hne. unfold counterAdd. apply lookup_insert_ne. congruence. Qed.

(** Increments of children that exist already create no child. *)
Lemma countLabels_dom (labels : list string) (vec : CounterVec) :
  Forall (fun label => label ∈ dom vec) labels ->
  dom (foldl (fun vec label => counterAdd vec label 1) vec labels) = dom vec.
Proof.
  revert vec; induction labels as [|label labels IH]; intros vec Hin; [done|].
  apply Forall_cons in Hin as [Hl Hin]. cbn [foldl].
  assert (Hdom : dom (counterAdd vec label 1) = dom vec).
  { rewrite counterAdd_dom. apply leibniz_equiv. intros x.
    rewrite elem_of_union, elem_of_singleton. split; [intros [->|?]; done|by right]. }
  rewrite IH; [done|]. by rewrite Hdom.
Qed.

(** Increments under other labels leave a child as it is. *)
Lemma countLabels_other (labels : list string) (vec : CounterVec) (other : string) :
  Forall (fun label => other ≠ label) labels ->
  foldl (fun vec label => counterAdd vec label 1) vec labels !! other = vec !! other.
Proof.
  revert vec; induction labels as [|label labels IH]; intros vec Hne; [done|].
  apply Forall_cons in Hne as [Hl Hne]. cbn [foldl].
  by rewrite IH, counterAdd_other.
Qed.

Lemma countLabels_grows (labels : list string) (vec : CounterVec) :
  dom vec ⊆ dom (foldl (fun vec label => counterAdd vec label 1) vec labels).
Proof.
  revert vec; induction labels as [|label labels IH]; intros vec; [done|].
  cbn [foldl]. etransitivity; [|apply IH]. rewrite counterAdd_dom.
  intros x Hx. apply elem_of_union. by right.
Qed.

(** Each constructor leaves a [nil] failure counter alone and otherwise
    touches one child of it with [Add(0)], which creates the child when it
    does not exist and changes no other: "billing" for both billing
    collectors, "runner" for the runner collector.  [Collect] of the v5
    billing collector and of the runner collector count their failures
    under that label only, so they create no further child.  [Collect] of
    the legacy billing collector never counts under "billing": the child the
    constructor created keeps its value, and the failures go to the child
    "action", which appears with the first failing fetch. *)
Theorem failure_counter_children (vec : CounterVec) :
  ((V5.NewBillingCollector None).1 = None
   ∧ (Legacy.NewBillingCollector None).1 = None
   ∧ (Runner.NewRunnerCollector None).1 = None) ∧
  (∃ vec' : CounterVec,
     (V5.NewBillingCollector (Some vec)).1 = Some vec'
     ∧ dom vec' = {[ "billing" ]} ∪ dom vec
     ∧ (∀ label : string, label ≠ "billing" -> vec' !! label = vec !! label)
     ∧ ∀ (c : V5.Client) (cfg : Target),
         dom (countFailures vec' (trace (V5.Collect c cfg))) = dom vec') ∧
  (∃ vec' : CounterVec,
     (Runner.NewRunnerCollector (Some vec)).1 = Some vec'
     ∧ dom vec' = {[ "runner" ]} ∪ dom vec
     ∧ (∀ label : string, label ≠ "runner" -> vec' !! label = vec !! label)
     ∧ ∀ (fuel : nat) (c : Runner.Client) (cfg : Target),
         dom (countFailures vec' (trace (Runner.Collect fuel c cfg))) = dom vec') ∧
  (∃ vec' : CounterVec,
     (Legacy.NewBillingCollector (Some vec)).1 = Some vec'
     ∧ dom vec' = {[ "billing" ]} ∪ dom vec
     ∧ (∀ label : string, label ≠ "billing" -> vec' !! label = vec !! label)
     ∧ ∀ (c : Legacy.Client) (cfg : Target),
         countFailures vec' (trace (Legacy.Collect c cfg)) !! "billing"
         = vec' !! "billing"
         ∧ (Legacy.failingEntities c cfg ≠ [] ->
            "action" ∈ dom (countFailures vec' (trace (Legacy.Collect c cfg))))).
Proof.
  split; [done|]. split; [|split].
  - exists (counterAdd vec "billing" 0). split; [done|].
    split; [apply counterAdd_dom|]. split; [intros; by apply counterAdd_other|].
    intros c cfg. unfold countFailures. apply countLabels_dom.
    destruct (v5_collect_resilient c cfg) as (_ & -> & _).
    apply Forall_replicate. rewrite counterAdd_dom. apply elem_of_union. left.
    by apply elem_of_singleton.
  - exists (counterAdd vec "runner" 0). split; [done|].
    split; [apply counterAdd_dom|]. split; [intros; by apply counterAdd_other|].
    intros fuel c cfg. unfold countFailures. apply countLabels_dom.
    eapply Forall_impl; [apply runner_Collect_failureLabels|]. intros l <-.
    rewrite counterAdd_dom. apply elem_of_union. left. by apply elem_of_singleton.
  - exists (counterAdd vec "billing" 0). split; [done|].
    split; [apply counterAdd_dom|]. split; [intros; by apply counterAdd_other|].
    intros c cfg. unfold countFailures. rewrite legacy_Collect_failureLabels. split.
    + apply countLabels_other, Forall_replicate. discriminate.
    + intros Hfail. destruct (Legacy.failingEntities c cfg) as [|e es]; [done|].
      cbn [length Nat.mul Nat.add replicate foldl].
      apply countLabels_grows. rewrite counterAdd_dom. apply elem_of_union. left.
      by apply elem_of_singleton.
Qed.

End FailureCounter.

(** ** The runner collector: the repositories of a configured name *)

Lemma forRange_ext_Forall {A St : Type} (body body' : St -> A -> Go St) (xs : list A) :
  Forall (fun x => ∀ s, body s x = body' s x) xs ->
  ∀ s, forRange body xs s = forRange body' xs s.
Proof.
  induction 1 as [|x xs Hx _ IH]; intros s; cbn [forRange]; [done|].
  rewrite Hx. by apply Go_bind_ext.
Qed.

Lemma concat_fmap_replicate {A B : Type} (f : A -> nat) (b : B) (xs : list A) :
  concat ((fun x => replicate (f x) b) <$> xs) = replicate (sum_list (f <$> xs)) b.
Proof.
  induction xs as [|x xs IH]; [done|]. cbn [fmap list_fmap concat sum_list].
  cbn [sum_list_with]. by rewrite IH, replicate_add.
Qed.

Lemma selectedRepos_listed (c : Runner.Client) (name : string) :
  Runner.selectedRepos c name
  = filter (fun repo => Runner.matchesName name repo = true) (Runner.listedRepos c name).
Proof.
  unfold Runner.selectedRepos, Runner.listedRepos.
  destruct (strings.Split name "/") as [|splitOwner [|splitName [|third rest]]]; try done.
  by destruct (Runner.reposByOwnerAndName c splitOwner splitName).
Qed.

Section RepoRunners.
Import Runner.
Variables (fuel : nat) (c : Client).

Hypothesis listed_wellFormed :
  ∀ (splitOwner splitName : string) (repos : list Repository),
    reposByOwnerAndName c splitOwner splitName = Ok repos -> Forall wellFormed repos.

Hypothesis fetches_finish :
  ∀ owner name : string, finishes (pagedRepoRunners fuel c owner name).

(** On a repository that matches and has its pointers set, the iteration
    is the paged fetch and what follows it. *)
Lemma repoRunnersRepo_selected (name : string) (result : list Runner) (repo : Repository) :
  wellFormed repo -> matchesName name repo = true ->
  repoRunnersRepo fuel c name result repo
  = (r ← repoFetch fuel c repo;
     match r.2 with
     | Some err =>
         logError "Failed to fetch repo runners"
           [("name", VString name); ("err", VError err)];;
         failuresInc "runner";;
         mret result
     | None => mret (result ++ r.1)
     end).
Proof.
  unfold wellFormed, matchesName, repoRunnersRepo, repoFetch.
  intros ([fullName Hfull] & (owner & Howner & [login Hlogin]) & [repoName Hname]).
  rewrite Hfull, Howner, Hname. cbn [deref mbind option_bind default].
  rewrite Hlogin. cbn [deref default]. intros Hm.
  rewrite Go_ret_bind, Glob_wildcardMatch, Hm. cbn [negb].
  rewrite !Go_ret_bind, Hlogin. cbn [deref]. by rewrite !Go_ret_bind.
Qed.

Lemma repoRunnersName_gathers (name : string) (result : list Runner) :
  repoRunnersName fuel c result name
  = (trace (repoRunnersName fuel c [] name),
     Returned (result ++ repoGathered fuel c name))
  ∧ failureLabels (trace (repoRunnersName fuel c [] name))
    = replicate (repoFailures fuel c name) "runner"
  ∧ logScope <$> errorsLogged (trace (repoRunnersName fuel c [] name))
    = replicate (repoFailures fuel c name) (None, Some (VString name)).
Proof.
  unfold repoRunnersName, repoGathered, repoFailures, selectedRepos, nameFails.
  cbn zeta.
  destruct (strings.Split name "/") as [|splitOwner [|splitName [|third rest]]];
    try (by rewrite app_nil_r).
  destruct (reposByOwnerAndName c splitOwner splitName) as [repos|err] eqn:Hrepos;
    [|by rewrite app_nil_r].
  pose proof (listed_wellFormed _ _ _ Hrepos) as Hwf.
  assert (Hfull : Forall (fun repo => is_Some (FullName repo)) repos).
  { eapply Forall_impl; [exact Hwf|]. by intros repo (? & _). }
  set (sel := filter (fun repo => matchesName name repo = true) repos).
  assert (Hsel : Forall (fun repo => wellFormed repo ∧ matchesName name repo = true) sel).
  { apply Forall_forall. intros repo [Hm Hin]%list_elem_of_filter. split; [|done].
    by apply (proj1 (Forall_forall _ _) Hwf). }
  destruct (entityLoop_finishes (repoFetch fuel c) (fun _ => name)
              "Failed to fetch repo runners" (fun _ => eq_refl) sel)
    as (Hloop & Hf & He & _).
  { apply Forall_forall. intros repo _. apply fetches_finish. }
  assert (Hrun : ∀ acc, forRange (repoRunnersRepo fuel c name) repos acc
                        = forRange
                            (fun result repo =>
                               r ← repoFetch fuel c repo;
                               match r.2 with
                               | Some err =>
                                   logError "Failed to fetch repo runners"
                                     [("name", VString name); ("err", VError err)];;
                                   failuresInc "runner";;
                                   mret result
                               | None => mret (result ++ r.1)
                               end) sel acc).
  { intros acc. rewrite repoRunnersRepo_filter by done. fold sel.
    apply forRange_ext_Forall. eapply Forall_impl; [exact Hsel|].
    intros repo [Hw Hm] s. by apply repoRunnersRepo_selected. }
  rewrite !Hrun, !Hloop. cbn [trace fst app]. split; [done|]. split; [exact Hf|].
  rewrite He. generalize (filter (fun x => pagedFails (repoFetch fuel c x) = true) sel).
  induction l as [|x l IH]; cbn; [done|]. by rewrite IH.
Qed.

Lemma repoRunners_gathers (cfg : Target) :
  repoRunners fuel c cfg
  = (concat ((fun name => trace (repoRunnersName fuel c [] name)) <$> Repos cfg),
     Returned (concat (repoGathered fuel c <$> Repos cfg))).
Proof.
  unfold repoRunners.
  rewrite (forRange_gather _ (fun name => trace (repoRunnersName fuel c [] name))
             (repoGathered fuel c)); [done|].
  intros result name. by destruct (repoRunnersName_gathers name result) as [-> _].
Qed.

End RepoRunners.

(** C2, as amended: the filter of the runner collector is anchored,
    case-sensitive glob matching in which [*] is the only wildcard; [?] is
    an ordinary character.  A name without [*] matches exactly itself.  Of
    the repositories listed for a configured name, [repoRunners] retains
    exactly those whose full name matches: a repository that does not
    match is passed over without any effect, and for one that matches the
    runners are fetched by the login of its owner and its name and added
    to the result.  So, when the listed repositories have their pointers
    set and the paged fetches are over within the bound, [repoRunners]
    returns the runners of the matching repositories, in the order
    listed. *)
Theorem repo_filter_is_star_glob :
  (∀ pattern fullName : string,
     glob.Glob pattern fullName = glob.wildcardMatch false pattern fullName) ∧
  (∀ pattern fullName : string,
     glob.starFree pattern -> glob.Glob pattern fullName = true ↔ fullName = pattern) ∧
  (∀ (fuel : nat) (c : Runner.Client) (name : string)
     (repos : list Runner.Repository) (result : list Runner.Runner),
     Forall (fun repo => is_Some (Runner.FullName repo)) repos ->
     forRange (Runner.repoRunnersRepo fuel c name) repos result
     = forRange (Runner.repoRunnersRepo fuel c name)
         (filter (fun repo => Runner.matchesName name repo = true) repos) result) ∧
  (∀ (fuel : nat) (c : Runner.Client) (name : string) (result : list Runner.Runner)
     (repo : Runner.Repository),
     Runner.wellFormed repo -> Runner.matchesName name repo = true ->
     Runner.repoRunnersRepo fuel c name result repo
     = (r ← Runner.repoFetch fuel c repo;
        match r.2 with
        | Some err =>
            logError "Failed to fetch repo runners"
              [("name", VString name); ("err", VError err)];;
            failuresInc "runner";;
            mret result
        | None => mret (result ++ r.1)
        end)) ∧
  (∀ (fuel : nat) (c : Runner.Client),
     (∀ (splitOwner splitName : string) (repos : list Runner.Repository),
        Runner.reposByOwnerAndName c splitOwner splitName = Ok repos ->
        Forall Runner.wellFormed repos) ->
     (∀ owner name : string, Runner.finishes (Runner.pagedRepoRunners fuel c owner name)) ->
     ∀ cfg : Target,
       outcome (Runner.repoRunners fuel c cfg)
       = Returned
           (concat
              ((fun name =>
                  concat ((fun repo =>
                             (returned ([], None) (Runner.repoFetch fuel c repo)).1)
                            <$> filter
                                  (fun repo =>
                                     Runner.pagedFails (Runner.repoFetch fuel c repo) = false)
                                  (filter (fun repo => Runner.matchesName name repo = true)
                                     (Runner.listedRepos c name))))
                 <$> Repos cfg))).
Proof.
  split; [|split; [|split; [|split]]].
  - apply Glob_wildcardMatch.
  - apply Glob_no_wildcard.
  - apply repoRunnersRepo_filter.
  - intros fuel c name result repo. apply repoRunnersRepo_selected.
  - intros fuel c Hwf Hfin cfg. rewrite (repoRunners_gathers fuel c Hwf Hfin).
    cbn [outcome snd]. do 2 f_equal. apply list_fmap_ext. intros i name _.
    unfold Runner.repoGathered. by rewrite selectedRepos_listed.
Qed.

(** C2, as stated, fails: under glob semantics with [?] the pattern
    acme/we? matches acme/web, but the filter of the collector rejects it,
    so the runners of the repository are not collected; configured by its
    exact name they are. *)
Lemma repo_filter_counterexample :
  glob.wildcardMatch true "acme/we?" "acme/web" = true
  ∧ glob.Glob "acme/we?" "acme/web" = false
  ∧ Runner.repoRunners 2 webClient webByQuestionMark = ([], Returned [])
  ∧ Runner.repoRunners 2 webClient webByName = ([], Returned [webRunner]).
Proof. repeat split; reflexivity. Qed.

Lemma twoRepos_wellFormed (splitOwner splitName : string)
    (repos : list Runner.Repository) :
  Runner.reposByOwnerAndName twoReposClient splitOwner splitName = Ok repos ->
  Forall Runner.wellFormed repos.
Proof.
  intros [= <-].
  assert (Hwf : ∀ fullName login repoName,
            Runner.wellFormed {| Runner.FullName := Some fullName;
                                 Runner.Owner := Some {| Runner.Login := Some login |};
                                 Runner.RepoName := Some repoName |}).
  { intros fullName login repoName. split; [by eexists|]. split; [|by eexists].
    eexists. split; [reflexivity|by eexists]. }
  constructor; [apply Hwf|]. constructor; [apply Hwf|constructor].
Qed.

Lemma twoRepos_finish (owner name : string) :
  Runner.finishes (Runner.pagedRepoRunners 1 twoReposClient owner name).
Proof.
  unfold Runner.finishes, Runner.pagedRepoRunners, Runner.pagedLoop.
  cbn [outcome snd twoReposClient Runner.ListRunners].
  destruct (String.eqb name "web"); by eexists.
Qed.

(** With the repositories acme/web and acme/api listed, the name acme/*b
    retains acme/web alone. *)
Lemma repo_filter_witness :
  outcome (Runner.repoRunners 1 twoReposClient webBySuffix) = Returned [webRunner].
Proof.
  destruct repo_filter_is_star_glob as (_ & _ & _ & _ & Hgather).
  rewrite (Hgather 1%nat twoReposClient twoRepos_wellFormed twoRepos_finish webBySuffix).
  reflexivity.
Defined.

(** ** The repository filter: a name ending in a glob *)

Section RepoPrefix.
Import Runner.

Lemma Glob_prefix (prefix fullName : string) :
  glob.starFree prefix ->
  glob.Glob (prefix +:+ "*") fullName = strings.HasPrefix fullName prefix.
Proof.
  intros Hfree. rewrite Glob_wildcardMatch. apply eq_true_iff_eq.
  rewrite (wildcardMatch_literal _ _ _ Hfree), HasPrefix_iff. split.
  - intros (r & -> & _). by exists r.
  - intros (r & ->). exists r. split; [done|].
    apply wildcardMatch_star. exists r, "". by rewrite string_app_nil_r.
Qed.

Lemma matchesName_prefix (prefix : string) (repos : list Repository) :
  glob.starFree prefix ->
  filter (fun repo => matchesName (prefix +:+ "*") repo = true) repos
  = filter (fun repo => startsWith prefix repo = true) repos.
Proof.
  intros Hfree. induction repos as [|repo repos IH]; [done|].
  rewrite !filter_cons, IH.
  assert (Heq : matchesName (prefix +:+ "*") repo = startsWith prefix repo).
  { unfold matchesName, startsWith. destruct (FullName repo) as [fullName|]; [|done].
    by rewrite <- Glob_wildcardMatch, Glob_prefix. }
  by rewrite Heq.
Qed.

(** A configured name that ends in its only [*] selects the repositories
    by prefix.  When the listed repositories have their pointers set and
    the paged fetches are over within the bound, the iteration of
    [repoRunners] for such a name adds to the result the runners of exactly
    those repositories listed for it whose full name starts with what
    stands before the [*], compared byte by byte, in the order listed
    (those of them whose paged fetch ends without error), and counts one
    failure for each of them whose paged fetch ends with an error. *)
Theorem repo_prefix_pattern (fuel : nat) (c : Client) (prefix : string)
    (result : list Runner) :
  glob.starFree prefix ->
  (∀ (splitOwner splitName : string) (repos : list Repository),
     reposByOwnerAndName c splitOwner splitName = Ok repos -> Forall wellFormed repos) ->
  (∀ owner name : string, finishes (pagedRepoRunners fuel c owner name)) ->
  let chosen := filter (fun repo => startsWith prefix repo = true)
                  (listedRepos c (prefix +:+ "*")) in
  (∀ fullName : string,
     glob.Glob (prefix +:+ "*") fullName = strings.HasPrefix fullName prefix) ∧
  outcome (repoRunnersName fuel c result (prefix +:+ "*"))
  = Returned
      (result
       ++ concat ((fun repo => (returned ([], None) (repoFetch fuel c repo)).1)
                    <$> filter (fun repo => pagedFails (repoFetch fuel c repo) = false)
                          chosen)) ∧
  (nameFails c (prefix +:+ "*") = false ->
   failureLabels (trace (repoRunnersName fuel c result (prefix +:+ "*")))
   = replicate
       (length (filter (fun repo => pagedFails (repoFetch fuel c repo) = true) chosen))
       "runner").
Proof.
  intros Hfree Hwf Hfin. cbn zeta.
  destruct (repoRunnersName_gathers fuel c Hwf Hfin (prefix +:+ "*") result)
    as (Hrun & Hfail & _).
  split; [intros; by apply Glob_prefix|]. split.
  - rewrite Hrun. cbn [outcome snd]. unfold repoGathered.
    by rewrite selectedRepos_listed, matchesName_prefix.
  - intros Hname. rewrite Hrun. cbn [trace fst]. rewrite Hfail.
    unfold repoFailures. rewrite Hname.
    by rewrite selectedRepos_listed, matchesName_prefix.
Qed.

End RepoPrefix.

(** With the repositories acme/web and acme/api listed, the name acme/w*
    adds the runner of acme/web alone. *)
Lemma repo_prefix_pattern_witness :
  outcome (Runner.repoRunnersName 1 twoReposClient [] ("acme/w" +:+ "*"))
  = Returned [webRunner].
Proof.
  destruct (repo_prefix_pattern 1 twoReposClient "acme/w" [] eq_refl
              twoRepos_wellFormed twoRepos_finish) as (_ & Hrun & _).
  rewrite Hrun. reflexivity.
Defined.

(** When every repository the client lists has its pointers set and every
    paged fetch is over within the bound, [repoRunners] returns, for the
    configured names in order, the runners of the repositories listed for
    the name that match it and whose paged fetch ends without error, in the
    order listed.  It counts one failure of "runner", and logs one error
    record with the configured name, for every name that is invalid or
    whose repositories cannot be listed, and for every matching repository
    whose paged fetch ends with an error; such a name or repository adds no
    runner and stops nothing. *)
Theorem repo_runners_gather_matching (fuel : nat) (c : Runner.Client) (cfg : Target) :
  (∀ (splitOwner splitName : string) (repos : list Runner.Repository),
     Runner.reposByOwnerAndName c splitOwner splitName = Ok repos ->
     Forall Runner.wellFormed repos) ->
  (∀ owner name : string, Runner.finishes (Runner.pagedRepoRunners fuel c owner name)) ->
  outcome (Runner.repoRunners fuel c cfg)
  = Returned (concat (Runner.repoGathered fuel c <$> Repos cfg)) ∧
  failureLabels (trace (Runner.repoRunners fuel c cfg))
  = replicate (sum_list (Runner.repoFailures fuel c <$> Repos cfg)) "runner" ∧
  logScope <$> errorsLogged (trace (Runner.repoRunners fuel c cfg))
  = concat ((fun name => replicate (Runner.repoFailures fuel c name)
                           (None, Some (VString name))) <$> Repos cfg).
Proof.
  intros Hwf Hfin. rewrite (repoRunners_gathers fuel c Hwf Hfin). cbn [outcome trace fst snd].
  split; [done|]. split.
  - rewrite (hom_concat_fmap failureLabels); [|done|apply failureLabels_app].
    rewrite <- concat_fmap_replicate. f_equal. apply list_fmap_ext. intros i name _.
    by destruct (repoRunnersName_gathers fuel c Hwf Hfin name []) as (_ & -> & _).
  - rewrite (hom_concat_fmap (fun t => logScope <$> errorsLogged t)); [|done|].
    2:{ intros a b. by rewrite errorsLogged_app, fmap_app. }
    f_equal. apply list_fmap_ext. intros i name _.
    by destruct (repoRunnersName_gathers fuel c Hwf Hfin name []) as (_ & _ & ->).
Qed.

Lemma repo_runners_gather_witness :
  outcome (Runner.repoRunners 1 webClient webTwice) = Returned [webRunner; webRunner]
  ∧ failureLabels (trace (Runner.repoRunners 1 webClient webTwice)) = []
  ∧ outcome (Runner.repoRunners 1 brokenRunnersClient webAndNonsense) = Returned []
  ∧ failureLabels (trace (Runner.repoRunners 1 brokenRunnersClient webAndNonsense))
    = ["runner"; "runner"].
Proof.
  assert (Hweb : Runner.wellFormed webRepo).
  { split; [by eexists|]. split; [|by eexists].
    eexists. split; [reflexivity|by eexists]. }
  destruct (repo_runners_gather_matching 1 webClient webTwice) as (Ho & Hf & _).
  { intros splitOwner splitName repos [= <-]. constructor; [exact Hweb|constructor]. }
  { intros owner name. by eexists. }
  destruct (repo_runners_gather_matching 1 brokenRunnersClient webAndNonsense)
    as (Ho' & Hf' & _).
  { intros splitOwner splitName repos [= <-]. constructor; [exact Hweb|constructor]. }
  { intros owner name. by eexists. }
  split; [exact Ho|]. split; [exact Hf|]. split; [exact Ho'|exact Hf'].
Defined.

(** ** The legacy usage normalizer: the values of the breakdown *)

Lemma wrapInt_add_l (a b : Z) : wrapInt (wrapInt a + b) = wrapInt (a + b).
Proof.
  unfold wrapInt. f_equal.
  replace ((a + 2 ^ 63) mod 2 ^ 64 - 2 ^ 63 + b + 2 ^ 63)
    with ((a + 2 ^ 63) mod 2 ^ 64 + b) by lia.
  rewrite Zplus_mod_idemp_l. f_equal. lia.
Qed.

Section LegacyBreakdownSums.
Context `{GoRuntime}.
Import Legacy.

Lemma accumulateBreakdown_other (m : gmap string Z) (item : UsageItem) (os : string) :
  extractOSFromSKU (SKU item) ≠ os -> accumulateBreakdown m item !! os = m !! os.
Proof.
  intros Hne. unfold accumulateBreakdown, addTo. cbn zeta.
  destruct (String.eqb (extractOSFromSKU (SKU item)) ""); [done|].
  by apply lookup_insert_ne.
Qed.

Lemma accumulateBreakdown_same (m : gmap string Z) (item : UsageItem) (os : string) :
  extractOSFromSKU (SKU item) = os -> os ≠ "" ->
  accumulateBreakdown m item !! os
  = Some (wrapInt (default 0 (m !! os) + intOfFloat (Quantity item))).
Proof.
  intros <- Hne. unfold accumulateBreakdown, addTo. cbn zeta.
  destruct (String.eqb_spec (extractOSFromSKU (SKU item)) ""); [done|].
  by rewrite lookup_insert_eq.
Qed.

(** The entry of [os] after the loop over items of the bucket, when the
    entry so far is a wrapped sum. *)
Lemma foldl_accumulateBreakdown_entry (rs : list UsageItem) (m : gmap string Z)
    (os : string) (sofar : Z) :
  os ≠ "" ->
  (m !! os = None ∧ sofar = 0 ∨ m !! os = Some (wrapInt sofar)) ->
  let mine := filter (fun item => extractOSFromSKU (SKU item) = os) rs in
  foldl accumulateBreakdown m rs !! os
  = match mine with
    | [] => m !! os
    | _ :: _ => Some (wrapInt (sofar + truncatedMinutes mine))
    end.
Proof.
  intros Hne. cbn zeta. revert m sofar.
  induction rs as [|item rs IH]; intros m sofar Hm; [done|].
  cbn [foldl]. rewrite filter_cons.
  destruct (decide (extractOSFromSKU (SKU item) = os)) as [Hos|Hos].
  - assert (Hstep : accumulateBreakdown m item !! os
                    = Some (wrapInt (sofar + intOfFloat (Quantity item)))).
    { rewrite (accumulateBreakdown_same _ _ _ Hos Hne).
      destruct Hm as [[-> ->]| ->]; cbn [default from_option id]; [done|].
      by rewrite wrapInt_add_l. }
    rewrite (IH _ (sofar + intOfFloat (Quantity item))) by (by right).
    rewrite Hstep. unfold truncatedMinutes. cbn [foldr].
    destruct (filter _ rs) as [|x xs]; cbn [foldr]; f_equal; f_equal; lia.
  - rewrite (IH _ sofar).
    + by rewrite accumulateBreakdown_other.
    + by rewrite accumulateBreakdown_other.
Qed.

(** The breakdown of the action bill holds, under each operating system
    that some record of the actions bucket has, the sum of the truncated
    quantities [int(quantity)] of the records of that operating system,
    wrapped to 64 bits, and nothing under any other key: the order of the
    records does not matter for an entry, and fractions of minutes are lost
    record by record. *)
Theorem legacy_breakdown_sums (items : list UsageItem) (billingType name os : string) :
  let a := (parseUsageResponse (Some {| UsageItems := items |}) billingType name).1.1 in
  MinutesUsedBreakdown a !! os
  = match itemsOfOS os items with
    | [] => None
    | mine => if String.eqb os "" then None else Some (wrapInt (truncatedMinutes mine))
    end.
Proof.
  cbn zeta. rewrite parseUsageResponse_foldl.
  pose proof (foldl_parseItem_actions items (emptyBills billingType name)) as Hf.
  cbn zeta in Hf. destruct Hf as (_ & _ & _ & _ & _ & ->).
  cbn [emptyBills fst snd MinutesUsedBreakdown].
  assert (Hmine : itemsOfOS os items
                  = filter (fun item => extractOSFromSKU (SKU item) = os)
                      (filter actionsBucket items)).
  { unfold itemsOfOS. induction items as [|item items IH]; [done|].
    rewrite !filter_cons. destruct (decide (actionsBucket item)) as [Hb|Hb].
    - rewrite filter_cons, IH. repeat case_decide; tauto || done.
    - rewrite IH. case_decide; tauto || done. }
  rewrite Hmine. destruct (String.eqb_spec os "") as [->|Hne].
  - assert (Hnone : foldl accumulateBreakdown ∅ (filter actionsBucket items) !! "" = None).
    { apply eq_None_not_Some. intros [Hs|[Hn _]]%foldl_accumulateBreakdown_keys.
      - rewrite lookup_empty in Hs. by destruct Hs.
      - done. }
    rewrite Hnone. by destruct (filter _ _).
  - rewrite (foldl_accumulateBreakdown_entry _ ∅ os 0 Hne) by (by left).
    rewrite lookup_empty. by destruct (filter _ (filter _ _)).
Qed.

End LegacyBreakdownSums.

(** ** The billing collectors: a failing entity *)

Section LegacyBills.
Context `{GoRuntime}.
Import Legacy.
Variable c : Client.
Context {B : Type}.
Variables (prepareMsg fetchMsg : string).
Variable keep : actionBilling * packageBilling * storageBilling -> B.

Lemma fetchFails_responseOf (endpoint : string -> string) (name : string) :
  fetchFails c endpoint name = false ↔ is_Some (responseOf c endpoint name).
Proof.
  unfold fetchFails, responseOf.
  destruct (NewRequest c "GET" (endpoint name)) as [req|err].
  - destruct (Do c req); split; try done; by intros [? [=]].
  - split; [done|]. by intros [? [=]].
Qed.

(** The bill kept for a name is parsed from the response the client
    answers for it. *)
Lemma fetchBill_kept (billingType : string) (endpoint : string -> string) (name : string) :
  returned [] (fetchBill c billingType endpoint prepareMsg fetchMsg keep [] name)
  = match responseOf c endpoint name with
    | Some response => [keep (parseUsageResponse (Some response) billingType name)]
    | None => []
    end.
Proof.
  unfold fetchBill, responseOf.
  destruct (NewRequest c "GET" (endpoint name)) as [req|err]; [|done].
  by destruct (Do c req).
Qed.

Lemma fetchLoop_bills (billingType : string) (endpoint : string -> string)
    (names : list string) :
  concat ((fun n => returned []
                      (fetchBill c billingType endpoint prepareMsg fetchMsg keep [] n))
            <$> names)
  = (fun n => keep (parseUsageResponse (responseOf c endpoint n) billingType n))
      <$> filter (fun n => fetchFails c endpoint n = false) names.
Proof.
  induction names as [|n names IH]; [done|].
  rewrite filter_cons. cbn [fmap list_fmap concat]. rewrite IH, fetchBill_kept.
  destruct (decide (fetchFails c endpoint n = false)) as [Hok|Hfail].
  - apply fetchFails_responseOf in Hok as [response Hr].
    cbn [fmap list_fmap]. by rewrite Hr.
  - destruct (responseOf c endpoint n) as [response|] eqn:Hr; [|done].
    exfalso. apply Hfail, fetchFails_responseOf. by rewrite Hr.
Qed.

Lemma fetchBoth_bills (cfg : Target) :
  returned [] (fetchBoth c prepareMsg fetchMsg keep cfg) = keep <$> fetchedBills c cfg.
Proof.
  rewrite fetchBoth_gathers. unfold fetchedBills, fetchedEntities.
  cbn [returned outcome snd]. rewrite !fetchLoop_bills, !fmap_app, <- !list_fmap_compose.
  reflexivity.
Qed.

End LegacyBills.

Section FailingEntity.
Context `{GoRuntime}.

Lemma v5_usageItemsOf_entities (c : V5.Client) (cfg : Target) :
  V5.usageItemsOf c cfg
  = concat ((fun e => V5.withEntity e.1 e.2 <$> V5.responseItems c e.1 e.2)
              <$> V5.configuredEntities cfg).
Proof.
  rewrite usageItemsOf_items. unfold V5.configuredEntities.
  by rewrite fmap_app, concat_app, <- !list_fmap_compose.
Qed.

Lemma legacy_Collect_bills (c : Legacy.Client) (cfg : Target) :
  sent (trace (Legacy.Collect c cfg))
  = concat (imap Legacy.actionSamples
              (Legacy.firstOfName Legacy.aName []
                 ((fun bills => bills.1.1) <$> Legacy.fetchedBills c cfg)))
    ++ concat (Legacy.packageSamples
                 <$> Legacy.firstOfName Legacy.pName []
                       ((fun bills => bills.1.2) <$> Legacy.fetchedBills c cfg))
    ++ concat (Legacy.storageSamples
                 <$> Legacy.firstOfName Legacy.sName []
                       ((fun bills => bills.2) <$> Legacy.fetchedBills c cfg)).
Proof.
  rewrite legacy_Collect_samples.
  unfold Legacy.getActionBilling, Legacy.getPackageBilling, Legacy.getStorageBilling.
  by rewrite !fetchBoth_bills.
Qed.

(** C4, as amended: a failing fetch of an entity does not leave [Collect],
    and every failing fetch is counted and logged once.  In the v5 billing
    collector, [Collect] returns; the failure counter is incremented under
    "billing" once for each configured entity whose fetch fails; one error
    record is logged per such entity, naming its scope; and the samples
    sent are the sample sets of the items the client answers for the
    configured entities, an entity whose fetch fails contributing none, of
    which the first of each key is kept.  In the legacy billing collector,
    [Collect] returns as well, but it fetches every entity three times, once
    for each of its bills: the failure counter is incremented three times
    for each configured entity whose fetch fails, all under the label
    "action", and three error records are logged for it; the samples sent
    are those of the bills parsed from the responses of the entities whose
    fetch succeeds, of which the first of each name is kept.  In both
    collectors the samples sent are those sent when the failing entities
    are not configured at all. *)
Theorem fetch_failure_is_contained :
  (∀ (c : V5.Client) (cfg : Target),
     outcome (V5.Collect c cfg) = Returned tt ∧
     failureLabels (trace (V5.Collect c cfg))
     = replicate (length (V5.failingEntities c cfg)) "billing" ∧
     logScope <$> errorsLogged (trace (V5.Collect c cfg))
     = (fun e => (Some (VString e.1), Some (VString e.2))) <$> V5.failingEntities c cfg ∧
     sent (trace (V5.Collect c cfg))
     = concat (V5.sampleSet
                 <$> V5.firstOfKey []
                       (concat ((fun e => V5.withEntity e.1 e.2
                                            <$> V5.responseItems c e.1 e.2)
                                  <$> V5.configuredEntities cfg))) ∧
     (∀ e, e ∈ V5.failingEntities c cfg -> V5.responseItems c e.1 e.2 = []) ∧
     sent (trace (V5.Collect c cfg))
     = sent (trace (V5.Collect c (V5.withoutFailing c cfg)))) ∧
  (∀ (c : Legacy.Client) (cfg : Target),
     outcome (Legacy.Collect c cfg) = Returned tt ∧
     failureLabels (trace (Legacy.Collect c cfg))
     = replicate (3 * length (Legacy.failingEntities c cfg)) "action" ∧
     logScope <$> errorsLogged (trace (Legacy.Collect c cfg))
     = (let scopes := (fun e => (Some (VString e.1), Some (VString e.2)))
                        <$> Legacy.failingEntities c cfg in
        scopes ++ scopes ++ scopes) ∧
     sent (trace (Legacy.Collect c cfg))
     = concat (imap Legacy.actionSamples
                 (Legacy.firstOfName Legacy.aName []
                    ((fun bills => bills.1.1) <$> Legacy.fetchedBills c cfg)))
       ++ concat (Legacy.packageSamples
                    <$> Legacy.firstOfName Legacy.pName []
                          ((fun bills => bills.1.2) <$> Legacy.fetchedBills c cfg))
       ++ concat (Legacy.storageSamples
                    <$> Legacy.firstOfName Legacy.sName []
                          ((fun bills => bills.2) <$> Legacy.fetchedBills c cfg)) ∧
     sent (trace (Legacy.Collect c cfg))
     = sent (trace (Legacy.Collect c (Legacy.withoutFailing c cfg)))).
Proof.
  split.
  - intros c cfg. destruct (v5_collect_resilient c cfg) as (Ho & Hf & He & Hs).
    split; [exact Ho|]. split; [exact Hf|]. split; [exact He|].
    split; [|split; [|exact Hs]].
    + by rewrite v5_Collect_samples, v5_usageItemsOf_entities.
    + intros [entityType name]. unfold V5.failingEntities.
      rewrite elem_of_app, !list_elem_of_fmap. cbn [fst snd].
      assert (Hfail : V5.fetchFails c entityType name = true ->
                      V5.responseItems c entityType name = []).
      { unfold V5.fetchFails, V5.responseItems.
        destruct (V5.NewRequest c "GET" (V5.billingEndpoint entityType name))
          as [req|err]; [|done].
        by destruct (V5.Do c req). }
      intros [(n & [= -> ->] & [Hn _]%list_elem_of_filter)
             |(n & [= -> ->] & [Hn _]%list_elem_of_filter)]; by apply Hfail.
  - intros c cfg. destruct (legacy_package_fetch_resilient c cfg) as (_ & _ & _ & Ho & Hs).
    split; [exact Ho|]. split; [apply legacy_Collect_failureLabels|].
    split; [apply legacy_Collect_errorsLogged|]. split; [apply legacy_Collect_bills|exact Hs].
Qed.

End FailingEntity.

(** C4, as stated, fails on the legacy billing collector: with the
    organizations "broken" and "acme" configured and a client that fails
    the usage request of "broken" only, one entity fails, and one [Collect]
    increments the failure counter three times. *)
Lemma fetch_failure_counterexample :
  Legacy.failingEntities brokenOrgClient brokenAndAcme = [("org", "broken")]
  ∧ failureLabels (trace (@Legacy.Collect plainRuntime brokenOrgClient brokenAndAcme))
    = ["action"; "action"; "action"]
  ∧ (fun m => (metricName m, metricLabels m))
      <$> sent (trace (@Legacy.Collect plainRuntime brokenOrgClient brokenAndAcme))
    = [(Legacy.MinutesUsed, ["org"; "acme"]);
       (Legacy.PaidMinutesUsed, ["org"; "acme"]);
       (Legacy.IncludedMinutesDesc, ["org"; "acme"]);
       (Legacy.MinutesUsedBreakdownDesc, ["org"; "acme"; "UBUNTU"]);
       (Legacy.BandwidthUsed, ["org"; "acme"]);
       (Legacy.BandwidthPaid, ["org"; "acme"]);
       (Legacy.BandwidthIncluded, ["org"; "acme"]);
       (Legacy.DaysLeft, ["org"; "acme"]);
       (Legacy.EastimatedPaidStorage, ["org"; "acme"]);
       (Legacy.EastimatedStorage, ["org"; "acme"])].
Proof. split; [|split]; vm_compute; reflexivity. Qed.
